(** * sklearn.grid_search: parameter grids, samplers and cross-validated search

    A shallow embedding of [sklearn/grid_search.py].  Python dictionaries
    with string keys are [gmap string _], generators are the lists of the
    values they yield, exceptions are the [Raise] side of [result], and the
    duck-typed numeric tower ([numbers.Number]) is the [Number] class. *)

From Stdlib Require Import ZArith QArith Qcanon Floats.SpecFloat Lia.
From stdpp Require Import gmap strings list sorting pretty.

Local Open Scope string_scope.
Local Open Scope list_scope.
Local Open Scope nat_scope.

(** ** Exceptions *)

Inductive exn : Type :=
  | ValueError (msg : string)
  | TypeError (msg : string)
  | IndexError (msg : string)
  | ZeroDivisionError
  | AttributeError (attr : string)
  | KeyError (key : string)
  | UnboundLocalError (name : string)
  | CollaboratorError (tag : string).

Inductive result (A : Type) : Type :=
  | Ok (a : A)
  | Raise (e : exn).
Arguments Ok {A} a.
Arguments Raise {A} e.

Definition result_bind {A B} (f : A -> result B) (m : result A) : result B :=
  match m with
  | Ok a => f a
  | Raise e => Raise e
  end.

#[global] Instance result_ret : MRet result := fun _ a => Ok a.
#[global] Instance result_mbind : MBind result := fun _ _ f m => result_bind f m.
#[global] Instance result_fmap : FMap result :=
  fun _ _ f m => match m with Ok a => Ok (f a) | Raise e => Raise e end.

Definition is_ok {A} (m : result A) : bool :=
  match m with Ok _ => true | Raise _ => false end.

(** [mapM] over a list, left to right, stopping at the first exception. *)
Fixpoint result_mapM {A B} (f : A -> result B) (l : list A) : result (list B) :=
  match l with
  | [] => Ok []
  | x :: l' =>
      match f x with
      | Raise e => Raise e
      | Ok y =>
          match result_mapM f l' with
          | Raise e => Raise e
          | Ok ys => Ok (y :: ys)
          end
      end
  end.

(** ** Python built-ins used by the module *)

Section builtins.
Context {A K : Type}.

(** [sorted(iterable, key=..., reverse=...)]: a stable sort that compares
    keys with [<] only.  With [reverse=True] CPython reverses the list,
    sorts it and reverses the outcome, so equal keys still keep their
    original relative order. *)
Fixpoint insort (lt : K -> K -> bool) (key : A -> K) (x : A) (l : list A) : list A :=
  match l with
  | [] => [x]
  | y :: l' => if lt (key y) (key x) then y :: insort lt key x l' else x :: y :: l'
  end.

Definition sort_stable (lt : K -> K -> bool) (key : A -> K) (l : list A) : list A :=
  foldr (insort lt key) [] l.

Definition py_sorted (lt : K -> K -> bool) (key : A -> K) (rev : bool) (l : list A) : list A :=
  if rev then reverse (sort_stable lt key (reverse l)) else sort_stable lt key l.

(** [a] may stand before [b] in sorted order: the key of [b] is not
    below that of [a]. *)
Definition key_le (lt : K -> K -> bool) (key : A -> K) (a b : A) : Prop :=
  lt (key b) (key a) = false.

(** [x] is tied with [z]: neither key is below the other. *)
Definition tied (lt : K -> K -> bool) (key : A -> K) (z x : A) : Prop :=
  lt (key x) (key z) = false /\ lt (key z) (key x) = false.

#[global] Instance tied_dec lt key z x : Decision (tied lt key z x) :=
  and_dec (decide (lt (key x) (key z) = false)) (decide (lt (key z) (key x) = false)).

(** [functools.reduce(f, iterable)] without an initial value. *)
Definition reduce (f : A -> A -> A) (l : list A) : result A :=
  match l with
  | [] => Raise (TypeError "reduce() of empty sequence with no initial value")
  | x :: l' => Ok (foldl f x l')
  end.

(** [itertools.product], applied to the unpacked pools, as its
    documentation defines it:
    [result = [[]]], then for each pool
    [result = [x+[y] for x in result for y in pool]]. *)
Definition product (pools : list (list A)) : list (list A) :=
  foldl (fun acc pool => x ← acc; y ← pool; [x ++ [y]]) [[]] pools.
End builtins.

(** The recursive reading of [product]: the first pool is the outermost
    loop.  [product_cartesian_values] shows that it is the same list. *)
Fixpoint cartesian_values {A} (pools : list (list A)) : list (list A) :=
  match pools with
  | [] => [[]]
  | pool :: rest => y ← pool; t ← cartesian_values rest; [y :: t]
  end.

Definition prod_list (l : list nat) : nat := foldr Nat.mul 1 l.

(** [dict(pairs)]: later pairs overwrite earlier ones. *)
Definition dict {V} (pairs : list (string * V)) : gmap string V :=
  foldl (fun m kv => <[kv.1 := kv.2]> m) ∅ pairs.

(** [sum(iterable)] over Python ints. *)
Definition py_sum (l : list nat) : nat := foldl Nat.add 0 l.

(** ** ParameterGrid *)

(** The [param_grid] argument: a mapping from parameter names to value
    collections of type [B], or a sequence of such mappings. *)
Inductive grid_descriptor (B : Type) : Type :=
  | OneGroup (g : gmap string B)
  | Groups (gs : list (gmap string B)).
Arguments OneGroup {B} g.
Arguments Groups {B} gs.

Section ParameterGrid.
Context {V : Type}.

(** One axis group: parameter name to its candidate sequence. *)
Abbreviation group := (gmap string (list V)).
Abbreviation config := (gmap string V).

(** [ParameterGrid.__init__]: [self.param_grid]. *)
Definition ParameterGrid_init (param_grid : grid_descriptor (list V)) : list group :=
  match param_grid with
  | OneGroup g => [g]
  | Groups gs => gs
  end.

(** Tuples [(name, values)] compare by name first; the names of one
    dictionary are pairwise distinct, so the values are never compared. *)
Definition items_sorted {B} (p : gmap string B) : list (string * B) :=
  py_sorted String.ltb fst false (map_to_list p).

(** [ParameterGrid.__iter__], as the list of yielded dictionaries. *)
Definition ParameterGrid_iter (self : list group) : list config :=
  p ← self;
  let items := items_sorted p in
  match items with
  | [] => [∅]
  | _ :: _ =>
      let keys := items.*1 in
      let values := items.*2 in
      v ← product values;
      [dict (zip keys v)]
  end.

(** [ParameterGrid.__len__]. *)
Definition ParameterGrid_len (self : list group) : result nat :=
  py_sum <$> result_mapM
    (fun p : group =>
       if decide (p = ∅) then Ok 1
       else reduce Nat.mul (length <$> (map_to_list p).*2))
    self.

(** *** The enumeration the specification describes *)

(** Cartesian product of named axes; the first axis is the outermost
    loop, so the last one varies fastest. *)
Fixpoint cartesian (axes : list (string * list V)) : list (list (string * V)) :=
  match axes with
  | [] => [[]]
  | (k, vs) :: rest => v ← vs; c ← cartesian rest; [(k, v) :: c]
  end.

(** The axes of a group in increasing order of parameter name. *)
Definition name_le {B} (a b : string * B) : Prop := String.le a.1 b.1.

#[global] Instance name_le_dec {B} : RelDecision (@name_le B) :=
  fun a b => String.le_dec a.1 b.1.

Definition axes_by_name (g : group) : list (string * list V) :=
  merge_sort name_le (map_to_list g).

Definition group_configurations (g : group) : list config :=
  list_to_map <$> cartesian (axes_by_name g).

Definition grid_configurations (d : grid_descriptor (list V)) : list config :=
  match d with
  | OneGroup g => group_configurations g
  | Groups gs => gs ≫= group_configurations
  end.

(** Product of the candidate counts of a group; 1 for an empty group. *)
Definition group_size (g : group) : nat :=
  map_fold (fun _ vs n => length vs * n) 1 g.

Definition grid_size (d : grid_descriptor (list V)) : nat :=
  match d with
  | OneGroup g => group_size g
  | Groups gs => sum_list (group_size <$> gs)
  end.
End ParameterGrid.

(** ** Numbers *)

(** The arithmetic the search performs on scores, for any type that
    behaves as a [numbers.Number]: coercion of a Python [int], [+], [*],
    true division (which raises [ZeroDivisionError]) and [<]. *)
Class Number (num : Type) : Type := {
  of_int : Z -> num;
  num_add : num -> num -> num;
  num_mul : num -> num -> num;
  num_div : num -> num -> result num;
  num_lt : num -> num -> bool
}.

(** Exact rationals in lowest terms, as [fractions.Fraction] keeps them. *)
#[global] Instance Q_Number : Number Q := {|
  of_int z := inject_Z z;
  num_add x y := Qred (x + y);
  num_mul x y := Qred (x * y);
  num_div x y :=
    if Qeq_bool y 0 then Raise ZeroDivisionError else Ok (Qred (x / y));
  num_lt x y := negb (Qle_bool y x)
|}.

(** IEEE 754 binary64 with round-to-nearest-even, the Python [float]. *)
Definition f64_is_zero (x : spec_float) : bool :=
  match x with S754_zero _ => true | _ => false end.

#[global] Instance f64_Number : Number spec_float := {|
  of_int z := binary_normalize 53 1024 z 0 false;
  num_add x y := SFadd 53 1024 x y;
  num_mul x y := SFmul 53 1024 x y;
  num_div x y :=
    if f64_is_zero y then Raise ZeroDivisionError else Ok (SFdiv 53 1024 x y);
  num_lt x y := SFltb x y
|}.

(** The literal [a/b] of each number system: the exact fraction, and the
    binary64 value nearest to it (division is correctly rounded). *)
Definition Q_lit (a b : Z) : Q := Qred (inject_Z a / inject_Z b).
Definition f64_lit (a b : Z) : spec_float :=
  SFdiv 53 1024 (binary_normalize 53 1024 a 0 false)
                (binary_normalize 53 1024 b 0 false).

(** The order a sort by [<] needs: [<] is asymmetric and "not below" is
    transitive (a strict weak order).  Every Python number type without
    NaN provides it. *)
Class NumberOrder (num : Type) `{Number num} : Prop := {
  num_lt_asym : forall x y : num, num_lt x y = true -> num_lt y x = false;
  num_lt_negtrans :
    forall x y z : num, num_lt y x = false -> num_lt z y = false -> num_lt z x = false
}.

(** ** Aggregation and ranking of the evaluation results *)

(** [range(start, stop, step)] for non-negative arguments. *)
Fixpoint range_from (fuel start stop step : nat) : list nat :=
  match fuel with
  | 0 => []
  | S fuel' =>
      if start <? stop then start :: range_from fuel' (start + step) stop step
      else []
  end.

Definition py_range (start stop step : nat) : result (list nat) :=
  if step =? 0 then Raise (ValueError "range() arg 3 must not be zero")
  else Ok (range_from stop start stop step).

(** The slice [l[a:b]] for [0 <= a <= b]. *)
Definition py_slice {A} (l : list A) (a b : nat) : list A := take (b - a) (drop a l).

Section aggregation.
Context {V num : Type} `{Number num}.

(** [_CVScoreTuple] *)
Record CVScoreTuple : Type := mkCVScoreTuple {
  parameters : gmap string V;
  mean_validation_score : num;
  cv_validation_scores : list num
}.

(** The local variables of [_fit] that the inner loop updates.
    [loop_parameters] is the loop variable [parameters]; it keeps its
    last value when the loop is over. *)
Record fold_vars : Type := mkFoldVars {
  n_test_samples : nat;
  score : num;
  all_scores : list num;
  loop_parameters : option (gmap string V)
}.

(** One turn of the loop over [out[grid_start:grid_start + n_folds]]. *)
Definition fold_body (iid : bool) (st : fold_vars)
    (r : num * gmap string V * nat) : fold_vars :=
  let '(this_score, params, this_n_test_samples) := r in
  let all_scores' := all_scores st ++ [this_score] in
  if iid then
    let this_score' := num_mul this_score (of_int (Z.of_nat this_n_test_samples)) in
    {| n_test_samples := n_test_samples st + this_n_test_samples;
       score := num_add (score st) this_score';
       all_scores := all_scores';
       loop_parameters := Some params |}
  else
    {| n_test_samples := n_test_samples st;
       score := num_add (score st) this_score;
       all_scores := all_scores';
       loop_parameters := Some params |}.

(** The body of the loop over [grid_start]: the summary of one slice.
    The list [scores], which [_fit] fills and never reads, is left out. *)
Definition summarize (iid : bool) (n_folds : nat)
    (carried : option (gmap string V))
    (slice : list (num * gmap string V * nat)) : result CVScoreTuple :=
  let st := foldl (fold_body iid)
              {| n_test_samples := 0; score := of_int 0;
                 all_scores := []; loop_parameters := carried |} slice in
  score' ← num_div (score st)
             (of_int (Z.of_nat (if iid then n_test_samples st else n_folds)));
  match loop_parameters st with
  | None => Raise (UnboundLocalError "parameters")
  | Some params =>
      Ok {| parameters := params;
            mean_validation_score := score';
            cv_validation_scores := all_scores st |}
  end.

Fixpoint summarize_all (iid : bool) (n_folds : nat)
    (out : list (num * gmap string V * nat)) (starts : list nat)
    (carried : option (gmap string V)) : result (list CVScoreTuple) :=
  match starts with
  | [] => Ok []
  | grid_start :: rest =>
      t ← summarize iid n_folds carried
            (py_slice out grid_start (grid_start + n_folds));
      ts ← summarize_all iid n_folds out rest (Some (parameters t));
      Ok (t :: ts)
  end.

(** [cv_scores] as [_fit] builds it from [out]. *)
Definition aggregate (iid : bool) (n_folds : nat)
    (out : list (num * gmap string V * nat)) : result (list CVScoreTuple) :=
  starts ← py_range 0 (length out) n_folds;
  summarize_all iid n_folds out starts None.

(** [sorted(cv_scores, key=..., reverse=greater_is_better)[0]] *)
Definition select_best (greater_is_better : bool)
    (cv_scores : list CVScoreTuple) : result CVScoreTuple :=
  match py_sorted num_lt mean_validation_score greater_is_better cv_scores with
  | [] => Raise (IndexError "list index out of range")
  | best :: _ => Ok best
  end.

(** *** The summary the specification describes *)

Definition sum_num (l : list num) : num := foldl num_add (of_int 0) l.

Definition weighted_mean (scores_sizes : list (num * nat)) : result num :=
  num_div
    (sum_num ((fun sn => num_mul sn.1 (of_int (Z.of_nat sn.2))) <$> scores_sizes))
    (of_int (Z.of_nat (sum_list scores_sizes.*2))).

Definition unweighted_mean (fold_count : nat) (scores : list num) : result num :=
  num_div (sum_num scores) (of_int (Z.of_nat fold_count)).

(** The summary of one group of results [(score, parameters, test
    sample count)]: the mean chosen by [iid], the per-fold scores, and
    the parameters the group's last result carries. *)
Definition group_summary (iid : bool) (fold_count : nat)
    (group : list (num * gmap string V * nat)) : result CVScoreTuple :=
  mean ← (if iid then weighted_mean ((fun r => (r.1.1, r.2)) <$> group)
          else unweighted_mean fold_count group.*1.*1);
  match last group with
  | Some r =>
      Ok {| parameters := r.1.2;
            mean_validation_score := mean;
            cv_validation_scores := group.*1.*1 |}
  | None => Raise (UnboundLocalError "parameters")
  end.

(** What each result adds to [score] in the loop. *)
Definition terms (iid : bool) (g : list (num * gmap string V * nat)) : list num :=
  if iid then (fun r => num_mul r.1.1 (of_int (Z.of_nat r.2))) <$> g else g.*1.*1.

End aggregation.
Arguments CVScoreTuple : clear implicits.
Arguments fold_vars : clear implicits.

(** ** Collaborators: estimators, data, scorers, cross-validation *)

(** What a scoring call returns: a number, or an object of any other
    type.  Of the latter the module only takes [str(obj)] and
    [type(obj)], for the error message. *)
Inductive scored (num : Type) : Type :=
  | Numeric (x : num)
  | NonNumeric (shown type_shown : string).
Arguments Numeric {num} x.
Arguments NonNumeric {num} shown type_shown.

(** Scorer objects: a [metrics.Scorer] wrapped around a function, or any
    other callable passed as [scoring], which may or may not have a
    [greater_is_better] attribute. *)
Inductive scorer_obj (Fn : Type) : Type :=
  | Scorer (func : Fn) (greater_is_better : bool)
  | ScoringCallable (call : Fn) (declared : option bool).
Arguments Scorer {Fn} func greater_is_better.
Arguments ScoringCallable {Fn} call declared.

(** Modelled from the spec: [metrics.Scorer] is defined outside this
    module; the flag of [Scorer(score_func)], built without the keyword,
    is the default of the scorer contract, "greater is better". *)
Definition Scorer_default_greater_is_better : bool := true.

(** The [scoring] argument: [None], the name of a predefined scorer, or a
    scorer object. *)
Inductive scoring_arg (Fn : Type) : Type :=
  | NoScoring
  | ScoringName (name : string)
  | ScoringObject (s : scorer_obj Fn).
Arguments NoScoring {Fn}.
Arguments ScoringName {Fn} name.
Arguments ScoringObject {Fn} s.

(** The [pre_dispatch] argument: [None], an int, or an expression in
    [n_jobs] such as ['2*n_jobs']. *)
Inductive pre_dispatch_arg : Type :=
  | DispatchAll
  | DispatchCount (n : Z)
  | DispatchExpr (e : string).

(** One train/test split: the two index arrays. *)
Definition fold : Type := list nat * list nat.

(** The operations of the other modules that [grid_search] calls, on
    parameter values [V], scores [num], estimators [E], data [X], targets
    [Y], callables [Fn], fit keyword arguments [FP] and [cv] arguments
    [CVA]. *)
Class Collaborators (V num E X Y Fn FP CVA : Type) : Type := {
  (** [base.clone], [estimator.set_params], [base.is_classifier] *)
  clone : E -> E;
  set_params : E -> gmap string V -> result E;
  is_classifier : E -> bool;
  (** [hasattr(estimator, 'fit')], ['predict'], ['score'] *)
  has_fit : E -> bool;
  has_predict : E -> bool;
  has_score : E -> bool;
  (** [hasattr(est, 'kernel') and callable(est.kernel)] *)
  kernel_callable : E -> bool;
  (** [getattr(est, '_pairwise', False)] *)
  is_pairwise : E -> bool;
  (** [est.fit(X[, y], **fit_params)] returns the fitted estimator;
      [est.score(X[, y])] *)
  est_fit : E -> X -> option Y -> FP -> result E;
  est_score : E -> X -> option Y -> result (scored num);
  (** [str(estimator)] and [type(estimator)] in messages *)
  show_estimator : E -> string;
  show_estimator_type : E -> string;
  (** calling a scorer object: [scorer(estimator, X[, y])] *)
  call_scorer : scorer_obj Fn -> E -> X -> option Y -> result (scored num);
  (** [metrics.SCORERS] *)
  SCORERS : gmap string (scorer_obj Fn);
  (** [hasattr(X, 'shape')]; [X.shape[0] == X.shape[1]] *)
  has_shape : X -> bool;
  is_square : X -> bool;
  (** [[X[idx] for idx in ind]], [X[safe_mask(X, ind)]],
      [X[np.ix_(rows, cols)]], [y[safe_mask(y, ind)]] *)
  pick_items : X -> list nat -> X;
  mask_rows : X -> list nat -> X;
  ix_rows_cols : X -> list nat -> list nat -> X;
  mask_targets : Y -> list nat -> Y;
  (** [_num_samples(X)], [len(y)], [np.asarray(y)], [check_arrays] *)
  num_samples : X -> nat;
  len_targets : Y -> nat;
  asarray : Y -> Y;
  check_arrays : X -> option Y -> result (X * option Y);
  (** [check_cv(cv, X, y, classifier=...)]: the folds that iterating the
      checked [cv] yields; [len(cv)] is their number *)
  check_cv : CVA -> X -> option Y -> bool -> list fold;
  (** the default [fit_params], [{}] *)
  no_fit_params : FP
}.

Section evaluation.
Context {V num E X Y Fn FP CVA : Type} `{Collaborators V num E X Y Fn FP CVA}.

(** The train and test parts of [X] in [fit_grid_point]. *)
Definition split_data (Xv : X) (base_estimator : E) (train test : list nat) :
    result (X * X) :=
  if negb (has_shape Xv) then
    if is_pairwise base_estimator then
      Raise (ValueError ("Precomputed kernels or affinity matrices have "
                         ++ "to be passed as arrays or sparse matrices."))
    else Ok (pick_items Xv train, pick_items Xv test)
  else
    if is_pairwise base_estimator then
      if negb (is_square Xv) then
        Raise (ValueError "X should be a square kernel matrix")
      else Ok (ix_rows_cols Xv train train, ix_rows_cols Xv test train)
    else Ok (mask_rows Xv train, mask_rows Xv test).

(** Fitting and scoring in [fit_grid_point]: the value of [this_score]. *)
Definition fit_and_score (clf : E) (X_train X_test : X) (y : option Y)
    (train test : list nat) (scorer : option (scorer_obj Fn)) (fit_params : FP) :
    result (scored num) :=
  match y with
  | Some yv =>
      let y_test := mask_targets yv test in
      let y_train := mask_targets yv train in
      clf' ← est_fit clf X_train (Some y_train) fit_params;
      match scorer with
      | Some s => call_scorer s clf' X_test (Some y_test)
      | None => est_score clf' X_test (Some y_test)
      end
  | None =>
      clf' ← est_fit clf X_train None fit_params;
      match scorer with
      | Some s => call_scorer s clf' X_test None
      | None => est_score clf' X_test None
      end
  end.

Definition not_a_number_message (shown type_shown : string) : string :=
  "scoring must return a number, got " ++ shown ++ " (" ++ type_shown ++ ")"
  ++ " instead.".

(** [fit_grid_point].  The progress lines printed when [verbose > 1] are
    not part of the model. *)
Definition fit_grid_point (Xv : X) (y : option Y) (base_estimator : E)
    (parameters : gmap string V) (train test : list nat)
    (scorer : option (scorer_obj Fn)) (verbose : Z) (fit_params : FP) :
    result (num * gmap string V * nat) :=
  clf ← set_params (clone base_estimator) parameters;
  if kernel_callable base_estimator then
    Raise (ValueError ("Cannot use a custom kernel function. "
                       ++ "Precompute the kernel matrix instead."))
  else
    Xs ← split_data Xv base_estimator train test;
    let X_train := Xs.1 in
    let X_test := Xs.2 in
    this_score ← fit_and_score clf X_train X_test y train test scorer fit_params;
    match this_score with
    | NonNumeric shown type_shown =>
        Raise (ValueError (not_a_number_message shown type_shown))
    | Numeric s => Ok (s, parameters, num_samples X_test)
    end.
End evaluation.

(** ** Validation of the grid *)

(** A value of [param_grid]: a list, a tuple, an [ndarray] with its
    number of dimensions and its elements along the first axis, or an
    object of any other type with the sequence it yields when iterated,
    if it can be iterated. *)
Inductive param_value (V : Type) : Type :=
  | PyList (items : list V)
  | PyTuple (items : list V)
  | NdArray (ndim : nat) (items : list V)
  | OtherObject (iterated : option (list V)).
Arguments PyList {V} items.
Arguments PyTuple {V} items.
Arguments NdArray {V} ndim items.
Arguments OtherObject {V} iterated.

Section validation.
Context {V : Type}.

(** [len(v)] of a list, tuple or array. *)
Definition py_len (v : param_value V) : result nat :=
  match v with
  | PyList l | PyTuple l => Ok (length l)
  | NdArray 0 _ => Raise (TypeError "len() of unsized object")
  | NdArray (S _) l => Ok (length l)
  | OtherObject (Some l) => Ok (length l)
  | OtherObject None => Raise (TypeError "object has no len()")
  end.

(** The elements [tuple(v)] collects. *)
Definition py_iter (v : param_value V) : result (list V) :=
  match v with
  | PyList l | PyTuple l => Ok l
  | NdArray 0 _ => Raise (TypeError "iteration over a 0-d array")
  | NdArray (S _) l => Ok l
  | OtherObject (Some l) => Ok l
  | OtherObject None => Raise (TypeError "object is not iterable")
  end.

(** The three checks [_check_param_grid] makes on one value. *)
Definition check_value (v : param_value V) : result unit :=
  if (match v with NdArray ndim _ => 1 <? ndim | _ => false end) then
    Raise (ValueError "Parameter array should be one-dimensional.")
  else if negb (match v with
                | PyList _ | PyTuple _ | NdArray _ _ => true
                | OtherObject _ => false
                end) then
    Raise (ValueError "Parameter values should be a list.")
  else
    n ← py_len v;
    if n =? 0 then
      Raise (ValueError "Parameter values should be a non-empty list.")
    else Ok tt.

(** [_check_param_grid] *)
Definition _check_param_grid (param_grid : grid_descriptor (param_value V)) :
    result unit :=
  let groups := match param_grid with OneGroup g => [g] | Groups gs => gs end in
  _ ← result_mapM
        (fun p : gmap string (param_value V) =>
           result_mapM check_value (map_to_list p).*2)
        groups;
  Ok tt.

(** A value that passes: a non-empty list, tuple or one-dimensional
    array. *)
Definition valid_value (v : param_value V) : Prop :=
  match v with
  | PyList l | PyTuple l => l <> []
  | NdArray ndim l => ndim = 1 /\ l <> []
  | OtherObject _ => False
  end.

Definition descriptor_values (d : grid_descriptor (param_value V)) :
    list (param_value V) :=
  match d with
  | OneGroup g => (map_to_list g).*2
  | Groups gs => gs ≫= (fun g => (map_to_list g).*2)
  end.

(** The value sequences of a group, as [ParameterGrid] iterates them. *)
Definition sequences_of (g : gmap string (param_value V)) :
    result (gmap string (list V)) :=
  list_to_map <$>
    result_mapM (fun kv : string * param_value V => pair kv.1 <$> py_iter kv.2)
      (map_to_list g).

(** Iterating [ParameterGrid(param_grid)]: what it yields, group after
    group, and the exception that ends the iteration if a value cannot be
    iterated. *)
Fixpoint grid_iteration (groups : list (gmap string (param_value V))) :
    list (gmap string V) * option exn :=
  match groups with
  | [] => ([], None)
  | g :: rest =>
      match sequences_of g with
      | Raise e => ([], Some e)
      | Ok seqs =>
          let '(more, err) := grid_iteration rest in
          (ParameterGrid_iter [seqs] ++ more, err)
      end
  end.
End validation.

(** ** The execution pool *)

(** Modelled from the spec: [joblib.Parallel] is imported from
    [externals.joblib] and is not part of this module.  Its contract is
    that of the execution substrate: it takes the work units in
    generation order with a parallelism degree and a pre-dispatch bound,
    returns their results in submission order, and fails as a whole when
    a unit fails.  [Parallel] is the value the call returns for a
    sequential run; [pool_step] below describes the runs of the pool for
    any degree and bound. *)
Definition Parallel {T R} (n_jobs verbose : Z) (pre_dispatch : pre_dispatch_arg)
    (run : T -> result R) (tasks : list T) : result (list R) :=
  result_mapM run tasks.

Section pool.
Context {T R : Type} (run : T -> result R).

(** Units not yet dispatched, units in flight (each with its submission
    index), and the results received so far, by submission index. *)
Record pool : Type := mkPool {
  pending : list (nat * T);
  in_flight : list (nat * T);
  finished : gmap nat R
}.

Inductive pool_state : Type :=
  | Working (p : pool)
  | Failed (e : exn).

(** Modelled from the spec: at most [window] units are in flight (the
    pre-dispatch bound), the first [n_jobs] of them are being executed
    and complete in any order; a unit that raises ends the run. *)
Inductive pool_step (n_jobs window : nat) : pool_state -> pool_state -> Prop :=
  | step_dispatch u q fl fin :
      length fl < window ->
      pool_step n_jobs window
        (Working (mkPool (u :: q) fl fin))
        (Working (mkPool q (fl ++ [u]) fin))
  | step_complete q l1 i t l2 fin r :
      length l1 < n_jobs ->
      run t = Ok r ->
      pool_step n_jobs window
        (Working (mkPool q (l1 ++ (i, t) :: l2) fin))
        (Working (mkPool q (l1 ++ l2) (<[i := r]> fin)))
  | step_raise q l1 i t l2 fin e :
      length l1 < n_jobs ->
      run t = Raise e ->
      pool_step n_jobs window
        (Working (mkPool q (l1 ++ (i, t) :: l2) fin))
        (Failed e).

Definition pool_start (tasks : list T) : pool_state :=
  Working (mkPool (zip (seq 0 (length tasks)) tasks) [] ∅).

(** What holds of every state a run goes through: the units waiting
    or in flight are units of [tasks] under their own index, every stored
    result is that of the unit with that index, and every unit is
    waiting, in flight or done. *)
Definition pool_inv (tasks : list T) (s : pool_state) : Prop :=
  match s with
  | Working p =>
      (forall i t, (i, t) ∈ pending p ++ in_flight p -> tasks !! i = Some t)
      /\ (forall i r, finished p !! i = Some r ->
            exists t, tasks !! i = Some t /\ run t = Ok r)
      /\ (forall i t, tasks !! i = Some t ->
            (i, t) ∈ pending p ++ in_flight p \/ is_Some (finished p !! i))
  | Failed e => exists t, t ∈ tasks /\ run t = Raise e
  end.

(** The list handed back: the results by submission index. *)
Definition collect (n : nat) (fin : gmap nat R) : option (list R) :=
  mapM (fun i => fin !! i) (seq 0 n).

(** [pool_returns n_jobs window tasks res]: some run of the pool on
    [tasks] ends with [res]. *)
Definition pool_returns (n_jobs window : nat) (tasks : list T)
    (res : result (list R)) : Prop :=
  match res with
  | Ok out =>
      exists fin,
        rtc (pool_step n_jobs window) (pool_start tasks) (Working (mkPool [] [] fin))
        /\ collect (length tasks) fin = Some out
  | Raise e => rtc (pool_step n_jobs window) (pool_start tasks) (Failed e)
  end.
End pool.
Arguments pool : clear implicits.
Arguments pool_state : clear implicits.

(** ** The search *)

Inductive warning_category : Type := UserWarning | DeprecationWarning.

Record warning : Type := mkWarning {
  category : warning_category;
  message : string
}.

Section search.
Context {V num E X Y Fn FP CVA : Type} `{Number num}
        `{Collaborators V num E X Y Fn FP CVA}.

(** The attributes [_fit] sets; [None] while an attribute does not
    exist.  [scorer_] itself may hold [None]. *)
Record fitted_attrs : Type := mkFitted {
  scorer_ : option (option (scorer_obj Fn));
  cv_scores_ : option (list (CVScoreTuple V num));
  best_params_ : option (gmap string V);
  best_score_ : option num;
  best_estimator_ : option E
}.

Definition unfitted : fitted_attrs := mkFitted None None None None None.

(** A [BaseSearchCV] object. *)
Record BaseSearchCV : Type := mkBaseSearchCV {
  estimator : E;
  scoring : scoring_arg Fn;
  loss_func : option Fn;
  score_func : option Fn;
  fit_params : FP;
  n_jobs : Z;
  iid : bool;
  refit : bool;
  cv : CVA;
  verbose : Z;
  pre_dispatch : pre_dispatch_arg;
  attrs : fitted_attrs
}.

Definition with_attrs (f : fitted_attrs -> fitted_attrs) (s : BaseSearchCV) :
    BaseSearchCV :=
  mkBaseSearchCV (estimator s) (scoring s) (loss_func s) (score_func s)
    (fit_params s) (n_jobs s) (iid s) (refit s) (cv s) (verbose s)
    (pre_dispatch s) (f (attrs s)).

Definition set_scorer_ (v : option (scorer_obj Fn)) (a : fitted_attrs) :=
  mkFitted (Some v) (cv_scores_ a) (best_params_ a) (best_score_ a) (best_estimator_ a).
Definition set_cv_scores_ (v : list (CVScoreTuple V num)) (a : fitted_attrs) :=
  mkFitted (scorer_ a) (Some v) (best_params_ a) (best_score_ a) (best_estimator_ a).
Definition set_best_params_ (v : gmap string V) (a : fitted_attrs) :=
  mkFitted (scorer_ a) (cv_scores_ a) (Some v) (best_score_ a) (best_estimator_ a).
Definition set_best_score_ (v : num) (a : fitted_attrs) :=
  mkFitted (scorer_ a) (cv_scores_ a) (best_params_ a) (Some v) (best_estimator_ a).
Definition set_best_estimator_ (v : E) (a : fitted_attrs) :=
  mkFitted (scorer_ a) (cv_scores_ a) (best_params_ a) (best_score_ a) (Some v).

(** [BaseSearchCV._check_estimator] *)
Definition _check_estimator (self : BaseSearchCV) : result unit :=
  if negb (has_fit (estimator self))
     || negb (has_predict (estimator self) || has_score (estimator self)) then
    Raise (TypeError ("estimator should a be an estimator implementing"
                      ++ " 'fit' and 'predict' or 'score' methods, "
                      ++ show_estimator (estimator self) ++ " (type "
                      ++ show_estimator_type (estimator self) ++ ") was passed"))
  else
    match scoring self, loss_func self, score_func self with
    | NoScoring, None, None =>
        if negb (has_score (estimator self)) then
          Raise (TypeError ("If no scoring is specified, the estimator passed "
                            ++ "should have a 'score' method. The estimator "
                            ++ show_estimator (estimator self) ++ " does not."))
        else Ok tt
    | _, _, _ => Ok tt
    end.

(** [BaseSearchCV.__init__] *)
Definition BaseSearchCV_init (estimator : E) (scoring : scoring_arg Fn)
    (loss_func score_func : option Fn) (fit_params : option FP) (n_jobs : Z)
    (iid refit : bool) (cv : CVA) (verbose : Z) (pre_dispatch : pre_dispatch_arg) :
    result BaseSearchCV :=
  let self :=
    mkBaseSearchCV estimator scoring loss_func score_func
      (match fit_params with Some fp => fp | None => no_fit_params end)
      n_jobs iid refit cv verbose pre_dispatch unfitted in
  _ ← _check_estimator self;
  Ok self.

(** [BaseSearchCV.score] *)
Definition BaseSearchCV_score (self : BaseSearchCV) (Xv : X) (y : option Y) :
    result (scored num) :=
  match best_estimator_ (attrs self) with
  | None => Raise (AttributeError "best_estimator_")
  | Some best_estimator =>
      if has_score best_estimator then est_score best_estimator Xv y
      else
        match scorer_ (attrs self) with
        | None => Raise (AttributeError "scorer_")
        | Some None =>
            Raise (ValueError ("No score function explicitly defined, "
                               ++ "and the estimator doesn't provide one "
                               ++ show_estimator best_estimator))
        | Some (Some scorer) => call_scorer scorer best_estimator Xv y
        end
  end.

(** *** The monad of [_fit]: the object, the warnings issued, exceptions *)

Record world : Type := mkWorld {
  self_obj : BaseSearchCV;
  warned : list warning
}.

Definition M (A : Type) : Type := world -> world * result A.

Definition retM {A} (a : A) : M A := fun w => (w, Ok a).
Definition bindM {A B} (m : M A) (k : A -> M B) : M B :=
  fun w =>
    match m w with
    | (w', Ok a) => k a w'
    | (w', Raise e) => (w', Raise e)
    end.
Definition liftM {A} (r : result A) : M A := fun w => (w, r).
Definition get_self : M BaseSearchCV := fun w => (w, Ok (self_obj w)).
Definition set_attr (f : fitted_attrs -> fitted_attrs) : M unit :=
  fun w => (mkWorld (with_attrs f (self_obj w)) (warned w), Ok tt).
Definition warn (c : warning_category) (msg : string) : M unit :=
  fun w => (mkWorld (self_obj w) (warned w ++ [mkWarning c msg]), Ok tt).

Notation "'let!' x ':=' m 'in' k" := (bindM m (fun x => k))
  (at level 10, x pattern, m at level 100, k at level 200, only parsing).

Definition loss_func_message : string :=
  "Passing a loss function is deprecated and will be removed in 0.15. "
  ++ "Either use strings or score objects."
  ++ "The relevant new parameter is called ''scoring''. ".

Definition score_func_message : string :=
  "Passing function as ``score_func`` is deprecated and will be removed in 0.15. "
  ++ "Either use strings or score objects."
  ++ "The relevant new parameter is called ''scoring''.".

(** The [if]/[elif] chain of [_fit] that picks the scorer. *)
Definition resolve_scorer (self : BaseSearchCV) : M (option (scorer_obj Fn)) :=
  match loss_func self with
  | Some f =>
      let! _ := warn UserWarning loss_func_message in
      retM (Some (Scorer f false))
  | None =>
      match score_func self with
      | Some f =>
          let! _ := warn UserWarning score_func_message in
          retM (Some (Scorer f Scorer_default_greater_is_better))
      | None =>
          match scoring self with
          | ScoringName name =>
              match SCORERS !! name with
              | Some s => retM (Some s)
              | None => liftM (Raise (KeyError name))
              end
          | ScoringObject s => retM (Some s)
          | NoScoring => retM None
          end
      end
  end.

(** [getattr(self.scorer_, 'greater_is_better', True)] *)
Definition scorer_greater_is_better (scorer : option (scorer_obj Fn)) : bool :=
  match scorer with
  | Some (Scorer _ g) => g
  | Some (ScoringCallable _ (Some g)) => g
  | Some (ScoringCallable _ None) => true
  | None => true
  end.

(** The work units, in generation order:
    [for parameters in parameter_iterable for train, test in cv]. *)
Definition work_units (parameter_iterable : list (gmap string V)) (folds : list fold) :
    list (gmap string V * fold) :=
  parameters ← parameter_iterable; f ← folds; [(parameters, f)].

(** The local variables of [_fit] when the evaluation starts. *)
Record fit_locals : Type := mkFitLocals {
  local_X : X;
  local_y : option Y;
  local_scorer : option (scorer_obj Fn);
  local_cv : list fold;
  local_base_estimator : E
}.

(** The evaluation of one work unit as [_fit] submits it. *)
Definition run_unit (self : BaseSearchCV) (l : fit_locals)
    (u : gmap string V * fold) : result (num * gmap string V * nat) :=
  fit_grid_point (local_X l) (local_y l) (local_base_estimator l) u.1 u.2.1 u.2.2
    (local_scorer l) (verbose self) (fit_params self).

(** [BaseSearchCV._fit], first part: from the start of the body to
    [pre_dispatch = self.pre_dispatch].  [extra_params] are the
    [**params]. *)
Definition fit_setup (Xv : X) (y : option Y) (extra_params : gmap string V) :
    M fit_locals :=
  let! _ := (if decide (extra_params = ∅) then retM tt
             else warn UserWarning
                    ("Passing additional parameters to GridSearchCV "
                     ++ "is ignored! The option will be removed in 0.15.")) in
  let! self := get_self in
  let n_samples := num_samples Xv in
  let! Xy := liftM (check_arrays Xv y) in
  let Xv := Xy.1 in
  let y := Xy.2 in
  let! scorer := resolve_scorer self in
  let! _ := set_attr (set_scorer_ scorer) in
  let! y := liftM
              match y with
              | Some yv =>
                  if decide (len_targets yv = n_samples) then Ok (Some (asarray yv))
                  else Raise (ValueError
                         ("Target variable (y) has a different number "
                          ++ "of samples (" ++ pretty (len_targets yv)
                          ++ ") than data (X: " ++ pretty n_samples ++ " samples)"))
              | None => Ok None
              end in
  let folds := check_cv (cv self) Xv y (is_classifier (estimator self)) in
  let base_estimator := clone (estimator self) in
  retM (mkFitLocals Xv y scorer folds base_estimator).

(** [BaseSearchCV._fit], second part: from [out = Parallel(...)(...)] to
    the end.  [parameter_iterable] is what iterating the argument
    yields, with the exception that ends the iteration if there is one. *)
Definition fit_search (l : fit_locals)
    (parameter_iterable : list (gmap string V) * option exn) : M unit :=
  let! self := get_self in
  let! out := liftM (Parallel (n_jobs self) (verbose self) (pre_dispatch self)
                (run_unit self l)
                (work_units parameter_iterable.1 (local_cv l))) in
  let! _ := liftM match parameter_iterable.2 with
                  | Some e => Raise e
                  | None => Ok tt
                  end in
  let n_folds := length (local_cv l) in
  let! cv_scores := liftM (aggregate (iid self) n_folds out) in
  let! _ := set_attr (set_cv_scores_ cv_scores) in
  let greater_is_better := scorer_greater_is_better (local_scorer l) in
  let! best := liftM (select_best greater_is_better cv_scores) in
  let! _ := set_attr (set_best_params_ (parameters best)) in
  let! _ := set_attr (set_best_score_ (mean_validation_score best)) in
  if refit self then
    let! best_estimator :=
      liftM (set_params (clone (local_base_estimator l)) (parameters best)) in
    let! best_estimator :=
      liftM (est_fit best_estimator (local_X l) (local_y l) (fit_params self)) in
    set_attr (set_best_estimator_ best_estimator)
  else retM tt.

(** [BaseSearchCV._fit] *)
Definition _fit (Xv : X) (y : option Y)
    (parameter_iterable : list (gmap string V) * option exn)
    (extra_params : gmap string V) : M unit :=
  let! l := fit_setup Xv y extra_params in
  fit_search l parameter_iterable.

(** *** GridSearchCV *)

Record GridSearchCV : Type := mkGridSearchCV {
  grid_base : BaseSearchCV;
  param_grid : grid_descriptor (param_value V)
}.

(** [GridSearchCV.__init__] *)
Definition GridSearchCV_init (estimator : E)
    (param_grid : grid_descriptor (param_value V)) (scoring : scoring_arg Fn)
    (loss_func score_func : option Fn) (fit_params : option FP) (n_jobs : Z)
    (iid refit : bool) (cv : CVA) (verbose : Z) (pre_dispatch : pre_dispatch_arg) :
    result GridSearchCV :=
  base ← BaseSearchCV_init estimator scoring loss_func score_func fit_params
           n_jobs iid refit cv verbose pre_dispatch;
  _ ← _check_param_grid param_grid;
  Ok (mkGridSearchCV base param_grid).

(** [GridSearchCV.fit]: the object after the call, the warnings, and the
    exception if one was raised. *)
Definition GridSearchCV_fit (self : GridSearchCV) (Xv : X) (y : option Y)
    (extra_params : gmap string V) : GridSearchCV * list warning * result unit :=
  let groups := match param_grid self with OneGroup g => [g] | Groups gs => gs end in
  let '(w, r) := _fit Xv y (grid_iteration groups) extra_params
                   (mkWorld (grid_base self) []) in
  (mkGridSearchCV (self_obj w) (param_grid self), warned w, r).
End search.
Arguments fitted_attrs : clear implicits.
Arguments fit_locals : clear implicits.
Arguments BaseSearchCV : clear implicits.
Arguments GridSearchCV : clear implicits.
Arguments world : clear implicits.

(** ** ParameterSampler *)

(** A pseudo random number generator in the manner of
    [numpy.random.RandomState]: [RandomState_seed s] is the state of
    [RandomState(s)]; [randint st n] is the draw of [rnd.randint(n)] with
    the state after it, or the exception it raises. *)
Class RandomState (G : Type) : Type := {
  RandomState_seed : Z -> G;
  randint : G -> nat -> result (nat * G)
}.


(** A linear congruential generator, to run the sampler on. *)
Definition lcg_next (st : N) : N := ((1103515245 * st + 12345) mod 2147483648)%N.

#[global] Instance lcg_RandomState : RandomState N := {|
  RandomState_seed z := Z.to_N (z mod 2147483648)%Z;
  randint st n :=
    match n with
    | 0 => Raise (ValueError "low >= high")
    | S _ => Ok (N.to_nat (lcg_next st mod N.of_nat n)%N, lcg_next st)
    end
|}.

Section sampler.
Context {V G : Type} `{RandomState G}.

(** A value of [param_distributions]: a list of candidates, or an object
    with an [rvs] method.  [scipy.stats] distributions draw from the
    global generator of [numpy.random], whatever [random_state] is. *)
Inductive distribution : Type :=
  | Candidates (values : list V)
  | HasRvs (rvs : G -> V * G).

(** The [random_state] argument: [None], a seed, or a generator object
    shared with the caller (its address in [rng_objects]). *)
Inductive random_state_arg : Type :=
  | NoSeed
  | Seed (seed : Z)
  | Generator (ref : nat).

(** The generators that outlive a pass: the global one of
    [numpy.random], and the [RandomState] objects of the caller. *)
Record rng_world : Type := mkRngWorld {
  numpy_global : G;
  rng_objects : gmap nat G
}.

(** The value of [rnd]: the global generator, a generator created for
    this pass with its current state, or a shared object. *)
Inductive rnd_handle : Type :=
  | GlobalRng
  | FreshRng (st : G)
  | SharedRng (ref : nat).

(** Modelled from the spec: [utils.check_random_state] is outside this
    module.  A seed gives a generator of its own to every pass ("re-seeds
    deterministically per pass"); without a seed the global generator is
    used; a generator object is used as it is. *)
Definition check_random_state (random_state : random_state_arg) : rnd_handle :=
  match random_state with
  | NoSeed => GlobalRng
  | Seed z => FreshRng (RandomState_seed z)
  | Generator r => SharedRng r
  end.

(** [rnd.randint(n)] *)
Definition rnd_randint (rnd : rnd_handle) (n : nat) (w : rng_world) :
    result (nat * rnd_handle * rng_world) :=
  match rnd with
  | GlobalRng =>
      d ← randint (numpy_global w) n;
      Ok (d.1, GlobalRng, mkRngWorld d.2 (rng_objects w))
  | FreshRng st =>
      d ← randint st n;
      Ok (d.1, FreshRng d.2, w)
  | SharedRng r =>
      match rng_objects w !! r with
      | None => Raise (AttributeError "randint")
      | Some st =>
          d ← randint st n;
          Ok (d.1, SharedRng r, mkRngWorld (numpy_global w) (<[r := d.2]> (rng_objects w)))
      end
  end.

(** [v[i]] on a list, for [i >= 0]. *)
Definition py_getitem (v : list V) (i : nat) : result V :=
  match v !! i with
  | Some x => Ok x
  | None => Raise (IndexError "list index out of range")
  end.

Record ParameterSampler : Type := mkParameterSampler {
  param_distributions : gmap string distribution;
  n_iter : Z;
  random_state : random_state_arg
}.

(** The loop [for k, v in items] that fills [params]. *)
Fixpoint draw_params (items : list (string * distribution))
    (params : gmap string V) (rnd : rnd_handle) (w : rng_world) :
    result (gmap string V * rnd_handle * rng_world) :=
  match items with
  | [] => Ok (params, rnd, w)
  | (k, v) :: rest =>
      match v with
      | HasRvs rvs =>
          let d := rvs (numpy_global w) in
          draw_params rest (<[k := d.1]> params) rnd
            (mkRngWorld d.2 (rng_objects w))
      | Candidates values =>
          match rnd_randint rnd (length values) w with
          | Raise e => Raise e
          | Ok (i, rnd', w') =>
              match py_getitem values i with
              | Raise e => Raise e
              | Ok x => draw_params rest (<[k := x]> params) rnd' w'
              end
          end
      end
  end.

(** The loop [for _ in range(self.n_iter)]: the dictionaries yielded, the
    exception that ended the pass if any, and the generators after it. *)
Fixpoint sample_loop (passes : nat) (items : list (string * distribution))
    (rnd : rnd_handle) (w : rng_world) :
    list (gmap string V) * option exn * rng_world :=
  match passes with
  | 0 => ([], None, w)
  | S passes' =>
      match draw_params items ∅ rnd w with
      | Raise e => ([], Some e, w)
      | Ok (params, rnd', w') =>
          let '(more, err, w'') := sample_loop passes' items rnd' w' in
          (params :: more, err, w'')
      end
  end.

(** [ParameterSampler.__iter__] *)
Definition ParameterSampler_iter (self : ParameterSampler) (w : rng_world) :
    list (gmap string V) * option exn * rng_world :=
  let rnd := check_random_state (random_state self) in
  let items := items_sorted (param_distributions self) in
  sample_loop (Z.to_nat (n_iter self)) items rnd w.


(** *** The sampling the specification describes *)



(** One draw: for every parameter in increasing order of name, a variate
    of the distribution, or the candidate at an index drawn from the
    random source. *)
Fixpoint one_draw (axes : list (string * distribution)) (rnd : rnd_handle)
    (w : rng_world) : result (list (string * V) * rnd_handle * rng_world) :=
  match axes with
  | [] => Ok ([], rnd, w)
  | (k, HasRvs rvs) :: rest =>
      let d := rvs (numpy_global w) in
      r ← one_draw rest rnd (mkRngWorld d.2 (rng_objects w));
      Ok ((k, d.1) :: r.1.1, r.1.2, r.2)
  | (k, Candidates values) :: rest =>
      d ← rnd_randint rnd (length values) w;
      x ← py_getitem values d.1.1;
      r ← one_draw rest d.1.2 d.2;
      Ok ((k, x) :: r.1.1, r.1.2, r.2)
  end.

Fixpoint draws (count : nat) (axes : list (string * distribution))
    (rnd : rnd_handle) (w : rng_world) :
    list (gmap string V) * option exn * rng_world :=
  match count with
  | 0 => ([], None, w)
  | S count' =>
      match one_draw axes rnd w with
      | Raise e => ([], Some e, w)
      | Ok (c, rnd', w') =>
          let '(more, err, w'') := draws count' axes rnd' w' in
          (list_to_map c :: more, err, w'')
      end
  end.

Definition sampled_configurations (self : ParameterSampler) (w : rng_world) :
    list (gmap string V) * option exn * rng_world :=
  draws (Z.to_nat (n_iter self))
    (merge_sort name_le (map_to_list (param_distributions self)))
    (check_random_state (random_state self)) w.
End sampler.
Arguments distribution : clear implicits.
Arguments rng_world : clear implicits.
Arguments rnd_handle : clear implicits.
Arguments ParameterSampler : clear implicits.

(** *** RandomizedSearchCV *)

Section randomized.
Context {V num E X Y Fn FP CVA G : Type} `{Number num}
        `{Collaborators V num E X Y Fn FP CVA} `{RandomState G}.

Record RandomizedSearchCV : Type := mkRandomizedSearchCV {
  rand_param_distributions : gmap string (distribution V G);
  rand_n_iter : Z;
  rand_random_state : random_state_arg;
  rand_base : BaseSearchCV V num E Fn FP CVA
}.

(** [RandomizedSearchCV.__init__] *)
Definition RandomizedSearchCV_init (estimator : E)
    (param_distributions : gmap string (distribution V G)) (n_iter : Z)
    (scoring : scoring_arg Fn) (loss_func score_func : option Fn)
    (fit_params : option FP) (n_jobs : Z) (iid refit : bool) (cv : CVA)
    (verbose : Z) (pre_dispatch : pre_dispatch_arg)
    (random_state : random_state_arg) : result RandomizedSearchCV :=
  base ← BaseSearchCV_init estimator scoring loss_func score_func fit_params
           n_jobs iid refit cv verbose pre_dispatch;
  Ok (mkRandomizedSearchCV param_distributions n_iter random_state base).

(** [RandomizedSearchCV.fit] *)
Definition RandomizedSearchCV_fit (self : RandomizedSearchCV) (Xv : X)
    (y : option Y) (extra_params : gmap string V) (rw : rng_world G) :
    RandomizedSearchCV * list warning * result unit * rng_world G :=
  let sampled_params :=
    mkParameterSampler (rand_param_distributions self) (rand_n_iter self)
      (rand_random_state self) in
  let '(yielded, err, rw') := ParameterSampler_iter sampled_params rw in
  let '(w, r) := _fit Xv y (yielded, err) extra_params
                   (mkWorld (rand_base self) []) in
  (mkRandomizedSearchCV (rand_param_distributions self) (rand_n_iter self)
     (rand_random_state self) (self_obj w), warned w, r, rw').
End randomized.

(** ** A small estimator and data set to run the search on *)

(** An estimator with one integer parameter ["c"].  Fitting fails for a
    negative [c]; the score on any data is [c/10], except that [c = 99]
    scores with a string. *)
Record toy_estimator : Type := mkToy {
  toy_c : Z;
  toy_has_score : bool;
  toy_fitted_on : option nat
}.

Definition toy_pick (l : list Q) (ind : list nat) : list Q :=
  omap (fun i => l !! i) ind.

Definition toy_score (e : toy_estimator) : result (scored Q) :=
  if (toy_c e =? 99)%Z then Ok (NonNumeric "abc" "<type 'str'>")
  else Ok (Numeric (Qred (inject_Z (toy_c e) / 10))).

#[global] Instance toy_Collaborators :
    Collaborators Z Q toy_estimator (list Q) (list Q) string unit (list fold) := {|
  clone e := mkToy (toy_c e) (toy_has_score e) None;
  set_params e params :=
    match params !! "c" with
    | Some c => Ok (mkToy c (toy_has_score e) (toy_fitted_on e))
    | None =>
        if decide (params = ∅) then Ok e
        else Raise (ValueError "Invalid parameter for estimator Toy")
    end;
  is_classifier _ := false;
  has_fit _ := true;
  has_predict _ := true;
  has_score e := toy_has_score e;
  kernel_callable _ := false;
  is_pairwise _ := false;
  est_fit e Xv _ _ :=
    if (toy_c e <? 0)%Z then Raise (CollaboratorError "fit failed")
    else Ok (mkToy (toy_c e) (toy_has_score e) (Some (length Xv)));
  est_score e _ _ := toy_score e;
  show_estimator _ := "Toy()";
  show_estimator_type _ := "<class 'Toy'>";
  call_scorer s e _ _ :=
    match s with
    | Scorer _ _ => toy_score e
    | ScoringCallable _ _ => Ok (Numeric (inject_Z (toy_c e)))
    end;
  SCORERS := {[ "r2" := Scorer "r2_score" true ]};
  has_shape _ := true;
  is_square _ := true;
  pick_items := toy_pick;
  mask_rows := toy_pick;
  ix_rows_cols Xv rows _ := toy_pick Xv rows;
  mask_targets := toy_pick;
  num_samples Xv := length Xv;
  len_targets yv := length yv;
  asarray yv := yv;
  check_arrays Xv y := Ok (Xv, y);
  check_cv folds _ _ _ := folds;
  no_fit_params := tt
|}.

Definition toy_X : list Q := [1%Q; 2%Q; 3%Q; 4%Q].
Definition toy_y : list Q := [0%Q; 1%Q; 0%Q; 1%Q].
Definition toy_folds : list fold := [([2; 3], [0; 1]); ([0; 1], [2; 3])].

Definition toy_search (loss score : option string) (scoring : scoring_arg string)
    (refit : bool) : BaseSearchCV Z Q toy_estimator string unit (list fold) :=
  mkBaseSearchCV (mkToy 1 true None) scoring loss score tt 1%Z true refit
    toy_folds 0%Z (DispatchExpr "2*n_jobs") unfitted.

(** ** Concrete inputs *)

(** Parameter values of the docstring examples. *)
Inductive atom : Type :=
  | AInt (z : Z)
  | ABool (b : bool)
  | AStr (s : string).

Definition doc_grid : grid_descriptor (list atom) :=
  OneGroup {[ "a" := [AInt 1; AInt 2]; "b" := [ABool true; ABool false] ]}.

Definition doc_grid_of_grids : grid_descriptor (list atom) :=
  Groups [ {[ "kernel" := [AStr "linear"] ]};
           {[ "kernel" := [AStr "rbf"]; "gamma" := [AInt 1; AInt 10] ]} ].

(** Three fold results with scores 0.8, 0.9 and 0.7 and the given test
    set sizes, in the number system of the literal [lit]. *)
Definition example_group {num} (lit : Z -> Z -> num) (n1 n2 n3 : nat) :
    list (num * gmap string Z * nat) :=
  [(lit 8%Z 10%Z, ∅, n1); (lit 9%Z 10%Z, ∅, n2); (lit 7%Z 10%Z, ∅, n3)].

Definition toy_config (c : Z) : gmap string Z := {[ "c" := c ]}.

Definition toy_world (loss score : option string) (scoring : scoring_arg string) :
    world Z Q toy_estimator string unit (list fold) :=
  mkWorld (toy_search loss score scoring true) [].

(** A search over four configurations, two of them tied for the best
    score. *)
Definition toy_configs : list (gmap string Z) :=
  [toy_config 1; toy_config 3; toy_config 3; toy_config 2].

Definition toy_fit_outcome :
    world Z Q toy_estimator string unit (list fold) * result unit :=
  _fit toy_X (Some toy_y) (toy_configs, None) ∅ (toy_world None None NoScoring).

(** A search in which the fit of the second configuration raises. *)
Definition toy_failing_configs : list (gmap string Z) :=
  [toy_config 1; toy_config (-1); toy_config 2].

Definition toy_setup_outcome :
    world Z Q toy_estimator string unit (list fold)
    * result (fit_locals toy_estimator (list Q) (list Q) string) :=
  fit_setup toy_X (Some toy_y) ∅ (toy_world None None NoScoring).

Definition toy_locals : fit_locals toy_estimator (list Q) (list Q) string :=
  mkFitLocals toy_X (Some toy_y) None toy_folds (mkToy 1 true None).


(** A search object after a fit with [refit=True]. *)
Definition toy_fitted (has_own_score : bool) (scorer : option (scorer_obj string)) :
    BaseSearchCV Z Q toy_estimator string unit (list fold) :=
  with_attrs (fun _ => mkFitted (Some scorer) (Some []) (Some (toy_config 3))
                         (Some (Q_lit 3 10))
                         (Some (mkToy 3 has_own_score (Some 4))))
    (toy_search None None NoScoring true).

Definition toy_sampler : ParameterSampler Z N :=
  mkParameterSampler
    {[ "a" := Candidates [1; 2; 3]%Z; "b" := Candidates [10; 20]%Z ]} 4 (Seed 0).


(** A distribution with an [rvs] method: it draws from, and advances,
    the global generator. *)
Definition rvs_sampler : ParameterSampler Z N :=
  mkParameterSampler
    {[ "a" := HasRvs (fun g => (Z.of_N (g mod 100), lcg_next g)) ]} 2 (Seed 0).

Definition toy_rng (g : N) : rng_world N := mkRngWorld g ∅.

(** ** The deprecated names and the delegated methods *)

(** [IterGrid.__init__]: the deprecation warning, then
    [ParameterGrid.__init__].  Iteration and [len] are inherited. *)
Definition IterGrid_init {V} (param_grid : grid_descriptor (list V)) :
    list warning * list (gmap string (list V)) :=
  ([mkWarning DeprecationWarning
      ("IterGrid was renamed to ParameterGrid and will be" ++ " removed in 0.15.")],
   ParameterGrid_init param_grid).

Section delegation.
Context {V num E X Y Fn FP CVA : Type} `{Number num}
        `{Collaborators V num E X Y Fn FP CVA}.

(** The property [GridSearchCV.grid_scores_]: the warning it issues and
    the value of [self.cv_scores_]. *)
Definition GridSearchCV_grid_scores_ (self : GridSearchCV V num E Fn FP CVA) :
    list warning * result (list (CVScoreTuple V num)) :=
  ([mkWarning DeprecationWarning
      ("grid_scores_ is deprecated and will be removed in 0.15."
       ++ " Use cv_scores_ instead.")],
   match cv_scores_ (attrs (grid_base self)) with
   | Some cv_scores => Ok cv_scores
   | None => Raise (AttributeError "cv_scores_")
   end).

(** The properties [predict], [predict_proba], [decision_function] and
    [transform]: the attribute of that name of [self.best_estimator_],
    where [getattr] looks the attribute up on an estimator. *)
Definition BaseSearchCV_delegate {A} (getattr : E -> result A)
    (self : BaseSearchCV V num E Fn FP CVA) : result A :=
  match best_estimator_ (attrs self) with
  | None => Raise (AttributeError "best_estimator_")
  | Some best_estimator => getattr best_estimator
  end.
End delegation.

(** ** Notions the properties are stated with *)

(** The elements of a value that [_check_param_grid] accepts. *)
Definition value_items {V} (v : param_value V) : list V :=
  match v with
  | PyList l | PyTuple l | NdArray _ l => l
  | OtherObject o => default [] o
  end.

(** The candidate sequences of a descriptor. *)
Definition descriptor_sequences {V} (d : grid_descriptor (param_value V)) :
    grid_descriptor (list V) :=
  match d with
  | OneGroup g => OneGroup (fmap (M := gmap string) value_items g)
  | Groups gs => Groups (fmap (M := gmap string) value_items <$> gs)
  end.

(** The message of the warning about [**params] in [_fit]. *)
Definition additional_parameters_message : string :=
  "Passing additional parameters to GridSearchCV "
  ++ "is ignored! The option will be removed in 0.15.".

(** The sampler [self] with another number of iterations. *)
Definition with_n_iter {V G} (self : ParameterSampler V G) (n : Z) :
    ParameterSampler V G :=
  mkParameterSampler (param_distributions self) n (random_state self).

(** A sampler like [toy_sampler] that draws from the global generator. *)
Definition unseeded_sampler : ParameterSampler Z N :=
  mkParameterSampler
    {[ "a" := Candidates [1; 2; 3]%Z; "b" := Candidates [10; 20]%Z ]} 3 NoSeed.

(** Searches over the toy estimator: with the estimator's own [score] or
    with a scoring callable, with or without refit, over given folds. *)
Definition toy_search_on (has_own_score : bool) (scoring : scoring_arg string)
    (refit : bool) (folds : list fold) :
    BaseSearchCV Z Q toy_estimator string unit (list fold) :=
  mkBaseSearchCV (mkToy 1 has_own_score None) scoring None None tt 1%Z true refit
    folds 0%Z (DispatchExpr "2*n_jobs") unfitted.

Definition toy_grid : grid_descriptor (param_value Z) :=
  OneGroup {[ "c" := PyList [1; 3; 2]%Z ]}.

Definition toy_randomized :
    @RandomizedSearchCV Z Q toy_estimator string unit (list fold) N :=
  mkRandomizedSearchCV {[ "c" := Candidates [1; 2; 3]%Z ]} 3 (Seed 0)
    (toy_search None None NoScoring true).

(** A target with two values for the four samples of [toy_X]. *)
Definition short_y : list Q := [0%Q; 1%Q].

(* ================================================================== *)
(** * Properties *)

(** ** The built-ins *)

Section sorted_facts.
Context {A K : Type} (lt : K -> K -> bool) (key : A -> K).

Hypothesis lt_asym : forall x y, lt x y = true -> lt y x = false.
Hypothesis lt_negtrans :
  forall x y z, lt y x = false -> lt z y = false -> lt z x = false.

Lemma insort_Permutation x l : insort lt key x l ≡ₚ x :: l.
Proof.
  induction l as [|y l IH]; simpl; [done|].
  destruct (lt (key y) (key x)); [|done].
  rewrite IH. apply Permutation_swap.
Qed.

Lemma sort_stable_Permutation l : sort_stable lt key l ≡ₚ l.
Proof.
  induction l as [|x l IH]; simpl; [done|].
  rewrite insort_Permutation. by rewrite IH.
Qed.

Lemma insort_StronglySorted x l :
  StronglySorted (key_le lt key) l -> StronglySorted (key_le lt key) (insort lt key x l).
Proof.
  induction 1 as [|y l Hl IH Hy]; simpl.
  - repeat constructor.
  - destruct (lt (key y) (key x)) eqn:Hyx.
    + constructor; [done|].
      rewrite insort_Permutation. constructor; [|done].
      unfold key_le. by apply lt_asym.
    + constructor; [by constructor|].
      constructor; [done|].
      eapply Forall_impl; [exact Hy|].
      intros z Hz. unfold key_le in *. by eapply lt_negtrans.
Qed.

Lemma sort_stable_StronglySorted l : StronglySorted (key_le lt key) (sort_stable lt key l).
Proof.
  induction l as [|x l IH]; simpl; [constructor|].
  by apply insort_StronglySorted.
Qed.





Lemma py_sorted_Permutation (rev : bool) l : py_sorted lt key rev l ≡ₚ l.
Proof.
  destruct rev; simpl; [|apply sort_stable_Permutation].
  by rewrite reverse_Permutation, sort_stable_Permutation, reverse_Permutation.
Qed.



End sorted_facts.

Lemma StronglySorted_weaken {A} (R1 R2 : relation A) l :
  (forall a b, R1 a b -> R2 a b) -> StronglySorted R1 l -> StronglySorted R2 l.
Proof.
  intros HR. induction 1 as [|x l Hl IH Hx]; constructor; [done|].
  eapply Forall_impl; eauto.
Qed.

Lemma string_ltb_false_le (a b : string) : String.ltb b a = false <-> String.le a b.
Proof.
  unfold String.le, String.ltb, String.leb.
  rewrite (String.compare_antisym a b).
  destruct (String.compare b a); simpl; split; (done || intros []).
Qed.

Lemma string_ltb_asym (x y : string) : String.ltb x y = true -> String.ltb y x = false.
Proof.
  unfold String.ltb. rewrite (String.compare_antisym x y).
  by destruct (String.compare y x).
Qed.

Lemma string_ltb_negtrans (x y z : string) :
  String.ltb y x = false -> String.ltb z y = false -> String.ltb z x = false.
Proof.
  rewrite !string_ltb_false_le. intros Hxy Hyz. by etrans.
Qed.

Section product_facts.
Context {A : Type}.
Implicit Types (pools : list (list A)) (acc : list (list A)).

Lemma product_step_tail (a : list A) (y : A) (C : list (list A)) :
  (t ← C; [(a ++ [y]) ++ t]) = (t ← (t' ← C; [y :: t']); [a ++ t]).
Proof.
  induction C as [|c C IH]; [done|].
  rewrite !bind_cons, bind_app, bind_singleton, IH.
  by rewrite <- (assoc_L (++) a).
Qed.

Lemma product_step_pool (a : list A) (pool : list A) (C : list (list A)) :
  (a' ← (y ← pool; [a ++ [y]]); t ← C; [a' ++ t])
  = (t ← (y ← pool; t' ← C; [y :: t']); [a ++ t]).
Proof.
  induction pool as [|y pool IH]; [done|].
  rewrite !bind_cons, !bind_app, bind_singleton.
  by rewrite IH, product_step_tail.
Qed.

Lemma product_step acc (pool : list A) (C : list (list A)) :
  (a' ← (x ← acc; y ← pool; [x ++ [y]]); t ← C; [a' ++ t])
  = (a ← acc; t ← (y ← pool; t' ← C; [y :: t']); [a ++ t]).
Proof.
  induction acc as [|a acc IH]; [done|].
  rewrite !bind_cons, bind_app. by rewrite IH, product_step_pool.
Qed.

Lemma product_foldl pools acc :
  foldl (fun acc pool => x ← acc; y ← pool; [x ++ [y]]) acc pools
  = (a ← acc; t ← cartesian_values pools; [a ++ t]).
Proof.
  revert acc. induction pools as [|pool pools IH]; intros acc; simpl.
  - induction acc as [|a acc IHa]; [done|].
    rewrite bind_cons, <- IHa. simpl. by rewrite (right_id_L [] (++)).
  - rewrite IH. apply product_step.
Qed.

(** The iterative definition of [itertools.product] enumerates the
    pools with the first pool outermost, the last varying fastest. *)
Lemma product_cartesian_values pools : product pools = cartesian_values pools.
Proof.
  unfold product. rewrite product_foldl, bind_singleton. simpl.
  induction (cartesian_values pools) as [|c C IH]; [done|].
  by rewrite bind_cons, IH.
Qed.

Lemma length_cartesian_values pools :
  length (cartesian_values pools) = prod_list (length <$> pools).
Proof.
  induction pools as [|pool pools IH]; [done|].
  rewrite fmap_cons. change (prod_list (length pool :: (length <$> pools)))
    with (length pool * prod_list (length <$> pools)).
  rewrite <- IH. change (cartesian_values (pool :: pools))
    with (y ← pool; t ← cartesian_values pools; [y :: t]).
  generalize (cartesian_values pools) as C. intros C.
  assert (forall y : A, length (t ← C; [y :: t]) = length C) as Hrow.
  { intros y. induction C as [|c C IHC]; [done|].
    by rewrite bind_cons, length_app, IHC. }
  induction pool as [|y pool IHp]; [done|].
  rewrite bind_cons, length_app, IHp, Hrow. done.
Qed.
End product_facts.

Lemma prod_list_Permutation (l1 l2 : list nat) :
  l1 ≡ₚ l2 -> prod_list l1 = prod_list l2.
Proof.
  induction 1 as [|x l1' l2' _ IH|x y l|l1' l2' l3' _ IH1 _ IH2];
    unfold prod_list in *; simpl; lia.
Qed.

Lemma foldl_mul_prod_list (x : nat) (l : list nat) :
  foldl Nat.mul x l = x * prod_list l.
Proof.
  revert x. induction l as [|y l IH]; intros x; simpl; [lia|]. rewrite IH. lia.
Qed.

Lemma py_sum_sum_list (l : list nat) : py_sum l = sum_list l.
Proof.
  unfold py_sum. assert (forall a, foldl Nat.add a l = a + sum_list l) as H.
  { induction l as [|y l IH]; intros a; simpl; [lia|]. rewrite IH. lia. }
  by rewrite H.
Qed.

Lemma dict_list_to_map {V} (l : list (string * V)) :
  NoDup l.*1 -> dict l = list_to_map l.
Proof.
  unfold dict.
  assert (forall (m : gmap string V),
    NoDup l.*1 -> (forall k, k ∈ l.*1 -> m !! k = None) ->
    foldl (fun m kv => <[kv.1 := kv.2]> m) m l = list_to_map l ∪ m) as H.
  { induction l as [|[k v] l IH]; intros m Hnd Hm; simpl.
    - by rewrite (left_id_L ∅ (∪)).
    - inversion_clear Hnd as [|?? Hk Hl]. rewrite IH; [|done|].
      + rewrite <- insert_union_l, insert_union_r; [done|].
        by apply not_elem_of_list_to_map_1.
      + intros k' Hk'. rewrite lookup_insert_ne; [|by intros ->].
        apply Hm. rewrite fmap_cons. by apply list_elem_of_further. }
  intros Hnd. rewrite H; [|done|intros; apply lookup_empty].
  by rewrite (right_id_L ∅ (∪)).
Qed.

Section ParameterGrid_facts.
Context {V : Type}.
Implicit Types (g : gmap string (list V)) (gs : list (gmap string (list V))).
Implicit Types (d : grid_descriptor (list V)).

#[local] Instance name_le_trans {B} : Transitive (@name_le B).
Proof. intros a b c. unfold name_le. apply transitivity. Qed.
#[local] Instance name_le_total {B} : Total (@name_le B).
Proof. intros a b. unfold name_le. apply total, _. Qed.

(** Python's sort and the merge sort of the specification agree on the
    items of a dictionary: both give the one name-sorted arrangement. *)
Lemma items_sorted_by_name {B} (p : gmap string B) :
  items_sorted p = merge_sort name_le (map_to_list p).
Proof.
  apply (StronglySorted_unique_strong name_le).
  - intros [k1 v1] [k2 v2] H1 H2 H12 H21. unfold name_le in *. simpl in *.
    assert (k1 = k2) as -> by (by apply (anti_symm String.le)).
    f_equal. unfold items_sorted, py_sorted in H1.
    rewrite sort_stable_Permutation in H1.
    rewrite merge_sort_Permutation in H2.
    apply elem_of_map_to_list in H1, H2. congruence.
  - unfold items_sorted, py_sorted.
    eapply StronglySorted_weaken;
      [|apply sort_stable_StronglySorted;
        [intros ??; apply string_ltb_asym | intros ???; apply string_ltb_negtrans]].
    intros a b Hab. unfold key_le in Hab. by apply string_ltb_false_le.
  - apply Sorted_StronglySorted; [apply _|]. apply Sorted_merge_sort, _.
  - unfold items_sorted, py_sorted.
    by rewrite sort_stable_Permutation, merge_sort_Permutation.
Qed.

Lemma bind_ret_fmap {A B} (f : A -> B) (l : list A) : (x ← l; [f x]) = f <$> l.
Proof. induction l as [|x l IH]; [done|]. by rewrite bind_cons, IH. Qed.

Lemma zip_cartesian (axes : list (string * list V)) :
  zip axes.*1 <$> cartesian_values axes.*2 = cartesian axes.
Proof.
  induction axes as [|[k vs] axes IH]; [done|].
  rewrite !fmap_cons. simpl. rewrite <- IH.
  generalize (cartesian_values axes.*2) as C. intros C.
  induction vs as [|v vs IHv]; [done|].
  rewrite !bind_cons, fmap_app, IHv. f_equal.
  rewrite !bind_ret_fmap, <- !list_fmap_compose. done.
Qed.

Lemma cartesian_names (axes : list (string * list V)) c :
  c ∈ cartesian axes -> c.*1 = axes.*1.
Proof.
  revert c. induction axes as [|[k vs] axes IH]; intros c; simpl.
  - by intros ->%list_elem_of_singleton.
  - intros (v & (c' & ->%list_elem_of_singleton & Hc')%list_elem_of_bind & Hv)%list_elem_of_bind.
    rewrite !fmap_cons. simpl. f_equal. by apply IH.
Qed.

(** The axes of the specification are the items of the group, each
    once, in increasing order of name. *)
Lemma axes_by_name_sorted g :
  axes_by_name g ≡ₚ map_to_list g /\ StronglySorted name_le (axes_by_name g).
Proof.
  split; [apply merge_sort_Permutation|].
  apply Sorted_StronglySorted; [apply _|]. apply Sorted_merge_sort, _.
Qed.

Lemma NoDup_axes_by_name g : NoDup (axes_by_name g).*1.
Proof.
  unfold axes_by_name. rewrite merge_sort_Permutation.
  apply NoDup_fst_map_to_list.
Qed.

(** One axis group: the generator body of [__iter__] yields the
    Cartesian product over the name-sorted axes. *)
Lemma ParameterGrid_iter_group g :
  ParameterGrid_iter [g] = group_configurations g.
Proof.
  unfold ParameterGrid_iter, group_configurations.
  rewrite bind_singleton, (items_sorted_by_name g).
  fold (axes_by_name g).
  destruct (axes_by_name g) as [|a axes] eqn:Haxes; [done|].
  rewrite <- Haxes, product_cartesian_values, bind_ret_fmap.
  rewrite <- zip_cartesian, <- list_fmap_compose.
  apply list_fmap_ext. intros i v Hv. simpl.
  apply dict_list_to_map.
  assert (zip (axes_by_name g).*1 v ∈ cartesian (axes_by_name g)) as Hc.
  { rewrite <- zip_cartesian. apply list_elem_of_fmap. exists v. split; [done|].
    by eapply list_elem_of_lookup_2. }
  rewrite (cartesian_names _ _ Hc). apply NoDup_axes_by_name.
Qed.

Lemma ParameterGrid_iter_cons g gs :
  ParameterGrid_iter (g :: gs) = group_configurations g ++ ParameterGrid_iter gs.
Proof.
  rewrite <- ParameterGrid_iter_group. unfold ParameterGrid_iter.
  by rewrite bind_cons, bind_singleton.
Qed.

Lemma ParameterGrid_iter_groups gs :
  ParameterGrid_iter gs = gs ≫= group_configurations.
Proof.
  induction gs as [|g gs IH]; [done|].
  by rewrite ParameterGrid_iter_cons, bind_cons, IH.
Qed.

Lemma length_cartesian (axes : list (string * list V)) :
  length (cartesian axes) = prod_list (length <$> axes.*2).
Proof.
  by rewrite <- zip_cartesian, length_fmap, length_cartesian_values.
Qed.

Lemma group_size_prod_list g :
  group_size g = prod_list (length <$> (map_to_list g).*2).
Proof.
  unfold group_size. rewrite map_fold_foldr.
  induction (map_to_list g) as [|[k vs] l IH]; [done|].
  simpl. by rewrite IH.
Qed.

Lemma length_group_configurations g :
  length (group_configurations g) = group_size g.
Proof.
  unfold group_configurations.
  rewrite length_fmap, length_cartesian, group_size_prod_list.
  apply prod_list_Permutation. unfold axes_by_name.
  by rewrite merge_sort_Permutation.
Qed.

Lemma ParameterGrid_len_groups gs :
  ParameterGrid_len gs = Ok (sum_list (group_size <$> gs)).
Proof.
  unfold ParameterGrid_len.
  assert (result_mapM
    (fun p : gmap string (list V) =>
       if decide (p = ∅) then Ok 1
       else reduce Nat.mul (length <$> (map_to_list p).*2)) gs
    = Ok (group_size <$> gs)) as ->.
  { induction gs as [|g gs IH]; [done|]. simpl. rewrite IH.
    case_decide as Hg.
    - subst g. done.
    - rewrite group_size_prod_list.
      destruct (map_to_list g) as [|[k vs] l] eqn:Hl.
      + by apply map_to_list_empty_iff in Hl.
      + simpl. by rewrite foldl_mul_prod_list. }
  simpl. by rewrite py_sum_sum_list.
Qed.

Lemma length_ParameterGrid_iter gs :
  length (ParameterGrid_iter gs) = sum_list (group_size <$> gs).
Proof.
  induction gs as [|g gs IH]; [done|].
  rewrite ParameterGrid_iter_cons, length_app, IH, length_group_configurations.
  done.
Qed.

(** C1. For a single axis group or a sequence of groups, iterating the
    [ParameterGrid] yields the concatenation, in group order, of the
    Cartesian products of the groups' candidate sequences, names sorted
    within a group and the last name varying fastest; a group without
    parameters yields the empty configuration alone; and [__len__] is
    the number of configurations yielded, the sum over the groups of
    the product of their candidate counts. *)
Theorem ParameterGrid_enumeration d :
  ParameterGrid_iter (ParameterGrid_init d) = grid_configurations d
  /\ ParameterGrid_iter (ParameterGrid_init (OneGroup ∅))
      = [(∅ : gmap string V)]
  /\ ParameterGrid_len (ParameterGrid_init d)
      = Ok (length (ParameterGrid_iter (ParameterGrid_init d)))
  /\ length (ParameterGrid_iter (ParameterGrid_init d)) = grid_size d
  /\ group_size (∅ : gmap string (list V)) = 1.
Proof.
  split_and!.
  - destruct d as [g|gs]; simpl.
    + apply ParameterGrid_iter_group.
    + apply ParameterGrid_iter_groups.
  - done.
  - by rewrite ParameterGrid_len_groups, length_ParameterGrid_iter.
  - rewrite length_ParameterGrid_iter. destruct d as [g|gs]; simpl; [lia|done].
  - done.
Qed.
End ParameterGrid_facts.

(** ** Aggregation *)

Section aggregation_facts.
Context {V num : Type} `{Number num}.
Implicit Types (g slice : list (num * gmap string V * nat)).
Implicit Types (st : fold_vars V num).

Lemma foldl_fold_body iid st g :
  foldl (fold_body iid) st g =
  {| n_test_samples := n_test_samples st + (if iid then sum_list g.*2 else 0);
     score := foldl num_add (score st) (terms iid g);
     all_scores := all_scores st ++ g.*1.*1;
     loop_parameters :=
       match last g with Some r => Some r.1.2 | None => loop_parameters st end |}.
Proof.
  revert st. induction g as [|[[s p] n] g IH]; intros st.
  - destruct st, iid; simpl; by rewrite Nat.add_0_r, (right_id_L [] (++)).
  - change (foldl (fold_body iid) st ((s, p, n) :: g))
      with (foldl (fold_body iid) (fold_body iid st (s, p, n)) g).
    rewrite IH. clear IH.
    assert (match last ((s, p, n) :: g) with
            | Some r => Some r.1.2
            | None => loop_parameters st
            end = match last g with
                  | Some r => Some r.1.2
                  | None => Some p
                  end) as ->.
    { rewrite last_cons. by destruct (last g). }
    destruct iid; simpl; f_equal; try done;
      try (by rewrite <- (assoc_L (++)));
      by rewrite <- Nat.add_assoc.
Qed.

(** One slice: the loop body computes the summary of the group. *)
Lemma summarize_group iid n_folds carried slice :
  slice <> [] ->
  summarize iid n_folds carried slice = group_summary iid n_folds slice.
Proof.
  intros Hne. unfold summarize, group_summary.
  rewrite foldl_fold_body. simpl.
  assert (is_Some (last slice)) as [r Hr].
  { destruct slice as [|a l]; [done|]. rewrite last_cons. destruct (last l); eauto. }
  rewrite Hr. unfold weighted_mean, unweighted_mean, sum_num, terms.
  destruct iid; simpl.
  - rewrite <- !list_fmap_compose. done.
  - done.
Qed.

Lemma range_from_stride (fuel start step k : nat) :
  0 < step -> k <= fuel ->
  range_from fuel start (start + k * step) step
  = (fun i => start + i * step) <$> seq 0 k.
Proof.
  intros Hstep. revert fuel start. induction k as [|k IH]; intros fuel start Hk.
  - destruct fuel; simpl; [done|].
    rewrite Nat.add_0_r, Nat.ltb_irrefl. done.
  - destruct fuel as [|fuel]; [lia|]. simpl.
    destruct (Nat.ltb_spec start (start + (step + k * step))); [|lia].
    replace (start + (step + k * step)) with ((start + step) + k * step) by lia.
    rewrite IH by lia. rewrite Nat.add_0_r. f_equal.
    rewrite <- fmap_S_seq, <- list_fmap_compose.
    apply list_fmap_ext. intros; simpl; lia.
Qed.

(** The fuel of [py_range] is enough: [range(0, stop, step)] is the
    whole progression [0, step, 2*step, ...] below [stop]. *)
Lemma range_from_progression (fuel start stop step : nat) :
  0 < step -> stop - start <= fuel ->
  range_from fuel start stop step
  = (fun i => start + i * step) <$> seq 0 ((stop - start + step - 1) / step).
Proof.
  intros Hstep. revert start. induction fuel as [|fuel IH]; intros start Hfuel.
  - simpl. replace (stop - start) with 0 by lia.
    by rewrite Nat.div_small by lia.
  - simpl. destruct (Nat.ltb_spec start stop) as [Hlt|Hge].
    + rewrite IH by lia.
      assert ((stop - start + step - 1) / step
              = S ((stop - (start + step) + step - 1) / step)) as ->.
      { destruct (Nat.le_gt_cases step (stop - start)) as [Hle|Hgt].
        - replace (stop - start + step - 1)
            with ((stop - (start + step) + step - 1) + 1 * step) by lia.
          rewrite Nat.div_add by lia. lia.
        - replace (stop - (start + step)) with 0 by lia.
          rewrite (Nat.div_small (0 + step - 1)) by lia.
          symmetry. apply (Nat.div_unique _ _ _ (stop - start - 1)); lia. }
      simpl seq. rewrite fmap_cons, Nat.add_0_r. f_equal.
      rewrite <- fmap_S_seq, <- list_fmap_compose.
      apply list_fmap_ext. intros; simpl; lia.
    + replace (stop - start) with 0 by lia.
      by rewrite Nat.div_small by lia.
Qed.

Lemma py_range_total (stop step : nat) :
  0 < step ->
  py_range 0 stop step
  = Ok ((fun i => i * step) <$> seq 0 ((stop + step - 1) / step)).
Proof.
  intros Hstep. unfold py_range.
  destruct (Nat.eqb_spec step 0) as [|_]; [lia|].
  rewrite range_from_progression by lia. by rewrite Nat.sub_0_r.
Qed.

Lemma summarize_all_groups iid n_folds (pre : list (num * gmap string V * nat))
    (groups : list (list (num * gmap string V * nat))) carried :
  0 < n_folds ->
  Forall (fun g => length g = n_folds) groups ->
  summarize_all iid n_folds (pre ++ concat groups)
    ((fun i => length pre + i * n_folds) <$> seq 0 (length groups)) carried
  = result_mapM (group_summary iid n_folds) groups.
Proof.
  intros Hn. revert pre carried.
  induction groups as [|g groups IH]; intros pre carried Hg; [done|].
  inversion_clear Hg as [|?? Hlen Hrest].
  rewrite length_cons. simpl seq. rewrite fmap_cons. simpl summarize_all.
  assert (py_slice (pre ++ g ++ concat groups) (length pre + 0)
            (length pre + 0 + n_folds) = g) as ->.
  { unfold py_slice.
    replace (length pre + 0 + n_folds - (length pre + 0))
      with (length g) by lia.
    replace (length pre + 0) with (length pre) by lia.
    by rewrite drop_app_length, take_app_length. }
  rewrite summarize_group by (intros ->; simpl in Hlen; lia).
  simpl result_mapM.
  destruct (group_summary iid n_folds g) as [t|e]; [|done]. simpl.
  specialize (IH (pre ++ g) (Some (parameters t)) Hrest).
  rewrite <- (assoc_L (++)) in IH. simpl concat.
  rewrite <- fmap_S_seq, <- list_fmap_compose.
  erewrite list_fmap_ext; [rewrite IH; done|].
  intros i x _. simpl. rewrite length_app. lia.
Qed.

(** When the ordered result list is made of consecutive groups of
    fold-count results each, [_fit] computes for every group, in order,
    its summary: under [iid=True] the sum of score times test-sample
    count divided by the sum of the counts, under [iid=False] the sum of
    the scores divided by the fold count (a zero divisor raises
    [ZeroDivisionError] in both). *)
Lemma aggregate_groups iid n_folds
    (groups : list (list (num * gmap string V * nat))) :
  0 < n_folds ->
  Forall (fun g => length g = n_folds) groups ->
  aggregate iid n_folds (concat groups)
  = result_mapM (group_summary iid n_folds) groups
  /\ forall g, g ∈ groups ->
       mean_validation_score <$> group_summary iid n_folds g
       = if iid then weighted_mean ((fun r => (r.1.1, r.2)) <$> g)
         else unweighted_mean n_folds g.*1.*1.
Proof.
  intros Hn Hg. split.
  - unfold aggregate, py_range.
    destruct (Nat.eqb_spec n_folds 0) as [|_]; [lia|]. simpl.
    assert (length (concat groups) = 0 + length groups * n_folds) as Hlen.
    { clear -Hg. induction Hg as [|g groups Hl _ IH]; [done|].
      simpl. rewrite length_app, IH. lia. }
    rewrite Hlen at 2. rewrite range_from_stride; [|done|rewrite Hlen; nia].
    by apply (summarize_all_groups iid n_folds []).
  - intros g Hin. eapply Forall_forall in Hg; [|exact Hin].
    unfold group_summary.
    destruct (if iid then _ else _) as [m|e]; [|done]. simpl.
    destruct (last g) eqn:Hlast; [done|].
    apply last_None in Hlast. subst g. simpl in Hg. lia.
Qed.
End aggregation_facts.

(** ** The monad of exceptions *)

Lemma result_mapM_app {A B} (f : A -> result B) (l1 l2 : list A) :
  result_mapM f (l1 ++ l2)
  = (ys1 ← result_mapM f l1; ys2 ← result_mapM f l2; Ok (ys1 ++ ys2)).
Proof.
  induction l1 as [|x l1 IH]; simpl.
  - by destruct (result_mapM f l2).
  - destruct (f x); [|done]. rewrite IH.
    destruct (result_mapM f l1); [|done]. simpl.
    by destruct (result_mapM f l2).
Qed.

Lemma result_mapM_Ok {A B} (f : A -> result B) (l : list A) (ys : list B) :
  result_mapM f l = Ok ys <-> Forall2 (fun x y => f x = Ok y) l ys.
Proof.
  revert ys. induction l as [|x l IH]; intros ys; simpl.
  - split; [intros [= <-]; constructor|by inversion 1].
  - destruct (f x) as [y|e] eqn:Hx.
    + destruct (result_mapM f l) as [ys'|e'].
      * split.
        -- intros [= <-]. constructor; [done|by apply IH].
        -- inversion 1 as [|???? Hy Hrest]; subst.
           assert (y = y0) as <- by congruence.
           apply IH in Hrest. by injection Hrest as <-.
      * split; [done|]. inversion 1 as [|???? Hy Hrest]; subst.
        by apply IH in Hrest.
    + split; [done|]. inversion 1; subst. congruence.
Qed.

(** The exception of [result_mapM] is that of the first element that
    raises. *)
Lemma result_mapM_Raise {A B} (f : A -> result B) (l : list A) (e : exn) :
  result_mapM f l = Raise e <->
  exists l1 x l2, l = l1 ++ x :: l2
    /\ Forall (fun y => is_ok (f y) = true) l1 /\ f x = Raise e.
Proof.
  induction l as [|x l IH].
  - split; [done|]. intros (l1 & ? & ? & Hl & _). by destruct l1.
  - split.
    + simpl. destruct (f x) as [y|e'] eqn:Hx.
      * destruct (result_mapM f l) as [ys|e''] eqn:Hl; [done|].
        intros [= ->]. destruct (proj1 IH eq_refl) as (l1 & x' & l2 & -> & Hok & Hx').
        exists (x :: l1), x', l2. split_and!; [done| |done].
        constructor; [by rewrite Hx|done].
      * intros [= ->]. exists [], x, l. split_and!; [done|constructor|done].
    + intros ([|x1 l1] & x' & l2 & Heq & Hok & Hx'); simplify_eq/=.
      * by rewrite Hx'.
      * inversion_clear Hok as [|?? Hx1 Hl1].
        destruct (f x1); [|done].
        assert (result_mapM f (l1 ++ x' :: l2) = Raise e) as ->; [|done].
        apply IH. eauto 10.
Qed.

Lemma result_mapM_exists_Raise {A B} (f : A -> result B) (l : list A) x e :
  x ∈ l -> f x = Raise e -> exists e', result_mapM f l = Raise e'.
Proof.
  intros Hin Hx. destruct (result_mapM f l) as [ys|e'] eqn:Hl; [|eauto].
  apply result_mapM_Ok in Hl.
  apply list_elem_of_lookup in Hin as [i Hi].
  destruct (Forall2_lookup_l _ _ _ _ _ Hl Hi) as (y & _ & Hy). congruence.
Qed.

(** ** The execution pool *)

Section pool_facts.
Context {T R : Type} (run : T -> result R).
Implicit Types (tasks : list T) (p : pool T R) (s : pool_state T R).

Lemma elem_of_zip_seq (l : list T) (k i : nat) (t : T) :
  (i, t) ∈ zip (seq k (length l)) l <-> k <= i /\ l !! (i - k) = Some t.
Proof.
  revert k. induction l as [|x l IH]; intros k; simpl.
  - split; [by intros ?%elem_of_nil|by intros [_ ?]].
  - rewrite elem_of_cons, IH. split.
    + intros [[= -> ->]|[Hk Hl]].
      * split; [lia|]. by rewrite Nat.sub_diag.
      * split; [lia|]. by replace (i - k) with (S (i - S k)) by lia.
    + intros [Hk Hl]. destruct (decide (i = k)) as [->|Hne].
      * left. rewrite Nat.sub_diag in Hl. by simplify_eq/=.
      * right. split; [lia|].
        by replace (i - k) with (S (i - S k)) in Hl by lia.
Qed.

Lemma pool_inv_start tasks : pool_inv run tasks (pool_start tasks).
Proof.
  unfold pool_inv, pool_start. simpl. rewrite (right_id_L [] (++)). split_and!.
  - intros i t [_ Hl]%elem_of_zip_seq. by rewrite Nat.sub_0_r in Hl.
  - intros i r. by rewrite lookup_empty.
  - intros i t Hl. left. apply elem_of_zip_seq. split; [lia|].
    by rewrite Nat.sub_0_r.
Qed.

Ltac solve_mem :=
  repeat first [rewrite elem_of_app in * | rewrite elem_of_cons in *
               | rewrite elem_of_nil in *];
  intuition congruence.

Lemma pool_inv_step n_jobs window tasks s s' :
  pool_inv run tasks s -> pool_step run n_jobs window s s' -> pool_inv run tasks s'.
Proof.
  intros Hinv Hstep. destruct Hstep as [u q fl fin Hw|q l1 i t l2 fin r Hj Hr|q l1 i t l2 fin e Hj He];
    simpl in *.
  - destruct Hinv as (H1 & H2 & H3). split_and!; [|done|].
    + intros i t Hin. apply H1. solve_mem.
    + intros i t Hl. destruct (H3 i t Hl) as [Hin|?]; [left; solve_mem|by right].
  - destruct Hinv as (H1 & H2 & H3).
    assert (tasks !! i = Some t) as Hit by (apply H1; solve_mem).
    split_and!.
    + intros j t' Hin. apply H1. solve_mem.
    + intros j r'. destruct (decide (i = j)) as [<-|Hne].
      * rewrite lookup_insert_eq. intros [= <-]. eauto.
      * rewrite lookup_insert_ne by done. apply H2.
    + intros j t' Hl. destruct (decide (i = j)) as [<-|Hne].
      * right. rewrite lookup_insert_eq. eauto.
      * rewrite lookup_insert_ne by done.
        destruct (H3 j t' Hl) as [Hin|?]; [left|by right].
        solve_mem.
  - destruct Hinv as (H1 & _ & _). exists t. split; [|done].
    eapply list_elem_of_lookup_2. apply H1. solve_mem.
Qed.

Lemma pool_inv_reachable n_jobs window tasks s :
  rtc (pool_step run n_jobs window) (pool_start tasks) s -> pool_inv run tasks s.
Proof.
  intros Hrtc. apply rtc_ind_r with (P := pool_inv run tasks) in Hrtc; [done| |].
  - apply pool_inv_start.
  - intros s1 s2 _ Hstep Hinv. by eapply pool_inv_step.
Qed.
Lemma collect_sequential (fin : gmap nat R) (l : list T) (k : nat) :
  (forall i t, l !! i = Some t -> exists r, fin !! (k + i) = Some r /\ run t = Ok r) ->
  exists out, mapM (fun i => fin !! i) (seq k (length l)) = Some out
              /\ result_mapM run l = Ok out.
Proof.
  revert k. induction l as [|t l IH]; intros k Hl; simpl.
  - by exists [].
  - destruct (Hl 0 t eq_refl) as (r & Hr & Ht).
    rewrite Nat.add_0_r in Hr.
    destruct (IH (S k)) as (out & Hout & Hseq).
    { intros i t' Hi. destruct (Hl (S i) t' Hi) as (r' & Hr' & Ht').
      exists r'. split; [|done]. by rewrite <- Hr', Nat.add_succ_comm. }
    exists (r :: out). rewrite Hr, Ht, Hseq. simpl. by rewrite Hout.
Qed.

(** When every unit is done, the list handed back holds the results of
    the units in submission order. *)
Lemma pool_final_collect tasks fin :
  pool_inv run tasks (Working (mkPool [] [] fin)) ->
  exists out, collect (length tasks) fin = Some out /\ result_mapM run tasks = Ok out.
Proof.
  intros (_ & H2 & H3). simpl in *. apply collect_sequential.
  intros i t Hi. simpl. destruct (H3 i t Hi) as [Hin|[r Hr]].
  { by apply elem_of_nil in Hin. }
  exists r. split; [done|]. destruct (H2 i r Hr) as (t' & Ht' & Hrun). congruence.
Qed.



(** Every list a run hands back is the list of a sequential run. *)
Lemma pool_returns_Ok n_jobs window tasks out :
  pool_returns run n_jobs window tasks (Ok out) -> result_mapM run tasks = Ok out.
Proof.
  intros (fin & Hrun & Hout).
  apply pool_inv_reachable, pool_final_collect in Hrun as (out' & Hout' & Hseq).
  congruence.
Qed.

(** A run fails only with the exception of one of its units. *)
Lemma pool_returns_Raise n_jobs window tasks e :
  pool_returns run n_jobs window tasks (Raise e) ->
  exists t, t ∈ tasks /\ run t = Raise e.
Proof. intros Hrun. by apply pool_inv_reachable in Hrun. Qed.


(** A failed run is over: nothing is dispatched or run again. *)
Lemma pool_Failed_terminal n_jobs window e s :
  ~ pool_step run n_jobs window (Failed e) s.
Proof. inversion 1. Qed.
End pool_facts.

(** ** Work units and the order of their results *)

Lemma result_mapM_fmap {A B C} (f : B -> result C) (g : A -> B) (l : list A) :
  result_mapM f (g <$> l) = result_mapM (fun x => f (g x)) l.
Proof.
  induction l as [|x l IH]; [done|]. rewrite fmap_cons. simpl. by rewrite IH.
Qed.

Lemma result_mapM_length {A B} (f : A -> result B) (l : list A) (ys : list B) :
  result_mapM f l = Ok ys -> length ys = length l.
Proof. intros Hl%result_mapM_Ok. symmetry. by eapply Forall2_length. Qed.


Section dispatch_order.
Context {V R : Type} (run : gmap string V * fold -> result R).
Implicit Types (configs : list (gmap string V)) (folds : list fold).

Lemma work_units_cons c configs folds :
  work_units (c :: configs) folds = (pair c <$> folds) ++ work_units configs folds.
Proof.
  unfold work_units. rewrite bind_cons, bind_ret_fmap. done.
Qed.

Lemma length_work_units configs folds :
  length (work_units configs folds) = length configs * length folds.
Proof.
  induction configs as [|c configs IH]; [done|].
  rewrite work_units_cons, length_app, length_fmap, IH. simpl. lia.
Qed.

(** The results of the units in generation order are the per-fold
    results of the first configuration, then those of the second, and so
    on. *)
Lemma results_by_configuration configs folds :
  result_mapM run (work_units configs folds)
  = (fun groups => concat groups)
      <$> result_mapM (fun c => result_mapM (fun f => run (c, f)) folds) configs.
Proof.
  induction configs as [|c configs IH]; [done|].
  rewrite work_units_cons, result_mapM_app, result_mapM_fmap, IH. simpl.
  destruct (result_mapM (fun f => run (c, f)) folds); [|done]. simpl.
  by destruct (result_mapM _ configs).
Qed.

End dispatch_order.

(** ** The search *)

Section search_facts.
Context {V num E X Y Fn FP CVA : Type} `{Number num}
        `{Collaborators V num E X Y Fn FP CVA}.
Implicit Types (w : world V num E Fn FP CVA) (l : fit_locals E X Y Fn).
Implicit Types (self : BaseSearchCV V num E Fn FP CVA).
Implicit Types (pit : list (gmap string V) * option exn).

(** Destructs the steps of a computation in [M] found in a hypothesis. *)
Ltac step_M H :=
  repeat match type of H with
         | context [decide ?P] => destruct (decide P); simplify_eq/=
         | context [match ?x with _ => _ end] => destruct x eqn:?; simplify_eq/=
         | context [if ?b then _ else _] => destruct b eqn:?; simplify_eq/=
         end.

(** The legacy functions come first: [loss_func], then [score_func], and
    only then [scoring]. *)
Lemma resolve_scorer_loss_func self f w :
  loss_func self = Some f ->
  resolve_scorer self w
  = (mkWorld (self_obj w) (warned w ++ [mkWarning UserWarning loss_func_message]),
     Ok (Some (Scorer f false))).
Proof. intros Hf. unfold resolve_scorer. by rewrite Hf. Qed.

Lemma resolve_scorer_score_func self f w :
  loss_func self = None -> score_func self = Some f ->
  resolve_scorer self w
  = (mkWorld (self_obj w) (warned w ++ [mkWarning UserWarning score_func_message]),
     Ok (Some (Scorer f true))).
Proof. intros Hl Hf. unfold resolve_scorer. by rewrite Hl, Hf. Qed.

Lemma resolve_scorer_scoring self w :
  loss_func self = None -> score_func self = None ->
  resolve_scorer self w
  = (w, match scoring self with
        | NoScoring => Ok None
        | ScoringObject s => Ok (Some s)
        | ScoringName name =>
            match SCORERS !! name with
            | Some s => Ok (Some s)
            | None => Raise (KeyError name)
            end
        end).
Proof.
  intros Hl Hf. unfold resolve_scorer. rewrite Hl, Hf.
  destruct (scoring self) as [|name|s]; try done.
  by destruct (SCORERS !! name).
Qed.

(** Resolution touches no attribute of the object. *)
Lemma resolve_scorer_self self w w' r :
  resolve_scorer self w = (w', r) -> self_obj w' = self_obj w.
Proof.
  unfold resolve_scorer, bindM, warn, retM, liftM. intros Hr.
  step_M Hr; done.
Qed.

(** What a successful first part of [_fit] leaves behind: the scorer is
    resolved and stored in [scorer_], nothing else of the object has
    changed. *)
Lemma fit_setup_ok Xv y extra w w1 l :
  fit_setup Xv y extra w = (w1, Ok l) ->
  exists w0 w0',
    resolve_scorer (self_obj w) w0 = (w0', Ok (local_scorer l))
    /\ self_obj w0 = self_obj w
    /\ self_obj w1 = with_attrs (set_scorer_ (local_scorer l)) (self_obj w)
    /\ local_cv l = check_cv (cv (self_obj w)) (local_X l) (local_y l)
                      (is_classifier (estimator (self_obj w)))
    /\ local_base_estimator l = clone (estimator (self_obj w)).
Proof.
  unfold fit_setup, bindM, get_self, set_attr, liftM, retM, warn.
  intros Hs. destruct (decide (extra = ∅)); step_M Hs.
  all: match goal with
       | Hr : resolve_scorer _ ?w0 = (?w0', _) |- _ =>
           exists w0, w0'; pose proof (resolve_scorer_self _ _ _ _ Hr) as Hself;
           simpl in Hself; rewrite ?Hself
       end; done.
Qed.
(** A successful second part of [_fit]: every unit returned a score, the
    summaries were computed from the ordered results, and the best one
    went into [best_params_] and [best_score_]. *)
Lemma fit_search_ok l pit w w' :
  fit_search l pit w = (w', Ok tt) ->
  exists out cv_scores best,
    pit.2 = None
    /\ result_mapM (run_unit (self_obj w) l) (work_units pit.1 (local_cv l)) = Ok out
    /\ aggregate (iid (self_obj w)) (length (local_cv l)) out = Ok cv_scores
    /\ select_best (scorer_greater_is_better (local_scorer l)) cv_scores = Ok best
    /\ cv_scores_ (attrs (self_obj w')) = Some cv_scores
    /\ best_params_ (attrs (self_obj w')) = Some (parameters best)
    /\ best_score_ (attrs (self_obj w')) = Some (mean_validation_score best)
    /\ scorer_ (attrs (self_obj w')) = scorer_ (attrs (self_obj w))
    /\ warned w' = warned w.
Proof.
  unfold fit_search, bindM, get_self, set_attr, liftM, retM, Parallel.
  intros Hs. step_M Hs.
  all: match goal with
       | Ha : result_mapM _ _ = Ok ?out, Hb : aggregate _ _ _ = Ok ?cvs,
         Hc : select_best _ _ = Ok ?b |- _ => exists out, cvs, b
       end.
  all: destruct pit.2; [done|]; by split_and!.
Qed.

(** When a unit raises, the second part of [_fit] raises the exception of
    the first such unit and leaves the object as it was. *)
Lemma fit_search_unit_raises l pit w e :
  result_mapM (run_unit (self_obj w) l) (work_units pit.1 (local_cv l)) = Raise e ->
  fit_search l pit w = (w, Raise e).
Proof.
  intros Hr. unfold fit_search, bindM, get_self, liftM, Parallel. simpl.
  by rewrite Hr.
Qed.

Lemma _fit_unfold Xv y pit extra w :
  _fit Xv y pit extra w
  = match fit_setup Xv y extra w with
    | (w1, Ok l) => fit_search l pit w1
    | (w1, Raise e) => (w1, Raise e)
    end.
Proof. done. Qed.


(** C5 (as amended). The scorer is resolved once, in the first part of
    [_fit] and so before any evaluation, by the precedence
    [loss_func] > [score_func] > [scoring]: a loss function is wrapped
    into a scorer that is minimised and a score function into one that is
    maximised, each with one warning about the deprecation and whatever
    [scoring] holds; [scoring] decides only when both are absent.  The
    resolved scorer is stored in [scorer_] and is the one every unit is
    evaluated with. *)
Theorem scorer_resolution self w :
  (forall f, loss_func self = Some f ->
     resolve_scorer self w
     = (mkWorld (self_obj w) (warned w ++ [mkWarning UserWarning loss_func_message]),
        Ok (Some (Scorer f false))))
  /\ (forall f, loss_func self = None -> score_func self = Some f ->
        resolve_scorer self w
        = (mkWorld (self_obj w) (warned w ++ [mkWarning UserWarning score_func_message]),
           Ok (Some (Scorer f true))))
  /\ (forall s, loss_func self = None -> score_func self = None ->
        scoring self = ScoringObject s ->
        resolve_scorer self w = (w, Ok (Some s)))
  /\ (forall Xv y extra w1 l,
        fit_setup Xv y extra w = (w1, Ok l) ->
        scorer_ (attrs (self_obj w1)) = Some (local_scorer l)
        /\ exists w0 w0', resolve_scorer (self_obj w) w0 = (w0', Ok (local_scorer l)))
  /\ (forall l (pit : list (gmap string V) * option exn) out,
        Parallel (n_jobs self) (verbose self) (pre_dispatch self)
          (run_unit self l) (work_units pit.1 (local_cv l)) = Ok out ->
        Forall2 (fun u r =>
                   fit_grid_point (local_X l) (local_y l) (local_base_estimator l)
                     u.1 u.2.1 u.2.2 (local_scorer l) (verbose self) (fit_params self)
                   = Ok r)
          (work_units pit.1 (local_cv l)) out).
Proof.
  split_and!.
  - intros f. apply resolve_scorer_loss_func.
  - intros f. apply resolve_scorer_score_func.
  - intros s Hl Hf Hs. by rewrite resolve_scorer_scoring, Hs.
  - intros Xv y extra w1 l (w0 & w0' & Hr & _ & Hw1 & _)%fit_setup_ok.
    rewrite Hw1. split; [done|]. eauto.
  - intros l pit out Hout. by apply result_mapM_Ok in Hout.
Qed.

(** C9. Once the evaluation has started, a unit whose fit or scoring
    raises makes [_fit] raise: the exception is that of the first such
    unit in generation order, no attribute that holds results is set or
    changed, and a run of the pool can only end with the exception of a
    unit, never with a list of results.  A search that completes has one
    result for every configuration and fold. *)
Theorem unit_failure_is_fatal Xv y pit extra w w1 l u e :
  fit_setup Xv y extra w = (w1, Ok l) ->
  u ∈ work_units pit.1 (local_cv l) ->
  run_unit (self_obj w1) l u = Raise e ->
  let units := work_units pit.1 (local_cv l) in
  (exists e' before u' after,
     _fit Xv y pit extra w = (w1, Raise e')
     /\ units = before ++ u' :: after
     /\ Forall (fun v => is_ok (run_unit (self_obj w1) l v) = true) before
     /\ run_unit (self_obj w1) l u' = Raise e')
  /\ cv_scores_ (attrs (self_obj w1)) = cv_scores_ (attrs (self_obj w))
  /\ best_params_ (attrs (self_obj w1)) = best_params_ (attrs (self_obj w))
  /\ best_score_ (attrs (self_obj w1)) = best_score_ (attrs (self_obj w))
  /\ best_estimator_ (attrs (self_obj w1)) = best_estimator_ (attrs (self_obj w))
  /\ (forall n_jobs window out,
        ~ pool_returns (run_unit (self_obj w1) l) n_jobs window units (Ok out))
  /\ (forall n_jobs window e'',
        pool_returns (run_unit (self_obj w1) l) n_jobs window units (Raise e'') ->
        exists u'', u'' ∈ units /\ run_unit (self_obj w1) l u'' = Raise e'')
  /\ (forall n_jobs window e'' s,
        ~ pool_step (run_unit (self_obj w1) l) n_jobs window (Failed e'') s).
Proof.
  intros Hsetup Hu He units.
  destruct (result_mapM_exists_Raise _ _ _ _ Hu He) as [e' He'].
  pose proof (fit_setup_ok _ _ _ _ _ _ Hsetup) as (_ & _ & _ & _ & Hw1 & _).
  split_and!.
  - pose proof He' as (before & u' & after & Hsplit & Hok & Hu')%result_mapM_Raise.
    exists e', before, u', after. split_and!; try done.
    rewrite _fit_unfold, Hsetup. by apply fit_search_unit_raises.
  - by rewrite Hw1.
  - by rewrite Hw1.
  - by rewrite Hw1.
  - by rewrite Hw1.
  - intros n_jobs window out Hout%pool_returns_Ok. unfold units in Hout. congruence.
  - intros n_jobs window e''. apply pool_returns_Raise.
  - intros n_jobs window e'' s. apply pool_Failed_terminal.
Qed.

(** A search that completes has evaluated every unit: one result for
    every configuration and fold, in generation order. *)
Lemma completed_search_has_all_results Xv y pit extra w w' :
  _fit Xv y pit extra w = (w', Ok tt) ->
  exists w1 l out,
    fit_setup Xv y extra w = (w1, Ok l)
    /\ Forall2 (fun u r => run_unit (self_obj w1) l u = Ok r)
         (work_units pit.1 (local_cv l)) out
    /\ length out = length pit.1 * length (local_cv l).
Proof.
  rewrite _fit_unfold. destruct (fit_setup Xv y extra w) as [w1 [l|e]] eqn:Hsetup; [|done].
  intros (out & cv_scores & best & _ & Hout & _)%fit_search_ok.
  exists w1, l, out. split_and!; [done|by apply result_mapM_Ok|].
  apply result_mapM_length in Hout. by rewrite Hout, length_work_units.
Qed.

(** C10. With a refit best estimator that has a [score] method,
    [score] is that method's result, whatever scorer is configured; the
    scorer is called only when the method is missing, and when the scorer
    is [None] as well [score] raises a [ValueError]. *)
Theorem score_delegation self best Xv y :
  best_estimator_ (attrs self) = Some best ->
  (has_score best = true ->
     BaseSearchCV_score self Xv y = est_score best Xv y)
  /\ (forall scorer, has_score best = false ->
        scorer_ (attrs self) = Some (Some scorer) ->
        BaseSearchCV_score self Xv y = call_scorer scorer best Xv y)
  /\ (has_score best = false -> scorer_ (attrs self) = Some None ->
        exists msg, BaseSearchCV_score self Xv y = Raise (ValueError msg)).
Proof.
  intros Hbest. unfold BaseSearchCV_score. rewrite Hbest. split_and!.
  - by intros ->.
  - by intros scorer -> ->.
  - intros -> ->. eauto.
Qed.
End search_facts.

(** ** Evaluation of one unit *)

Section evaluation_facts.
Context {V num E X Y Fn FP CVA : Type} `{Collaborators V num E X Y Fn FP CVA}.

(** Both branches of [if y is not None] fit on the training part and
    score on the test part, with the scorer when there is one and with
    the estimator's own [score] otherwise. *)
Lemma fit_and_score_scorer_or_own (clf : E) (X_train X_test : X) (y : option Y)
    (train test : list nat) (scorer : option (scorer_obj Fn)) (fp : FP) :
  fit_and_score clf X_train X_test y train test scorer fp
  = (clf' ← est_fit clf X_train ((fun yv => mask_targets yv train) <$> y) fp;
     match scorer with
     | Some s => call_scorer s clf' X_test ((fun yv => mask_targets yv test) <$> y)
     | None => est_score clf' X_test ((fun yv => mask_targets yv test) <$> y)
     end).
Proof. by destruct y. Qed.

End evaluation_facts.

(** ** Validation of the grid *)

Section validation_facts.
Context {V : Type}.
Implicit Types (v : param_value V) (d : grid_descriptor (param_value V)).

Lemma check_value_valid v : check_value v = Ok tt <-> valid_value v.
Proof.
  destruct v as [[|x l]|[|x l]|[|[|n]] [|x l]|o]; unfold check_value; simpl;
    split; try done; by intros [? ?].
Qed.

(** What each rejected value is rejected with. *)
Lemma check_value_rejected v :
  ~ valid_value v ->
  match v with
  | OtherObject _ =>
      check_value v = Raise (ValueError "Parameter values should be a list.")
  | NdArray 0 _ => check_value v = Raise (TypeError "len() of unsized object")
  | NdArray (S (S _)) _ =>
      check_value v = Raise (ValueError "Parameter array should be one-dimensional.")
  | _ => check_value v = Raise (ValueError "Parameter values should be a non-empty list.")
  end.
Proof.
  destruct v as [l|l|[|[|n]] l|[l|]]; unfold check_value; simpl; try done.
  all: destruct l; simpl; try done; intros Hv; exfalso; apply Hv; done.
Qed.

Lemma result_mapM_unit_Ok {A} (f : A -> result unit) (l : list A) :
  is_ok (result_mapM f l) = true <-> Forall (fun x => f x = Ok tt) l.
Proof.
  induction l as [|x l IH]; simpl.
  - split; [constructor|done].
  - destruct (f x) as [[]|e] eqn:Hx.
    + destruct (result_mapM f l); simpl in *.
      * split; [constructor; [done|by apply IH]|done].
      * split; [done|]. inversion_clear 1. by apply IH.
    + split; [done|]. inversion_clear 1. congruence.
Qed.

Lemma _check_param_grid_valid d :
  _check_param_grid d = Ok tt <-> Forall valid_value (descriptor_values d).
Proof.
  assert (forall gs : list (gmap string (param_value V)),
    is_ok (result_mapM (fun p : gmap string (param_value V) =>
                          result_mapM check_value (map_to_list p).*2) gs) = true
    <-> Forall valid_value (gs ≫= (fun g => (map_to_list g).*2))) as Hgs.
  { induction gs as [|g gs IH].
    - split; [constructor|done].
    - rewrite bind_cons, Forall_app, <- IH. simpl result_mapM.
      pose proof (result_mapM_unit_Ok check_value (map_to_list g).*2) as Hg.
      destruct (result_mapM check_value (map_to_list g).*2) as [us|e]; simpl in *.
      + destruct (result_mapM _ gs); simpl.
        * split; [|done]. intros _. split; [|done].
          eapply Forall_impl; [by apply Hg|]. intros v. apply check_value_valid.
        * split; [done|]. by intros [_ ?].
      + split; [done|]. intros [Hv _]. apply Hg.
        eapply Forall_impl; [exact Hv|]. intros v. apply check_value_valid. }
  unfold _check_param_grid.
  destruct d as [g|gs]; simpl descriptor_values.
  - specialize (Hgs [g]). rewrite bind_singleton in Hgs. rewrite <- Hgs.
    destruct (result_mapM _ [g]); simpl; split; done.
  - rewrite <- Hgs. destruct (result_mapM _ gs); simpl; split; done.
Qed.

Lemma _check_param_grid_invalid d :
  ~ Forall valid_value (descriptor_values d) ->
  exists e, _check_param_grid d = Raise e.
Proof.
  intros Hd. destruct (_check_param_grid d) as [[]|e] eqn:Hc; [|eauto].
  by apply _check_param_grid_valid in Hc.
Qed.
End validation_facts.

Section construction_facts.
Context {V num E X Y Fn FP CVA : Type} `{Number num}
        `{Collaborators V num E X Y Fn FP CVA}.

(** C8. [_check_param_grid] accepts a descriptor exactly when every
    value of every group is a non-empty list, tuple or one-dimensional
    array.  A value of another type, an array of more than one dimension
    and an empty sequence are each rejected with a [ValueError], and a
    descriptor that holds such a value makes [GridSearchCV.__init__]
    raise, so that no search object exists to evaluate anything. *)
Theorem grid_validation (d : grid_descriptor (param_value V)) :
  (_check_param_grid d = Ok tt <-> Forall valid_value (descriptor_values d))
  /\ (forall o : option (list V),
        check_value (OtherObject o)
        = Raise (ValueError "Parameter values should be a list."))
  /\ (forall (n : nat) (l : list V),
        check_value (NdArray (S (S n)) l)
        = Raise (ValueError "Parameter array should be one-dimensional."))
  /\ check_value (PyList ([] : list V))
     = Raise (ValueError "Parameter values should be a non-empty list.")
  /\ check_value (PyTuple ([] : list V))
     = Raise (ValueError "Parameter values should be a non-empty list.")
  /\ check_value (NdArray 1 ([] : list V))
     = Raise (ValueError "Parameter values should be a non-empty list.")
  /\ (~ Forall valid_value (descriptor_values d) ->
      (exists e, _check_param_grid d = Raise e)
      /\ forall (est : E) scoring loss score fp jobs iid refit (cv : CVA) verb pd,
           exists e,
             GridSearchCV_init est d scoring loss score fp jobs iid refit cv verb pd
             = Raise e)
  /\ (Forall valid_value (descriptor_values d) ->
      forall (est : E) scoring loss score fp jobs iid refit (cv : CVA) verb pd base,
        BaseSearchCV_init est scoring loss score fp jobs iid refit cv verb pd = Ok base ->
        GridSearchCV_init est d scoring loss score fp jobs iid refit cv verb pd
        = Ok (mkGridSearchCV base d)).
Proof.
  split_and!; try done.
  - apply _check_param_grid_valid.
  - intros Hd. pose proof (_check_param_grid_invalid d Hd) as [e He].
    split; [eauto|]. intros. unfold GridSearchCV_init.
    destruct (BaseSearchCV_init _ _ _ _ _ _ _ _ _ _ _) as [base|e']; simpl; [|eauto].
    rewrite He. eauto.
  - intros Hd est scoring loss score fp jobs iid refit cv verb pd base Hbase.
    apply _check_param_grid_valid in Hd. unfold GridSearchCV_init.
    by rewrite Hbase, Hd.
Qed.
End construction_facts.

(** ** ParameterSampler *)


Section sampler_facts.
Context {V G : Type} `{RandomState G}.
Implicit Types (axes items : list (string * distribution V G)).
Implicit Types (w : rng_world G) (rnd : rnd_handle G) (self : ParameterSampler V G).

Lemma one_draw_names axes rnd w c rnd' w' :
  one_draw axes rnd w = Ok (c, rnd', w') -> c.*1 = axes.*1.
Proof.
  revert rnd w c rnd' w'. induction axes as [|[k [values|rvs]] axes IH];
    intros rnd w c rnd' w'; simpl.
  - by intros [= <- _ _].
  - destruct (rnd_randint rnd (length values) w) as [[[i rnd1] w1]|]; [|done]. simpl.
    destruct (py_getitem values i); [|done]. simpl.
    destruct (one_draw axes rnd1 w1) as [[[c1 rnd2] w2]|] eqn:Hd; [|done]. simpl.
    intros [= <- _ _]. rewrite !fmap_cons. simpl. f_equal. by eapply IH.
  - destruct (one_draw axes rnd _) as [[[c1 rnd2] w2]|] eqn:Hd; [|done]. simpl.
    intros [= <- _ _]. rewrite !fmap_cons. simpl. f_equal. by eapply IH.
Qed.

(** The loop over the items fills [params] with the pairs of one draw. *)
Lemma draw_params_one_draw items params rnd w :
  draw_params items params rnd w
  = match one_draw items rnd w with
    | Raise e => Raise e
    | Ok (c, rnd', w') => Ok (foldl (fun m kv => <[kv.1 := kv.2]> m) params c, rnd', w')
    end.
Proof.
  revert params rnd w. induction items as [|[k [values|rvs]] items IH];
    intros params rnd w; simpl; [done| |].
  - destruct (rnd_randint rnd (length values) w) as [[[i rnd1] w1]|]; [|done]. simpl.
    destruct (py_getitem values i); [|done]. simpl. rewrite IH.
    by destruct (one_draw items rnd1 w1) as [[[c1 rnd2] w2]|].
  - rewrite IH. by destruct (one_draw items rnd _) as [[[c1 rnd2] w2]|].
Qed.

Lemma sample_loop_draws count items rnd w :
  NoDup items.*1 -> sample_loop count items rnd w = draws count items rnd w.
Proof.
  intros Hnd. revert rnd w. induction count as [|count IH]; intros rnd w; [done|].
  simpl. rewrite draw_params_one_draw.
  destruct (one_draw items rnd w) as [[[c rnd'] w']|] eqn:Hd; [|done].
  rewrite IH. destruct (draws count items rnd' w') as [[more err] w''].
  repeat f_equal. apply (dict_list_to_map c).
  by rewrite (one_draw_names _ _ _ _ _ _ Hd).
Qed.

(** The pass draws the parameters of each configuration in increasing
    order of name. *)
Lemma ParameterSampler_iter_sorted self w :
  ParameterSampler_iter self w = sampled_configurations self w.
Proof.
  unfold ParameterSampler_iter, sampled_configurations.
  rewrite items_sorted_by_name. apply sample_loop_draws.
  rewrite merge_sort_Permutation. apply NoDup_fst_map_to_list.
Qed.



Lemma draws_names count axes rnd w c :
  c ∈ (draws count axes rnd w).1.1 -> dom c = list_to_set axes.*1.
Proof.
  revert rnd w. induction count as [|count IH]; intros rnd w; simpl.
  - by intros ?%elem_of_nil.
  - destruct (one_draw axes rnd w) as [[[c1 rnd'] w']|] eqn:Hd; simpl.
    + specialize (IH rnd' w').
      destruct (draws count axes rnd' w') as [[more err] w'']. simpl in *.
      intros [->|Hc]%elem_of_cons; [|by apply IH].
      by rewrite dom_list_to_map_L, (one_draw_names _ _ _ _ _ _ Hd).
    + by intros ?%elem_of_nil.
Qed.




End sampler_facts.

(** ** The properties on concrete inputs *)

#[global] Instance Q_NumberOrder : NumberOrder Q.
Proof.
  split; simpl.
  - intros x y Hxy. apply negb_true_iff in Hxy. apply negb_false_iff.
    apply Qle_bool_iff. apply Qlt_le_weak, Qnot_le_lt.
    intros Hle%Qle_bool_iff. congruence.
  - intros x y z Hyx%negb_false_iff%Qle_bool_iff Hzy%negb_false_iff%Qle_bool_iff.
    apply negb_false_iff, Qle_bool_iff. by eapply Qle_trans.
Qed.

(** The docstring examples of [ParameterGrid]. *)
Example ParameterGrid_doctest :
  ParameterGrid_iter (ParameterGrid_init doc_grid)
  = [ {[ "a" := AInt 1; "b" := ABool true ]}; {[ "a" := AInt 1; "b" := ABool false ]};
      {[ "a" := AInt 2; "b" := ABool true ]}; {[ "a" := AInt 2; "b" := ABool false ]} ]
  /\ ParameterGrid_len (ParameterGrid_init doc_grid) = Ok 4.
Proof. split; vm_compute; reflexivity. Qed.

Example ParameterGrid_doctest_grids :
  ParameterGrid_iter (ParameterGrid_init doc_grid_of_grids)
  = [ {[ "kernel" := AStr "linear" ]};
      {[ "kernel" := AStr "rbf"; "gamma" := AInt 1 ]};
      {[ "kernel" := AStr "rbf"; "gamma" := AInt 10 ]} ]
  /\ ParameterGrid_len (ParameterGrid_init doc_grid_of_grids) = Ok 3.
Proof. split; vm_compute; reflexivity. Qed.

(** The aggregation examples: in exact arithmetic the unweighted mean of
    0.8, 0.9 and 0.7 is 0.8, and the mean weighted by 10, 10 and 20 is
    31/40 = 0.775. *)
Example unweighted_example_exact :
  fmap (M := list) mean_validation_score
    <$> aggregate false 3 (example_group Q_lit 10 10 10)
  = Ok [Q_lit 8 10].
Proof. vm_compute. reflexivity. Qed.

Example weighted_example_exact :
  fmap (M := list) mean_validation_score
    <$> aggregate true 3 (example_group Q_lit 10 10 20)
  = Ok [Q_lit 31 40].
Proof. vm_compute. reflexivity. Qed.

(** In binary64 the sum 0.8 + 0.9 + 0.7 is rounded twice: the unweighted
    mean is the float after 0.8; the weighted mean is the float nearest
    to 0.775. *)
Example unweighted_example_binary64 :
  fmap (M := list) mean_validation_score
    <$> aggregate false 3 (example_group f64_lit 10 10 10)
  = Ok [SFsucc 53 1024 (f64_lit 8 10)].
Proof. vm_compute. reflexivity. Qed.

Example weighted_example_binary64 :
  fmap (M := list) mean_validation_score
    <$> aggregate true 3 (example_group f64_lit 10 10 20)
  = Ok [f64_lit 31 40].
Proof. vm_compute. reflexivity. Qed.

(** C2, the weighted example does not give 0.75: the mean of 0.8, 0.9
    and 0.7 weighted by 10, 10 and 20 is 0.775, in exact arithmetic and
    in binary64. *)
Lemma weighted_example_is_not_three_quarters :
  weighted_mean [(Q_lit 8 10, 10); (Q_lit 9 10, 10); (Q_lit 7 10, 20)]
  = Ok (Q_lit 31 40)
  /\ ~ (Q_lit 31 40 == Q_lit 3 4)%Q
  /\ fmap (M := list) mean_validation_score
       <$> aggregate true 3 (example_group Q_lit 10 10 20)
     <> Ok [Q_lit 3 4]
  /\ fmap (M := list) mean_validation_score
       <$> aggregate true 3 (example_group f64_lit 10 10 20)
     <> Ok [f64_lit 3 4].
Proof.
  split_and!.
  - vm_compute. reflexivity.
  - vm_compute. discriminate.
  - rewrite weighted_example_exact. vm_compute. discriminate.
  - rewrite weighted_example_binary64. vm_compute. discriminate.
Qed.

(** C2 (as amended). Over an ordered result list made of consecutive
    groups of fold-count results, the summary score of each group is the
    mean weighted by the test sample counts, (sum of score_i * n_i) /
    (sum of n_i), when [iid] is true, and the plain mean, (sum of
    score_i) / fold_count, when it is false; for the scores 0.8, 0.9 and
    0.7 the plain mean is 0.8 and the mean weighted by 10, 10 and 20 is
    0.775. *)
Theorem summary_score_is_the_mean {V num : Type} `{Number num} (iid : bool)
    (n_folds : nat) (groups : list (list (num * gmap string V * nat))) :
  0 < n_folds ->
  Forall (fun g => length g = n_folds) groups ->
  aggregate iid n_folds (concat groups)
  = result_mapM (group_summary iid n_folds) groups
  /\ (forall g, g ∈ groups ->
        mean_validation_score <$> group_summary iid n_folds g
        = if iid then weighted_mean ((fun r => (r.1.1, r.2)) <$> g)
          else unweighted_mean n_folds g.*1.*1)
  /\ unweighted_mean 3 (example_group Q_lit 10 10 10).*1.*1 = Ok (Q_lit 8 10)
  /\ weighted_mean ((fun r => (r.1.1, r.2)) <$> example_group Q_lit 10 10 20)
     = Ok (Q_lit 775 1000).
Proof.
  intros Hn Hg. destruct (aggregate_groups iid n_folds groups Hn Hg) as [Ha Hm].
  split_and!; [done|done| |]; vm_compute; reflexivity.
Qed.

Lemma summary_score_is_the_mean_witness :
  0 < 3
  /\ Forall (fun g : list (Q * gmap string Z * nat) => length g = 3)
       [example_group Q_lit 10 10 20; example_group Q_lit 10 10 10]
  /\ aggregate true 3
       (concat [example_group Q_lit 10 10 20; example_group Q_lit 10 10 10])
     = result_mapM (group_summary true 3)
         [example_group Q_lit 10 10 20; example_group Q_lit 10 10 10].
Proof.
  assert (0 < 3) as Hn by lia.
  assert (Forall (fun g : list (Q * gmap string Z * nat) => length g = 3)
            [example_group Q_lit 10 10 20; example_group Q_lit 10 10 10]) as Hg
    by (repeat constructor).
  split_and!; [done|done|].
  exact (proj1 (summary_score_is_the_mean true 3 _ Hn Hg)).
Defined.

(** C3 on a search with a tie: of the two configurations with [c = 3],
    the one enumerated first is the best. *)
Example toy_search_best :
  toy_fit_outcome.2 = Ok tt
  /\ best_params_ (attrs (self_obj toy_fit_outcome.1)) = Some (toy_config 3)
  /\ best_score_ (attrs (self_obj toy_fit_outcome.1)) = Some (Q_lit 3 10)
  /\ fmap (M := list) parameters <$> cv_scores_ (attrs (self_obj toy_fit_outcome.1))
     = Some toy_configs.
Proof. split_and!; vm_compute; reflexivity. Qed.



(** C5, [scoring] does not come first: with a scoring object and a loss
    function both given, the loss function is used; with a scoring object
    and a score function, the score function. *)
Lemma legacy_functions_override_scoring :
  (resolve_scorer
     (toy_search (Some "my_loss") None (ScoringObject (ScoringCallable "my_scoring" None)) true)
     (toy_world (Some "my_loss") None (ScoringObject (ScoringCallable "my_scoring" None)))).2
  = Ok (Some (Scorer "my_loss" false))
  /\ (resolve_scorer
        (toy_search None (Some "my_score") (ScoringObject (ScoringCallable "my_scoring" None)) true)
        (toy_world None (Some "my_score") (ScoringObject (ScoringCallable "my_scoring" None)))).2
     = Ok (Some (Scorer "my_score" true))
  /\ (resolve_scorer
        (toy_search (Some "my_loss") (Some "my_score") NoScoring true)
        (toy_world (Some "my_loss") (Some "my_score") NoScoring)).2
     = Ok (Some (Scorer "my_loss" false))
  /\ Scorer "my_loss" false <> ScoringCallable "my_scoring" None
  /\ Scorer "my_score" true <> ScoringCallable "my_scoring" None
  /\ scorer_ (attrs (self_obj
        (_fit toy_X (Some toy_y) (toy_configs, None) ∅
           (toy_world (Some "my_loss") None
              (ScoringObject (ScoringCallable "my_scoring" None)))).1))
     = Some (Some (Scorer "my_loss" false)).
Proof. split_and!; try discriminate; vm_compute; reflexivity. Qed.

Lemma scorer_resolution_witness :
  loss_func (toy_search (Some "my_loss") (Some "my_score") (ScoringName "r2") true)
  = Some "my_loss"
  /\ resolve_scorer
       (toy_search (Some "my_loss") (Some "my_score") (ScoringName "r2") true)
       (toy_world None None NoScoring)
     = (mkWorld (toy_search None None NoScoring true)
          [mkWarning UserWarning loss_func_message],
        Ok (Some (Scorer "my_loss" false))).
Proof.
  split; [reflexivity|].
  exact (proj1 (scorer_resolution
                  (toy_search (Some "my_loss") (Some "my_score") (ScoringName "r2") true)
                  (toy_world None None NoScoring)) "my_loss" eq_refl).
Defined.


(** Whatever the generator does on [randint(0)], an empty list has no
    item to return: no generator makes the pass yield. *)
Lemma empty_candidates_never_yield {G : Type} `{RandomState G} (seed : Z)
    (w : rng_world G) :
  exists e,
    ParameterSampler_iter
      (mkParameterSampler {[ "a" := Candidates ([] : list Z) ]} 1 (Seed seed)) w
    = ([], Some e, w).
Proof.
  unfold ParameterSampler_iter. simpl.
  assert (items_sorted ({[ "a" := Candidates [] ]} : gmap string (distribution Z G))
          = [("a", Candidates [])]) as -> by (vm_compute; reflexivity).
  simpl. destruct (randint (RandomState_seed seed) 0) as [[i st]|e]; simpl; eauto.
Qed.

(** A distribution with [rvs] draws from the global generator: the seed
    of the sampler does not make the pass reproducible. *)
Example rvs_is_not_reproducible :
  (ParameterSampler_iter rvs_sampler (toy_rng 5)).1.1
  <> (ParameterSampler_iter rvs_sampler (toy_rng 6)).1.1.
Proof. vm_compute. discriminate. Qed.

Example toy_sampler_pass :
  (ParameterSampler_iter toy_sampler (toy_rng 5)).1.2 = None
  /\ length (ParameterSampler_iter toy_sampler (toy_rng 5)).1.1 = 4
  /\ (ParameterSampler_iter toy_sampler (toy_rng 5)).1
     = (ParameterSampler_iter toy_sampler (toy_rng 77)).1.
Proof. split_and!; vm_compute; reflexivity. Qed.



Example fit_grid_point_numeric :
  fit_grid_point toy_X (Some toy_y) (mkToy 1 true None) (toy_config 3)
    [2; 3] [0; 1] None 0%Z tt
  = Ok (Q_lit 3 10, toy_config 3, 2).
Proof. vm_compute. reflexivity. Qed.

(** C8 on a valid grid and on three invalid ones. *)
Lemma grid_validation_witness :
  Forall valid_value
    (descriptor_values (OneGroup {[ "c" := PyList [1; 2; 3]%Z ]}))
  /\ _check_param_grid (OneGroup {[ "c" := PyList [1; 2; 3]%Z ]}) = Ok tt
  /\ is_ok (GridSearchCV_init (mkToy 1 true None)
              (OneGroup {[ "c" := OtherObject (Some [1%Z]) ]})
              NoScoring None None None 1%Z true true toy_folds 0%Z DispatchAll)
     = false
  /\ is_ok (GridSearchCV_init (mkToy 1 true None)
              (Groups [ {[ "c" := PyTuple [1%Z] ]}; {[ "c" := NdArray 2 [1%Z] ]} ])
              NoScoring None None None 1%Z true true toy_folds 0%Z DispatchAll)
     = false
  /\ is_ok (GridSearchCV_init (mkToy 1 true None)
              (OneGroup {[ "c" := PyList ([] : list Z) ]})
              NoScoring None None None 1%Z true true toy_folds 0%Z DispatchAll)
     = false.
Proof.
  assert (Forall valid_value
            (descriptor_values (OneGroup {[ "c" := PyList [1; 2; 3]%Z ]}))) as Hv.
  { vm_compute. repeat constructor. discriminate. }
  split_and!; [exact Hv| |vm_compute; reflexivity..].
  exact (proj2 (proj1 (grid_validation (num := Q) (E := toy_estimator) (X := list Q)
                         (Y := list Q) (Fn := string) (FP := unit) (CVA := list fold)
                         (OneGroup {[ "c" := PyList [1; 2; 3]%Z ]}))) Hv).
Defined.

(** C9 on a search whose second configuration cannot be fitted. *)
Lemma unit_failure_is_fatal_witness :
  fit_setup toy_X (Some toy_y) ∅ (toy_world None None NoScoring)
  = (toy_setup_outcome.1, Ok toy_locals)
  /\ (toy_config (-1), ([2; 3], [0; 1])) ∈ work_units toy_failing_configs toy_folds
  /\ run_unit (self_obj toy_setup_outcome.1) toy_locals
       (toy_config (-1), ([2; 3], [0; 1]))
     = Raise (CollaboratorError "fit failed")
  /\ _fit toy_X (Some toy_y) (toy_failing_configs, None) ∅
       (toy_world None None NoScoring)
     = (toy_setup_outcome.1, Raise (CollaboratorError "fit failed"))
  /\ cv_scores_ (attrs (self_obj toy_setup_outcome.1)) = None.
Proof.
  assert (fit_setup toy_X (Some toy_y) ∅ (toy_world None None NoScoring)
          = (toy_setup_outcome.1, Ok toy_locals)) as Hsetup by (vm_compute; reflexivity).
  assert ((toy_config (-1), ([2; 3], [0; 1]))
          ∈ work_units toy_failing_configs toy_folds) as Hu.
  { apply list_elem_of_lookup. exists 2. vm_compute. reflexivity. }
  assert (run_unit (self_obj toy_setup_outcome.1) toy_locals
            (toy_config (-1), ([2; 3], [0; 1]))
          = Raise (CollaboratorError "fit failed")) as He by (vm_compute; reflexivity).
  split_and!; [exact Hsetup|exact Hu|exact He| |].
  - destruct (proj1 (unit_failure_is_fatal toy_X (Some toy_y) (toy_failing_configs, None)
                       ∅ _ _ _ _ _ Hsetup Hu He))
      as (e' & before & u' & after & Hfit & _).
    rewrite Hfit. f_equal.
    assert ((_fit toy_X (Some toy_y) (toy_failing_configs, None) ∅
               (toy_world None None NoScoring)).2
            = Raise (CollaboratorError "fit failed")) as Hr by (vm_compute; reflexivity).
    rewrite Hfit in Hr. exact Hr.
  - vm_compute. reflexivity.
Defined.

(** C10 on fitted objects whose best estimator has, and has not, a
    [score] method. *)
Lemma score_delegation_witness :
  best_estimator_ (attrs (toy_fitted true (Some (ScoringCallable "s" None))))
  = Some (mkToy 3 true (Some 4))
  /\ BaseSearchCV_score (toy_fitted true (Some (ScoringCallable "s" None))) toy_X
       (Some toy_y)
     = est_score (mkToy 3 true (Some 4)) toy_X (Some toy_y).
Proof.
  split; [reflexivity|].
  exact (proj1 (score_delegation (toy_fitted true (Some (ScoringCallable "s" None)))
                  (mkToy 3 true (Some 4)) toy_X (Some toy_y) eq_refl) eq_refl).
Defined.

Example score_uses_scorer_without_own_score :
  BaseSearchCV_score (toy_fitted true (Some (ScoringCallable "s" None))) toy_X (Some toy_y)
  = Ok (Numeric (Q_lit 3 10))
  /\ BaseSearchCV_score (toy_fitted false (Some (ScoringCallable "s" None))) toy_X
       (Some toy_y)
     = Ok (Numeric 3%Q)
  /\ is_ok (BaseSearchCV_score (toy_fitted false None) toy_X (Some toy_y)) = false.
Proof. split_and!; vm_compute; reflexivity. Qed.

(** ** More on [ParameterGrid] *)

Section ParameterGrid_membership.
Context {V : Type}.
Implicit Types (g : gmap string (list V)) (gs : list (gmap string (list V))).
Implicit Types (c : gmap string V).

Lemma cartesian_maps (axes : list (string * list V)) c :
  NoDup axes.*1 ->
  c ∈ (list_to_map <$> cartesian axes : list (gmap string V))
  <-> dom c = list_to_set axes.*1
      /\ forall k v, c !! k = Some v -> exists vs, (k, vs) ∈ axes /\ v ∈ vs.
Proof.
  revert c. induction axes as [|[k vs] axes IH]; intros c Hnd.
  - simpl. rewrite list_elem_of_singleton. split.
    + intros ->. split; [by rewrite dom_empty_L|]. intros k v. by rewrite lookup_empty.
    + intros [Hdom _]. by apply dom_empty_inv_L.
  - rewrite fmap_cons in Hnd. apply NoDup_cons in Hnd as [Hk Hnd]. simpl in Hk.
    rewrite list_elem_of_fmap. split.
    + intros (c' & -> & (v & (c0 & ->%list_elem_of_singleton & Hc0)%list_elem_of_bind
                         & Hv)%list_elem_of_bind).
      destruct (proj1 (IH (list_to_map c0) Hnd)) as [Hdom Hval];
        [apply list_elem_of_fmap; eauto|].
      simpl. split.
      * by rewrite dom_insert_L, Hdom.
      * intros k' v' [[<- <-]|[Hne Hk']]%lookup_insert_Some.
        -- exists vs. split; [left|done].
        -- destruct (Hval _ _ Hk') as (vs' & Hin & Hv'). exists vs'. split; [by right|done].
    + intros [Hdom Hval].
      assert (is_Some (c !! k)) as [v Hv].
      { apply elem_of_dom. rewrite Hdom. simpl. apply elem_of_union_l.
        by apply elem_of_singleton. }
      assert (v ∈ vs) as Hvs.
      { destruct (Hval _ _ Hv) as (vs' & [[= <-]|Hin]%elem_of_cons & Hv'); [done|].
        exfalso. apply Hk. apply list_elem_of_fmap. by exists (k, vs'). }
      assert (delete k c ∈ (list_to_map <$> cartesian axes : list (gmap string V)))
        as (c0 & Hc0 & Hin)%list_elem_of_fmap.
      { apply IH; [done|]. split.
        - rewrite dom_delete_L, Hdom. simpl. apply set_eq. intros x.
          rewrite elem_of_difference, elem_of_union, !elem_of_singleton, !elem_of_list_to_set.
          split; [by intros [[->|?] ?]|]. intros Hx. split; [by right|]. by intros ->.
        - intros k' v' [Hne Hk']%lookup_delete_Some.
          destruct (Hval _ _ Hk') as (vs' & [[= ? ?]|Hin]%elem_of_cons & Hv'); [done|eauto]. }
      exists ((k, v) :: c0). split.
      * simpl. rewrite <- Hc0. symmetry. by apply insert_delete_id.
      * simpl. apply list_elem_of_bind. exists v. split; [|done].
        apply list_elem_of_bind. exists c0. split; [by apply list_elem_of_singleton|done].
Qed.

(** The configurations of a group are the assignments that give each
    parameter of the group, and no other name, one of its candidates. *)
Lemma elem_of_group_configurations g c :
  c ∈ group_configurations g
  <-> dom c = dom g
      /\ forall k v, c !! k = Some v -> exists vs, g !! k = Some vs /\ v ∈ vs.
Proof.
  unfold group_configurations.
  rewrite cartesian_maps by apply NoDup_axes_by_name.
  assert (forall k vs, (k, vs) ∈ axes_by_name g <-> g !! k = Some vs) as Hax.
  { intros k vs. unfold axes_by_name. rewrite merge_sort_Permutation.
    apply elem_of_map_to_list. }
  assert ((list_to_set (axes_by_name g).*1 : gset string) = dom g) as ->.
  { apply set_eq. intros k. rewrite (dom_alt g), !elem_of_list_to_set.
    unfold axes_by_name. by rewrite merge_sort_Permutation. }
  split; intros [Hdom Hval]; (split; [done|]); intros k v Hk;
    destruct (Hval k v Hk) as (vs & Hin & Hv); exists vs; split; try done;
    by apply Hax.
Qed.

(** X1. [ParameterGrid] yields a configuration exactly when, for one of
    the groups, it assigns to each parameter of the group, and to no
    other name, one of the parameter's candidates: every combination is
    yielded and nothing else is. *)
Theorem ParameterGrid_yields_every_combination_only gs c :
  c ∈ ParameterGrid_iter gs
  <-> exists g, g ∈ gs /\ dom c = dom g
        /\ forall k v, c !! k = Some v -> exists vs, g !! k = Some vs /\ v ∈ vs.
Proof.
  rewrite ParameterGrid_iter_groups, list_elem_of_bind. split.
  - intros (g & Hc%elem_of_group_configurations & Hin). exists g. tauto.
  - intros (g & Hin & Hc). exists g. split; [by apply elem_of_group_configurations|done].
Qed.

Lemma NoDup_cartesian (axes : list (string * list V)) :
  Forall (fun a => NoDup a.2) axes -> NoDup (cartesian axes).
Proof.
  induction 1 as [|[k vs] axes Hvs _ IH]; simpl.
  - apply NoDup_singleton.
  - apply NoDup_bind; [| |done].
    + intros v1 v2 c _ _ (c1 & ->%list_elem_of_singleton & _)%list_elem_of_bind
        (c2 & [= ->]%list_elem_of_singleton & _)%list_elem_of_bind. done.
    + intros v _. rewrite bind_ret_fmap. apply NoDup_fmap_2; [|done].
      by intros c1 c2 [= ->].
Qed.

Lemma list_to_map_same_names (c1 c2 : list (string * V)) :
  c1.*1 = c2.*1 -> NoDup c1.*1 ->
  (list_to_map c1 : gmap string V) = list_to_map c2 -> c1 = c2.
Proof.
  revert c2. induction c1 as [|[k v1] c1 IH]; intros [|[k2 v2] c2]; try done.
  rewrite !fmap_cons. simpl. intros [= <- Hnames] [Hk Hnd]%NoDup_cons Hmaps.
  assert (v1 = v2) as <-.
  { apply (f_equal (lookup k)) in Hmaps. rewrite !lookup_insert_eq in Hmaps. congruence. }
  f_equal. apply IH; [done|done|].
  apply (f_equal (delete k)) in Hmaps.
  rewrite !delete_insert_id in Hmaps; [done| |].
  - apply not_elem_of_list_to_map. by rewrite <- Hnames.
  - by apply not_elem_of_list_to_map.
Qed.

(** X2. When no candidate list of a group holds a value twice,
    [ParameterGrid] yields no configuration of the group twice. *)
Theorem ParameterGrid_yields_no_combination_twice g :
  map_Forall (fun _ vs => NoDup vs) g -> NoDup (ParameterGrid_iter [g]).
Proof.
  intros Hg. rewrite ParameterGrid_iter_group. unfold group_configurations.
  apply NoDup_fmap_2_strong.
  - intros c1 c2 Hc1%cartesian_names Hc2%cartesian_names.
    apply list_to_map_same_names; [congruence|].
    rewrite Hc1. apply NoDup_axes_by_name.
  - apply NoDup_cartesian. unfold axes_by_name. rewrite merge_sort_Permutation.
    apply Forall_forall. intros [k vs] Hin%elem_of_map_to_list. by apply (Hg k vs).
Qed.

(** X3. A group in which one parameter has an empty candidate list
    yields no configuration at all, whatever the other parameters hold,
    and counts for zero in [__len__]. *)
Theorem ParameterGrid_empty_candidates g k :
  g !! k = Some [] ->
  ParameterGrid_iter [g] = [] /\ ParameterGrid_len [g] = Ok 0.
Proof.
  intros Hk.
  assert (ParameterGrid_iter [g] = []) as Hnil.
  { destruct (ParameterGrid_iter [g]) as [|c l] eqn:Hiter; [done|]. exfalso.
    assert (c ∈ ParameterGrid_iter [g]) as Hc by (rewrite Hiter; left).
    rewrite ParameterGrid_iter_group in Hc.
    apply elem_of_group_configurations in Hc as [Hdom Hval].
    assert (is_Some (c !! k)) as [v Hv].
    { apply elem_of_dom. rewrite Hdom. by apply elem_of_dom. }
    destruct (Hval k v Hv) as (vs & Hvs & Hin). rewrite Hk in Hvs.
    injection Hvs as <-. by apply elem_of_nil in Hin. }
  split; [done|].
  by rewrite ParameterGrid_len_groups, <- length_ParameterGrid_iter, Hnil.
Qed.
End ParameterGrid_membership.

Lemma ParameterGrid_yields_no_combination_twice_witness :
  map_Forall (fun _ vs => NoDup vs)
    ({[ "a" := [1; 2]%Z; "b" := [3; 4; 5]%Z ]} : gmap string (list Z))
  /\ NoDup (ParameterGrid_iter [({[ "a" := [1; 2]%Z; "b" := [3; 4; 5]%Z ]} : gmap string (list Z))]).
Proof.
  assert (map_Forall (fun _ vs => NoDup vs)
    ({[ "a" := [1; 2]%Z; "b" := [3; 4; 5]%Z ]} : gmap string (list Z))) as Hg.
  { apply (bool_decide_unpack _). vm_compute. exact I. }
  split; [exact Hg|].
  exact (ParameterGrid_yields_no_combination_twice _ Hg).
Defined.

Lemma ParameterGrid_empty_candidates_witness :
  ({[ "a" := [1; 2]%Z; "b" := [] ]} : gmap string (list Z)) !! "b" = Some []
  /\ ParameterGrid_iter [({[ "a" := [1; 2]%Z; "b" := [] ]} : gmap string (list Z))] = []
  /\ ParameterGrid_len [({[ "a" := [1; 2]%Z; "b" := [] ]} : gmap string (list Z))] = Ok 0.
Proof.
  assert (({[ "a" := [1; 2]%Z; "b" := [] ]} : gmap string (list Z)) !! "b" = Some [])
    as Hb by reflexivity.
  split; [exact Hb|].
  exact (ParameterGrid_empty_candidates _ "b" Hb).
Defined.


(** ** More on [ParameterSampler] *)

Section sampler_more_facts.
Context {V G : Type} `{RandomState G}.
Implicit Types (axes items : list (string * distribution V G)).
Implicit Types (w : rng_world G) (rnd : rnd_handle G) (self : ParameterSampler V G).

(** What one draw gives each parameter: for a list of candidates, one of
    them. *)
Lemma one_draw_sound axes rnd w c rnd' w' :
  one_draw axes rnd w = Ok (c, rnd', w') ->
  Forall2 (fun a kv => kv.1 = a.1
                       /\ match a.2 with
                          | Candidates values => kv.2 ∈ values
                          | HasRvs _ => True
                          end) axes c.
Proof.
  revert rnd w c rnd' w'. induction axes as [|[k [values|rvs]] axes IH];
    intros rnd w c rnd' w'; simpl.
  - intros [= <- _ _]. constructor.
  - destruct (rnd_randint rnd (length values) w) as [[[i rnd1] w1]|]; [|done]. simpl.
    unfold py_getitem. destruct (values !! i) as [x|] eqn:Hx; [|done]. simpl.
    destruct (one_draw axes rnd1 w1) as [[[c1 rnd2] w2]|] eqn:Hd; [|done]. simpl.
    intros [= <- _ _]. constructor; [|by eapply IH].
    split; [done|]. by eapply list_elem_of_lookup_2.
  - destruct (one_draw axes rnd _) as [[[c1 rnd2] w2]|] eqn:Hd; [|done]. simpl.
    intros [= <- _ _]. constructor; [done|by eapply IH].
Qed.

Lemma draws_elem count axes rnd w c :
  c ∈ (draws count axes rnd w).1.1 ->
  exists rnd0 w0 c' rnd' w',
    one_draw axes rnd0 w0 = Ok (c', rnd', w') /\ c = list_to_map c'.
Proof.
  revert rnd w. induction count as [|count IH]; intros rnd w; simpl.
  - by intros ?%elem_of_nil.
  - destruct (one_draw axes rnd w) as [[[c1 rnd'] w']|] eqn:Hd; simpl.
    + specialize (IH rnd' w').
      destruct (draws count axes rnd' w') as [[more err] w'']. simpl in *.
      intros [->|Hc]%elem_of_cons; [eauto 10|by apply IH].
    + by intros ?%elem_of_nil.
Qed.

(** What a pass yields is drawn from the distributions. *)
Lemma ParameterSampler_iter_candidates self w :
  Forall (fun c : gmap string V =>
            map_Forall (fun k d =>
                          match d with
                          | Candidates values => exists v, c !! k = Some v /\ v ∈ values
                          | HasRvs _ => is_Some (c !! k)
                          end) (param_distributions self))
    (ParameterSampler_iter self w).1.1.
Proof.
  apply Forall_forall. intros c Hc k d Hk.
  rewrite ParameterSampler_iter_sorted in Hc. unfold sampled_configurations in Hc.
  apply draws_elem in Hc as (rnd0 & w0 & c' & rnd' & w' & Hd & ->).
  pose proof (one_draw_sound _ _ _ _ _ _ Hd) as Hsound.
  pose proof (one_draw_names _ _ _ _ _ _ Hd) as Hnames.
  assert ((k, d) ∈ merge_sort name_le (map_to_list (param_distributions self))) as Hin.
  { rewrite merge_sort_Permutation. by apply elem_of_map_to_list. }
  apply list_elem_of_lookup in Hin as [i Hi].
  destruct (Forall2_lookup_l _ _ _ _ _ Hsound Hi) as ([k' v] & Hkv & Hk' & Hv).
  simpl in *. subst k'.
  assert ((list_to_map c' : gmap string V) !! k = Some v) as Hlook.
  { apply elem_of_list_to_map_1; [|by eapply list_elem_of_lookup_2].
    rewrite Hnames, merge_sort_Permutation. apply NoDup_fst_map_to_list. }
  destruct d as [values|rvs]; eauto.
Qed.

(** X4. Every configuration a pass of [ParameterSampler] yields gives
    each parameter that has a list of candidates one of these candidates,
    and gives a value to every other parameter, whatever the generator
    and the random state are. *)
Theorem sampled_values_are_candidates self w :
  Forall (fun c : gmap string V =>
            map_Forall (fun k d =>
                          match d with
                          | Candidates values => exists v, c !! k = Some v /\ v ∈ values
                          | HasRvs _ => is_Some (c !! k)
                          end) (param_distributions self))
    (ParameterSampler_iter self w).1.1.
Proof. apply ParameterSampler_iter_candidates. Qed.

(** The global generator and a shared generator object are not copied:
    the handle stays what it was. *)
Lemma one_draw_handle axes rnd w c rnd' w' :
  (forall st, rnd <> FreshRng st) ->
  one_draw axes rnd w = Ok (c, rnd', w') -> rnd' = rnd.
Proof.
  intros Hrnd. revert w c rnd' w'. induction axes as [|[k [values|rvs]] axes IH];
    intros w c rnd' w'; simpl.
  - by intros [= _ <- _].
  - destruct (rnd_randint rnd (length values) w) as [[[i rnd1] w1]|] eqn:Hr; [|done].
    simpl. destruct (py_getitem values i); [|done]. simpl.
    assert (rnd1 = rnd) as ->.
    { unfold rnd_randint in Hr. destruct rnd as [|st|r]; [|by destruct (Hrnd st)|].
      - destruct (randint _ _); simplify_eq/=. done.
      - destruct (rng_objects w !! r); [|done].
        destruct (randint _ _); simplify_eq/=. done. }
    destruct (one_draw axes rnd w1) as [[[c1 rnd2] w2]|] eqn:Hd; [|done]. simpl.
    intros [= _ <- _]. by eapply IH.
  - destruct (one_draw axes rnd _) as [[[c1 rnd2] w2]|] eqn:Hd; [|done]. simpl.
    intros [= _ <- _]. by eapply IH.
Qed.

Lemma draws_add (a b : nat) axes rnd w :
  (forall st, rnd <> FreshRng st) ->
  (draws a axes rnd w).1.2 = None ->
  draws (a + b) axes rnd w
  = ((draws a axes rnd w).1.1 ++ (draws b axes rnd (draws a axes rnd w).2).1.1,
     (draws b axes rnd (draws a axes rnd w).2).1.2,
     (draws b axes rnd (draws a axes rnd w).2).2).
Proof.
  intros Hrnd. revert w. induction a as [|a IH]; intros w; simpl.
  - intros _. by destruct (draws b axes rnd w) as [[l e] w'].
  - destruct (one_draw axes rnd w) as [[[c rnd'] w']|] eqn:Hd; [|done].
    assert (rnd' = rnd) as -> by (by eapply one_draw_handle).
    specialize (IH w').
    destruct (draws a axes rnd w') as [[l1 e1] w1]. simpl in *.
    intros ->. rewrite IH by done. done.
Qed.

(** X5. Without a seed the generator is the global one, or the object
    the caller passed, and a pass starts where the last one stopped: when
    a pass of [a] configurations ends without an exception, the pass of
    [b] configurations that follows it yields, together with it, what
    one pass of [a + b] configurations yields, and leaves the generators
    in the same state. *)
Theorem unseeded_passes_continue_the_stream self (a b : nat) w :
  (forall seed, random_state self <> Seed seed) ->
  (ParameterSampler_iter (with_n_iter self (Z.of_nat a)) w).1.2 = None ->
  let first := ParameterSampler_iter (with_n_iter self (Z.of_nat a)) w in
  let second := ParameterSampler_iter (with_n_iter self (Z.of_nat b)) first.2 in
  ParameterSampler_iter (with_n_iter self (Z.of_nat (a + b))) w
  = (first.1.1 ++ second.1.1, second.1.2, second.2).
Proof.
  intros Hseed Herr first second. subst first second.
  rewrite !ParameterSampler_iter_sorted in *. unfold sampled_configurations in *.
  simpl in *. rewrite !Nat2Z.id in *. apply draws_add; [|done].
  destruct (random_state self) as [|seed|r]; simpl; try done.
  by destruct (Hseed seed).
Qed.
End sampler_more_facts.

Lemma unseeded_passes_continue_the_stream_witness :
  (forall seed, random_state unseeded_sampler <> Seed seed)
  /\ (ParameterSampler_iter (with_n_iter unseeded_sampler (Z.of_nat 1)) (toy_rng 5)).1.2
     = None
  /\ let first := ParameterSampler_iter (with_n_iter unseeded_sampler (Z.of_nat 1))
                    (toy_rng 5) in
     let second := ParameterSampler_iter (with_n_iter unseeded_sampler (Z.of_nat 2))
                     first.2 in
     ParameterSampler_iter (with_n_iter unseeded_sampler (Z.of_nat (1 + 2))) (toy_rng 5)
     = (first.1.1 ++ second.1.1, second.1.2, second.2).
Proof.
  assert (forall seed, random_state unseeded_sampler <> Seed seed) as Hseed by done.
  assert ((ParameterSampler_iter (with_n_iter unseeded_sampler (Z.of_nat 1))
             (toy_rng 5)).1.2 = None) as Herr by (vm_compute; reflexivity).
  split_and!; [exact Hseed|exact Herr|].
  exact (unseeded_passes_continue_the_stream unseeded_sampler 1 2 (toy_rng 5) Hseed Herr).
Defined.

(** The second pass of the unseeded sampler does not repeat the first. *)
Example unseeded_passes_differ :
  fmap (M := list) (lookup "a") (ParameterSampler_iter unseeded_sampler (toy_rng 5)).1.1
  <> fmap (M := list) (lookup "a")
       (ParameterSampler_iter unseeded_sampler
          (ParameterSampler_iter unseeded_sampler (toy_rng 5)).2).1.1.
Proof. vm_compute. discriminate. Qed.

(** ** More on [_fit] *)

Section search_more_facts.
Context {V num E X Y Fn FP CVA : Type} `{Number num}
        `{Collaborators V num E X Y Fn FP CVA}.
Implicit Types (w : world V num E Fn FP CVA) (l : fit_locals E X Y Fn).
Implicit Types (self : BaseSearchCV V num E Fn FP CVA).
Implicit Types (pit : list (gmap string V) * option exn).

(** The second part of [_fit], step by step. *)
Lemma fit_search_unfold l pit w :
  fit_search l pit w
  = match result_mapM (run_unit (self_obj w) l) (work_units pit.1 (local_cv l)) with
    | Raise e => (w, Raise e)
    | Ok out =>
        match pit.2 with
        | Some e => (w, Raise e)
        | None =>
            match aggregate (iid (self_obj w)) (length (local_cv l)) out with
            | Raise e => (w, Raise e)
            | Ok cv_scores =>
                let w2 := mkWorld (with_attrs (set_cv_scores_ cv_scores) (self_obj w))
                            (warned w) in
                match select_best (scorer_greater_is_better (local_scorer l)) cv_scores with
                | Raise e => (w2, Raise e)
                | Ok best =>
                    let w3 :=
                      mkWorld
                        (with_attrs (set_best_score_ (mean_validation_score best))
                           (with_attrs (set_best_params_ (parameters best)) (self_obj w2)))
                        (warned w) in
                    if refit (self_obj w) then
                      match set_params (clone (local_base_estimator l)) (parameters best) with
                      | Raise e => (w3, Raise e)
                      | Ok configured =>
                          match est_fit configured (local_X l) (local_y l)
                                  (fit_params (self_obj w)) with
                          | Raise e => (w3, Raise e)
                          | Ok fitted =>
                              (mkWorld (with_attrs (set_best_estimator_ fitted) (self_obj w3))
                                 (warned w), Ok tt)
                          end
                      end
                    else (w3, Ok tt)
                end
            end
        end
    end.
Proof.
  unfold fit_search, bindM, get_self, set_attr, liftM, retM, Parallel. simpl.
  destruct (result_mapM _ _) as [out|]; [|done].
  destruct pit.2; [done|].
  destruct (aggregate _ _ _) as [cv_scores|]; [|done]. simpl.
  destruct (select_best _ _) as [best|]; [|done]. simpl.
  destruct (refit (self_obj w)); [|done].
  destruct (set_params _ _) as [configured|]; [|done]. simpl.
  by destruct (est_fit _ _ _ _).
Qed.

(** The first part of [_fit], step by step. *)
Lemma fit_setup_unfold Xv y extra w :
  fit_setup Xv y extra w
  = let w0 := if decide (extra = ∅) then w
              else mkWorld (self_obj w)
                     (warned w ++ [mkWarning UserWarning additional_parameters_message]) in
    match check_arrays Xv y with
    | Raise e => (w0, Raise e)
    | Ok Xy =>
        match resolve_scorer (self_obj w) w0 with
        | (w1, Raise e) => (w1, Raise e)
        | (w1, Ok scorer) =>
            let w2 := mkWorld (with_attrs (set_scorer_ scorer) (self_obj w1)) (warned w1) in
            match Xy.2 with
            | Some yv =>
                if decide (len_targets yv = num_samples Xv) then
                  (w2, Ok (mkFitLocals Xy.1 (Some (asarray yv)) scorer
                             (check_cv (cv (self_obj w)) Xy.1 (Some (asarray yv))
                                (is_classifier (estimator (self_obj w))))
                             (clone (estimator (self_obj w)))))
                else
                  (w2, Raise (ValueError
                         ("Target variable (y) has a different number "
                          ++ "of samples (" ++ pretty (len_targets yv)
                          ++ ") than data (X: " ++ pretty (num_samples Xv) ++ " samples)")))
            | None =>
                (w2, Ok (mkFitLocals Xy.1 None scorer
                           (check_cv (cv (self_obj w)) Xy.1 None
                              (is_classifier (estimator (self_obj w))))
                           (clone (estimator (self_obj w)))))
            end
        end
    end.
Proof.
  unfold fit_setup, bindM, get_self, set_attr, liftM, retM, warn.
  destruct (decide (extra = ∅)); simpl.
  all: destruct (check_arrays Xv y) as [[X' y']|]; [|done]; simpl.
  all: destruct (resolve_scorer _ _) as [w1 [scorer|]]; [|done]; simpl.
  all: destruct y' as [yv|]; [|done].
  all: by destruct (decide (len_targets yv = num_samples Xv)).
Qed.

(** Resolving the scorer appends its warnings to those already issued,
    and neither the warnings nor the outcome depend on the latter. *)
Lemma resolve_scorer_warned self :
  exists more r, forall w,
    resolve_scorer self w = (mkWorld (self_obj w) (warned w ++ more), r).
Proof.
  unfold resolve_scorer, bindM, warn, retM, liftM.
  destruct (loss_func self) as [f|]; [by eexists [_], _|].
  destruct (score_func self) as [f|]; [by eexists [_], _|].
  destruct (scoring self) as [|name|s].
  - eexists [], _. intros [s0 ws]. simpl. by rewrite app_nil_r.
  - destruct (SCORERS !! name); eexists [], _; intros [s0 ws]; simpl; by rewrite app_nil_r.
  - eexists [], _. intros [s0 ws]. simpl. by rewrite app_nil_r.
Qed.

Lemma fit_search_warned l pit self :
  exists self' r, forall ws,
    fit_search l pit (mkWorld self ws) = (mkWorld self' ws, r).
Proof.
  pose proof (fun ws => fit_search_unfold l pit (mkWorld self ws)) as Hu. simpl in Hu.
  destruct (result_mapM _ _) as [out|]; [|by eexists _, _].
  destruct pit.2; [by eexists _, _|].
  destruct (aggregate _ _ _) as [cv_scores|]; [|by eexists _, _].
  destruct (select_best _ _) as [best|]; [|by eexists _, _].
  destruct (refit self); [|by eexists _, _].
  destruct (set_params _ _) as [configured|]; [|by eexists _, _].
  destruct (est_fit _ _ _ _); by eexists _, _.
Qed.

(** With additional parameters [_fit] is [_fit] without them, after the
    warning. *)
Lemma _fit_additional_parameters Xv y pit extra w :
  extra <> ∅ ->
  _fit Xv y pit extra w
  = _fit Xv y pit ∅
      (mkWorld (self_obj w)
         (warned w ++ [mkWarning UserWarning additional_parameters_message])).
Proof.
  intros Hextra. rewrite !_fit_unfold, !fit_setup_unfold.
  rewrite decide_False by done. rewrite decide_True by done. done.
Qed.

(** The outcome of [_fit] does not depend on the warnings issued before
    the call, which it keeps. *)
Lemma _fit_warned Xv y pit self :
  exists self' more r, forall ws,
    _fit Xv y pit ∅ (mkWorld self ws) = (mkWorld self' (ws ++ more), r).
Proof.
  destruct (resolve_scorer_warned self) as (more & r & Hr).
  assert (forall l self1, exists self' r', forall ws,
            fit_search l pit (mkWorld self1 (ws ++ more))
            = (mkWorld self' (ws ++ more), r')) as Hsearch.
  { intros l self1. destruct (fit_search_warned l pit self1) as (self' & r' & Hf).
    exists self', r'. intros ws. apply Hf. }
  destruct (check_arrays Xv y) as [Xy|e] eqn:Hcheck.
  2:{ exists self, [], (Raise e). intros ws.
      rewrite _fit_unfold, fit_setup_unfold, decide_True by done. simpl.
      by rewrite Hcheck, app_nil_r. }
  destruct r as [scorer|e].
  2:{ exists self, more, (Raise e). intros ws.
      rewrite _fit_unfold, fit_setup_unfold, decide_True by done. simpl.
      by rewrite Hcheck, Hr. }
  destruct Xy.2 as [yv|] eqn:Hy.
  - destruct (decide (len_targets yv = num_samples Xv)) as [Hlen|Hlen].
    + destruct (Hsearch (mkFitLocals Xy.1 (Some (asarray yv)) scorer
                           (check_cv (cv self) Xy.1 (Some (asarray yv))
                              (is_classifier (estimator self)))
                           (clone (estimator self)))
                  (with_attrs (set_scorer_ scorer) self)) as (self' & r' & Hf).
      exists self', more, r'. intros ws.
      rewrite _fit_unfold, fit_setup_unfold, decide_True by done. simpl.
      rewrite Hcheck, Hr, Hy. simpl. rewrite decide_True by done. apply Hf.
    + eexists _, more, _. intros ws.
      rewrite _fit_unfold, fit_setup_unfold, decide_True by done. simpl.
      rewrite Hcheck, Hr, Hy. simpl. by rewrite decide_False by done.
  - destruct (Hsearch (mkFitLocals Xy.1 None scorer
                         (check_cv (cv self) Xy.1 None (is_classifier (estimator self)))
                         (clone (estimator self)))
                (with_attrs (set_scorer_ scorer) self)) as (self' & r' & Hf).
    exists self', more, r'. intros ws.
    rewrite _fit_unfold, fit_setup_unfold, decide_True by done. simpl.
    rewrite Hcheck, Hr, Hy. simpl. apply Hf.
Qed.

(** X6. Additional keyword parameters of [fit] are ignored but for one
    warning: the object after the call and the outcome are those of the
    call without them, the warnings are the same with the warning about
    the parameters in front, and none of this depends on the warnings
    issued before the call. *)
Theorem additional_parameters_only_warn Xv y pit extra self :
  extra <> ∅ ->
  exists self' more r,
    (forall ws, _fit Xv y pit ∅ (mkWorld self ws) = (mkWorld self' (ws ++ more), r))
    /\ (forall ws,
          _fit Xv y pit extra (mkWorld self ws)
          = (mkWorld self'
               (ws ++ mkWarning UserWarning additional_parameters_message :: more), r)).
Proof.
  intros Hextra.
  destruct (_fit_warned Xv y pit self) as (self' & more & r & Hfit).
  exists self', more, r. split; [done|]. intros ws.
  rewrite _fit_additional_parameters by done. simpl.
  by rewrite Hfit, <- (assoc_L (++)).
Qed.

(** [fit_grid_point] hands back the parameters it was given. *)
Lemma fit_grid_point_parameters (Xv : X) (y : option Y) (base : E) (params : gmap string V)
    (train test : list nat) (scorer : option (scorer_obj Fn)) (verb : Z) (fp : FP) r :
  fit_grid_point Xv y base params train test scorer verb fp = Ok r -> r.1.2 = params.
Proof.
  unfold fit_grid_point. destruct (set_params _ _); [|done]. simpl.
  destruct (kernel_callable base); [done|].
  destruct (split_data _ _ _ _); [|done]. simpl.
  destruct (fit_and_score _ _ _ _ _ _ _ _) as [[s|shown ty]|]; simpl; try done.
  by intros [= <-].
Qed.

(** The summaries of the groups of results of the configurations: one
    for each configuration, with its parameters and the score of each of
    its folds, in the order of the folds. *)
Lemma summaries_of_groups (run : gmap string V * fold -> result (num * gmap string V * nat))
    (iid : bool) (n : nat) (configs : list (gmap string V)) (folds : list fold)
    (groups : list (list (num * gmap string V * nat))) (cv_scores : list (CVScoreTuple V num)) :
  (forall u r, run u = Ok r -> r.1.2 = u.1) ->
  result_mapM (fun c => result_mapM (fun f => run (c, f)) folds) configs = Ok groups ->
  result_mapM (group_summary iid n) groups = Ok cv_scores ->
  Forall2 (fun c t =>
             parameters t = c
             /\ Forall2 (fun f s => exists size, run (c, f) = Ok (s, c, size))
                  folds (cv_validation_scores t)
             /\ (iid = false ->
                 unweighted_mean n (cv_validation_scores t)
                 = Ok (mean_validation_score t)))
    configs cv_scores.
Proof.
  intros Hrun Hg%result_mapM_Ok. revert cv_scores.
  induction Hg as [|c g configs groups Hc _ IH]; intros cv_scores Hs%result_mapM_Ok.
  - inversion Hs. constructor.
  - inversion Hs as [|? t ? cvs Ht Hrest]; subst.
    apply result_mapM_Ok in Hrest. constructor; [|by apply IH].
    apply result_mapM_Ok in Hc. unfold group_summary in Ht.
    destruct (if iid then _ else _) as [mean|] eqn:Hmean; [|done]. simpl in Ht.
    destruct (last g) as [r|] eqn:Hlast; [|done]. injection Ht as <-. simpl.
    split_and!.
    + apply last_Some in Hlast as [g' ->].
      assert (r ∈ g' ++ [r]) as [i Hi]%list_elem_of_lookup
        by (apply elem_of_app; right; left).
      destruct (Forall2_lookup_r _ _ _ _ _ Hc Hi) as (f & _ & Hf).
      by apply Hrun in Hf.
    + rewrite <- list_fmap_compose. apply Forall2_fmap_r.
      eapply Forall2_impl; [exact Hc|]. intros f [[s p] size] Hf. simpl.
      pose proof (Hrun _ _ Hf) as Hp. simpl in Hp. subst p. eauto.
    + intros ->. done.
Qed.

Lemma summaries_parameters (R : gmap string V -> CVScoreTuple V num -> Prop)
    (configs : list (gmap string V)) (cv_scores : list (CVScoreTuple V num)) :
  Forall2 (fun c t => parameters t = c /\ R c t) configs cv_scores ->
  parameters <$> cv_scores = configs.
Proof.
  induction 1 as [|c t configs cv_scores [Hc _] _ IH]; [done|].
  by rewrite fmap_cons, Hc, IH.
Qed.

Lemma work_units_no_folds (configs : list (gmap string V)) :
  work_units configs [] = [].
Proof.
  apply nil_length_inv. rewrite length_work_units. simpl. lia.
Qed.

(** What a completed search has stored in [cv_scores_]. *)
Lemma completed_search_cv_scores Xv y pit extra w w' :
  _fit Xv y pit extra w = (w', Ok tt) ->
  exists w1 l cv_scores,
    fit_setup Xv y extra w = (w1, Ok l)
    /\ cv_scores_ (attrs (self_obj w')) = Some cv_scores
    /\ Forall2 (fun c t =>
                  parameters t = c
                  /\ Forall2 (fun f s => exists size,
                                run_unit (self_obj w1) l (c, f) = Ok (s, c, size))
                       (local_cv l) (cv_validation_scores t)
                  /\ (iid (self_obj w) = false ->
                      unweighted_mean (length (local_cv l)) (cv_validation_scores t)
                      = Ok (mean_validation_score t)))
         pit.1 cv_scores
    /\ parameters <$> cv_scores = pit.1
    /\ pit.1 <> [] /\ local_cv l <> [] /\ pit.2 = None.
Proof.
  rewrite _fit_unfold. destruct (fit_setup Xv y extra w) as [w1 [l|e]] eqn:Hsetup; [|done].
  intros (out & cv_scores & best & Hpit & Hout & Hagg & Hbest & Hcv & _)%fit_search_ok.
  exists w1, l, cv_scores.
  assert (local_cv l <> []) as Hfolds.
  { intros Hnil. rewrite Hnil in Hagg. by unfold aggregate, py_range in Hagg. }
  rewrite results_by_configuration in Hout.
  destruct (result_mapM _ pit.1) as [groups|] eqn:Hgroups; [|done].
  injection Hout as <-.
  assert (Forall (fun g => length g = length (local_cv l)) groups) as Hlen.
  { apply result_mapM_Ok in Hgroups. clear -Hgroups.
    induction Hgroups as [|c g configs groups Hg _ IH]; constructor; [|done].
    by apply result_mapM_length in Hg. }
  assert (0 < length (local_cv l)) as Hpos.
  { destruct (local_cv l); [done|simpl; lia]. }
  destruct (aggregate_groups (iid (self_obj w1)) _ groups Hpos Hlen) as [Ha _].
  rewrite Ha in Hagg.
  pose proof (summaries_of_groups (run_unit (self_obj w1) l) _ _ _ _ _ _
                (fun u r => fit_grid_point_parameters _ _ _ _ _ _ _ _ _ r) Hgroups Hagg)
    as Hsum.
  pose proof (summaries_parameters _ _ _ Hsum) as Hparams.
  assert (iid (self_obj w1) = iid (self_obj w)) as Hiid.
  { apply fit_setup_ok in Hsetup as (_ & _ & _ & _ & Hw1 & _). by rewrite Hw1. }
  rewrite Hiid in Hsum.
  split_and!; try done.
  intros Hnil. rewrite Hnil in Hparams. apply fmap_nil_inv in Hparams. subst cv_scores.
  unfold select_best, py_sorted in Hbest. by destruct (scorer_greater_is_better _).
Qed.

(** X7. A search that completes has stored in [cv_scores_] one summary
    for each configuration of the parameter iterable, in its order: the
    summary carries the configuration as its parameters and, as its
    [cv_validation_scores], the scores that [fit_grid_point] returned for
    the configuration on each fold, in the order of the folds; with
    [iid=False] its mean score is the sum of these scores divided by
    their number.  It had at least one configuration and one fold to
    evaluate, and iterating the parameters raised nothing. *)
Theorem completed_search_summaries Xv y pit extra w w' :
  _fit Xv y pit extra w = (w', Ok tt) ->
  exists w1 l cv_scores,
    fit_setup Xv y extra w = (w1, Ok l)
    /\ cv_scores_ (attrs (self_obj w')) = Some cv_scores
    /\ Forall2 (fun c t =>
                  parameters t = c
                  /\ Forall2 (fun f s => exists size,
                                run_unit (self_obj w1) l (c, f) = Ok (s, c, size))
                       (local_cv l) (cv_validation_scores t)
                  /\ (iid (self_obj w) = false ->
                      unweighted_mean (length (local_cv l)) (cv_validation_scores t)
                      = Ok (mean_validation_score t)))
         pit.1 cv_scores
    /\ pit.1 <> [] /\ local_cv l <> [] /\ pit.2 = None.
Proof.
  intros (w1 & l & cv_scores & ?)%completed_search_cv_scores.
  exists w1, l, cv_scores. tauto.
Qed.

(** X8. With folds but no configuration to evaluate, [_fit] stores an
    empty [cv_scores_] and raises the [IndexError] of indexing the empty
    ranking; [best_params_], [best_score_] and [best_estimator_] are not
    assigned. *)
Theorem empty_parameter_space Xv y extra w w1 l :
  fit_setup Xv y extra w = (w1, Ok l) ->
  local_cv l <> [] ->
  _fit Xv y ([], None) extra w
  = (mkWorld (with_attrs (set_cv_scores_ []) (self_obj w1)) (warned w1),
     Raise (IndexError "list index out of range")).
Proof.
  intros Hsetup Hfolds. rewrite _fit_unfold, Hsetup, fit_search_unfold. simpl.
  unfold aggregate, py_range.
  destruct (Nat.eqb_spec (length (local_cv l)) 0) as [Hz|_].
  { by apply nil_length_inv in Hz. }
  simpl. unfold select_best, py_sorted.
  by destruct (scorer_greater_is_better _).
Qed.

(** X9. When the cross-validation has no fold, no unit is evaluated
    whatever the configurations are, and [_fit] raises the [ValueError]
    of [range] with a zero step; no attribute but [scorer_] is
    assigned. *)
Theorem cross_validation_without_folds Xv y configs extra w w1 l :
  fit_setup Xv y extra w = (w1, Ok l) ->
  local_cv l = [] ->
  exists msg, _fit Xv y (configs, None) extra w = (w1, Raise (ValueError msg)).
Proof.
  intros Hsetup Hfolds. rewrite _fit_unfold, Hsetup, fit_search_unfold. simpl.
  rewrite Hfolds, work_units_no_folds. simpl. eauto.
Qed.

(** The last step of [_fit]. *)
Lemma fit_search_refit l pit w w' :
  fit_search l pit w = (w', Ok tt) ->
  if refit (self_obj w) then
    exists best configured fitted,
      best_params_ (attrs (self_obj w')) = Some best
      /\ set_params (clone (local_base_estimator l)) best = Ok configured
      /\ est_fit configured (local_X l) (local_y l) (fit_params (self_obj w)) = Ok fitted
      /\ best_estimator_ (attrs (self_obj w')) = Some fitted
  else best_estimator_ (attrs (self_obj w')) = best_estimator_ (attrs (self_obj w)).
Proof.
  rewrite fit_search_unfold.
  destruct (result_mapM _ _) as [out|]; [|done].
  destruct pit.2; [done|].
  destruct (aggregate _ _ _) as [cv_scores|]; [|done]. simpl.
  destruct (select_best _ _) as [best|]; [|done].
  destruct (refit (self_obj w)).
  - destruct (set_params _ _) as [configured|] eqn:Hc; [|done].
    destruct (est_fit _ _ _ _) as [fitted|] eqn:Hf; [|done].
    intros [= <-]. simpl. eauto 10.
  - by intros [= <-].
Qed.

Lemma _fit_refit Xv y pit extra w w' :
  _fit Xv y pit extra w = (w', Ok tt) ->
  exists w1 l,
    fit_setup Xv y extra w = (w1, Ok l)
    /\ scorer_ (attrs (self_obj w')) = Some (local_scorer l)
    /\ if refit (self_obj w) then
         exists best configured fitted,
           best_params_ (attrs (self_obj w')) = Some best
           /\ set_params (clone (clone (estimator (self_obj w)))) best = Ok configured
           /\ est_fit configured (local_X l) (local_y l) (fit_params (self_obj w))
              = Ok fitted
           /\ best_estimator_ (attrs (self_obj w')) = Some fitted
       else best_estimator_ (attrs (self_obj w')) = best_estimator_ (attrs (self_obj w)).
Proof.
  rewrite _fit_unfold. destruct (fit_setup Xv y extra w) as [w1 [l|e]] eqn:Hsetup; [|done].
  intros Hsearch. exists w1, l. split; [done|].
  pose proof (fit_setup_ok _ _ _ _ _ _ Hsetup) as (_ & _ & _ & _ & Hw1 & _ & Hbase).
  pose proof (fit_search_ok _ _ _ _ Hsearch)
    as (_ & _ & _ & _ & _ & _ & _ & _ & _ & _ & Hsc & _).
  split; [by rewrite Hsc, Hw1|].
  apply fit_search_refit in Hsearch. rewrite Hw1 in Hsearch. simpl in Hsearch.
  by rewrite Hbase in Hsearch.
Qed.

(** X10. With [refit=True] a search that completes stores as
    [best_estimator_] the outcome of fitting, on the whole of the checked
    data and with the fit parameters, a clone of the clone of the
    estimator that was given the parameters in [best_params_]. *)
Theorem refit_fits_a_fresh_clone Xv y pit extra w w' :
  refit (self_obj w) = true ->
  _fit Xv y pit extra w = (w', Ok tt) ->
  exists w1 l best configured fitted,
    fit_setup Xv y extra w = (w1, Ok l)
    /\ best_params_ (attrs (self_obj w')) = Some best
    /\ set_params (clone (clone (estimator (self_obj w)))) best = Ok configured
    /\ est_fit configured (local_X l) (local_y l) (fit_params (self_obj w)) = Ok fitted
    /\ best_estimator_ (attrs (self_obj w')) = Some fitted.
Proof.
  intros Hrefit Hfit. apply _fit_refit in Hfit as (w1 & l & Hsetup & _ & Hr).
  rewrite Hrefit in Hr.
  destruct Hr as (best & configured & fitted & ?). exists w1, l, best, configured, fitted.
  tauto.
Qed.

(** X11. An object constructed with [refit=False] has no
    [best_estimator_] after a search that completes: [score], and the
    properties [predict], [predict_proba], [decision_function] and
    [transform], raise [AttributeError]. *)
Theorem without_refit_no_best_estimator (est : E) scoring loss score fp jobs iid
    (cva : CVA) verb pd self Xv y pit extra ws w' :
  BaseSearchCV_init est scoring loss score fp jobs iid false cva verb pd = Ok self ->
  _fit Xv y pit extra (mkWorld self ws) = (w', Ok tt) ->
  best_estimator_ (attrs (self_obj w')) = None
  /\ (forall Xt yt,
        BaseSearchCV_score (self_obj w') Xt yt = Raise (AttributeError "best_estimator_"))
  /\ (forall (A : Type) (getattr : E -> result A),
        BaseSearchCV_delegate getattr (self_obj w')
        = Raise (AttributeError "best_estimator_")).
Proof.
  unfold BaseSearchCV_init. destruct (_check_estimator _); [|done]. simpl.
  intros [= <-] Hfit. apply _fit_refit in Hfit as (w1 & l & _ & _ & Hr). simpl in Hr.
  unfold BaseSearchCV_score, BaseSearchCV_delegate. rewrite Hr. done.
Qed.
End search_more_facts.

Section search_outcome_facts.
Context {V num E X Y Fn FP CVA : Type} `{Number num}
        `{Collaborators V num E X Y Fn FP CVA}.
Implicit Types (w : world V num E Fn FP CVA) (l : fit_locals E X Y Fn).
Implicit Types (self : BaseSearchCV V num E Fn FP CVA).
Implicit Types (pit : list (gmap string V) * option exn).

(** Settles the goal of [attributes_are_set_in_order] on one way out of
    [_fit]. *)
Ltac order_goal Hw0 Hattrs :=
  intros [= <- <-]; simpl; rewrite ?Hw0, ?Hattrs; simpl;
  solve [repeat split; intros; simplify_eq; try done; try (by eexists);
         try (exfalso; eapply is_Some_None; eassumption)].

(** X12. Whatever the outcome of [_fit] on an object without fitted
    attributes is, the attributes exist in the order of their
    assignment: [best_estimator_] only after a completed search with
    [refit=True], [best_score_] exactly when [best_params_] does,
    [best_params_] only with [cv_scores_], [cv_scores_] only with
    [scorer_]; after a completed search the best parameters are there,
    and the best estimator too under [refit=True]. *)
Theorem attributes_are_set_in_order Xv y pit extra w w' r :
  attrs (self_obj w) = unfitted ->
  _fit Xv y pit extra w = (w', r) ->
  let a := attrs (self_obj w') in
  (is_Some (best_estimator_ a) -> r = Ok tt /\ refit (self_obj w) = true)
  /\ (is_Some (best_score_ a) <-> is_Some (best_params_ a))
  /\ (is_Some (best_params_ a) -> is_Some (cv_scores_ a))
  /\ (is_Some (cv_scores_ a) -> is_Some (scorer_ a))
  /\ (r = Ok tt ->
      is_Some (best_params_ a)
      /\ (refit (self_obj w) = true -> is_Some (best_estimator_ a))).
Proof.
  destruct w as [self ws]. simpl. intros Hattrs.
  destruct (resolve_scorer_warned self) as (more & rs & Hr).
  rewrite _fit_unfold, fit_setup_unfold. simpl.
  set (w0 := if decide (extra = ∅) then _ else _).
  assert (self_obj w0 = self) as Hw0 by (unfold w0; by destruct (decide _)).
  rewrite Hr, Hw0. clearbody w0.
  destruct (check_arrays Xv y) as [Xy|]; simpl; [|order_goal Hw0 Hattrs].
  destruct rs as [scorer|]; [|order_goal Hw0 Hattrs].
  simpl.
  assert (forall yl : option Y,
    fit_search
      (mkFitLocals Xy.1 yl scorer
         (check_cv (cv self) Xy.1 yl (is_classifier (estimator self)))
         (clone (estimator self)))
      pit (mkWorld (with_attrs (set_scorer_ scorer) self) (warned w0 ++ more)) = (w', r) ->
    (is_Some (best_estimator_ (attrs (self_obj w'))) -> r = Ok tt /\ refit self = true)
    /\ (is_Some (best_score_ (attrs (self_obj w')))
        <-> is_Some (best_params_ (attrs (self_obj w'))))
    /\ (is_Some (best_params_ (attrs (self_obj w')))
        -> is_Some (cv_scores_ (attrs (self_obj w'))))
    /\ (is_Some (cv_scores_ (attrs (self_obj w')))
        -> is_Some (scorer_ (attrs (self_obj w'))))
    /\ (r = Ok tt ->
        is_Some (best_params_ (attrs (self_obj w')))
        /\ (refit self = true -> is_Some (best_estimator_ (attrs (self_obj w'))))))
    as Hsearch.
  { intros yl. rewrite fit_search_unfold. simpl.
    destruct (result_mapM _ _) as [out|]; [|order_goal Hw0 Hattrs].
    destruct pit.2; [order_goal Hw0 Hattrs|].
    destruct (aggregate _ _ _) as [cv_scores|]; [|order_goal Hw0 Hattrs].
    destruct (select_best _ _) as [best|]; [|order_goal Hw0 Hattrs].
    destruct (refit self) eqn:Hrefit; [|order_goal Hw0 Hattrs].
    destruct (set_params _ _) as [configured|]; [|order_goal Hw0 Hattrs].
    destruct (est_fit _ _ _ _) as [fitted|]; order_goal Hw0 Hattrs. }
  destruct Xy.2 as [yv|]; [|by apply Hsearch].
  destruct (decide (len_targets yv = num_samples Xv)); [by apply Hsearch|].
  order_goal Hw0 Hattrs.
Qed.

(** X13. When the checked target has not as many values as [X] has
    samples, [_fit] raises whatever the parameters are: the [ValueError]
    about the numbers of samples, with [scorer_] already assigned, unless
    [scoring] names a scorer that does not exist, which raises the
    [KeyError] first. *)
Theorem target_length_mismatch Xv y pit extra w (Xc : X) (yc : Y) :
  check_arrays Xv y = Ok (Xc, Some yc) ->
  len_targets yc <> num_samples Xv ->
  exists w',
    (exists msg, _fit Xv y pit extra w = (w', Raise (ValueError msg))
                 /\ is_Some (scorer_ (attrs (self_obj w'))))
    \/ (exists name, _fit Xv y pit extra w = (w', Raise (KeyError name))
                     /\ scoring (self_obj w) = ScoringName name
                     /\ SCORERS (V := V) (num := num) (E := E) (X := X) (Y := Y)
                          (FP := FP) (CVA := CVA) !! name = None).
Proof.
  intros Hcheck Hlen. rewrite _fit_unfold, fit_setup_unfold. simpl.
  set (w0 := if decide (extra = ∅) then _ else _). rewrite Hcheck. simpl.
  unfold resolve_scorer, bindM, warn, retM, liftM.
  destruct (loss_func (self_obj w)); simpl.
  { rewrite decide_False by done. eexists. left. eexists. split; [done|by eexists]. }
  destruct (score_func (self_obj w)); simpl.
  { rewrite decide_False by done. eexists. left. eexists. split; [done|by eexists]. }
  destruct (scoring (self_obj w)) as [|name|s]; simpl.
  - rewrite decide_False by done. eexists. left. eexists. split; [done|by eexists].
  - destruct (SCORERS !! name) eqn:Hname; simpl.
    + rewrite decide_False by done. eexists. left. eexists. split; [done|by eexists].
    + eexists. right. exists name. done.
  - rewrite decide_False by done. eexists. left. eexists. split; [done|by eexists].
Qed.

(** X14. The constructor accepts any string as [scoring]: a name that
    [SCORERS] does not hold is rejected by [_fit] only, with a [KeyError]
    for the name, before any attribute is assigned and whatever the
    parameter iterable is. *)
Theorem unknown_scoring_name (est : E) (name : string) fp jobs iid refit (cva : CVA)
    verb pd Xv y (Xy : X * option Y) :
  has_fit est = true ->
  has_predict est || has_score est = true ->
  SCORERS (V := V) (num := num) (E := E) (X := X) (Y := Y) (FP := FP) (CVA := CVA)
    !! name = None ->
  check_arrays Xv y = Ok Xy ->
  exists self,
    BaseSearchCV_init est (ScoringName name) None None fp jobs iid refit cva verb pd
    = Ok self
    /\ forall pit extra ws, exists ws',
         _fit Xv y pit extra (mkWorld self ws)
         = (mkWorld self ws', Raise (KeyError name)).
Proof.
  intros Hfit Hps Hname Hcheck. unfold BaseSearchCV_init, _check_estimator. simpl.
  rewrite Hfit, Hps. simpl. eexists. split; [done|].
  intros pit extra ws. rewrite _fit_unfold, fit_setup_unfold. simpl.
  rewrite Hcheck. unfold resolve_scorer. simpl. rewrite Hname. unfold liftM.
  destruct (decide (extra = ∅)); by eexists.
Qed.

(** X15. When cloning, setting parameters and fitting keep the [score]
    method of an estimator, an object the constructor accepted with
    [refit=True] can score after a completed search: [score] is the
    result of the best estimator's own [score] or of a call of the
    scorer, never the error about a missing score function nor an
    [AttributeError]. *)
Theorem fitted_search_can_score (est : E) scoring loss score fp jobs iid (cva : CVA)
    verb pd self Xv y pit extra ws w' :
  (forall e : E, has_score (clone e) = has_score e) ->
  (forall (e e' : E) (p : gmap string V), set_params e p = Ok e' -> has_score e' = has_score e) ->
  (forall (e e' : E) (Xf : X) (yf : option Y) (fpf : FP),
     est_fit e Xf yf fpf = Ok e' -> has_score e' = has_score e) ->
  BaseSearchCV_init est scoring loss score fp jobs iid true cva verb pd = Ok self ->
  _fit Xv y pit extra (mkWorld self ws) = (w', Ok tt) ->
  exists best,
    best_estimator_ (attrs (self_obj w')) = Some best
    /\ forall Xt yt,
         BaseSearchCV_score (self_obj w') Xt yt = est_score best Xt yt
         \/ exists scorer,
              BaseSearchCV_score (self_obj w') Xt yt = call_scorer scorer best Xt yt.
Proof.
  intros Hclone Hset Hfitted Hinit Hfit.
  unfold BaseSearchCV_init in Hinit.
  destruct (_check_estimator _) eqn:Hcheck; [|done]. simpl in Hinit.
  injection Hinit as <-.
  apply _fit_refit in Hfit as (w1 & l & Hsetup & Hscorer & Hr). simpl in Hr.
  destruct Hr as (best & configured & fitted & _ & Hc & Hf & Hbest).
  exists fitted. split; [done|]. intros Xt yt.
  unfold BaseSearchCV_score. rewrite Hbest, Hscorer.
  assert (has_score fitted = has_score est) as Hsame.
  { rewrite (Hfitted _ _ _ _ _ Hf), (Hset _ _ _ Hc), !Hclone. done. }
  destruct (has_score fitted); [by left|]. right.
  destruct (local_scorer l) as [scorer|] eqn:Hl; [eauto|]. exfalso.
  apply fit_setup_ok in Hsetup as (w0 & w0' & Hres & _). simpl in Hres.
  rewrite Hl in Hres.
  unfold _check_estimator in Hcheck. simpl in Hcheck. rewrite <- Hsame in Hcheck.
  unfold resolve_scorer, bindM, warn, retM, liftM in Hres. simpl in Hres.
  destruct loss; [done|]. destruct score; [done|].
  destruct scoring as [|name|s]; [|by destruct (SCORERS !! name)|done].
  destruct (negb (has_fit est) || negb (has_predict est || false)); done.
Qed.

(** X16. [BaseSearchCV.__init__] succeeds exactly when the estimator
    has [fit], has [predict] or [score], and has [score] unless one of
    [scoring], [loss_func] and [score_func] is given; every failure is a
    [TypeError]; and the object it returns holds the estimator and no
    fitted attribute. *)
Theorem construction_requirements (est : E) scoring loss score fp jobs iid refit
    (cva : CVA) verb pd :
  (is_ok (BaseSearchCV_init est scoring loss score fp jobs iid refit cva verb pd) = true
   <-> has_fit est = true
       /\ (has_predict est = true \/ has_score est = true)
       /\ (has_score est = true \/ scoring <> NoScoring \/ is_Some loss \/ is_Some score))
  /\ (forall e,
        BaseSearchCV_init est scoring loss score fp jobs iid refit cva verb pd = Raise e ->
        exists msg, e = TypeError msg)
  /\ (forall self,
        BaseSearchCV_init est scoring loss score fp jobs iid refit cva verb pd = Ok self ->
        attrs self = unfitted /\ estimator self = est).
Proof.
  unfold BaseSearchCV_init, _check_estimator. simpl.
  destruct (has_fit est), (has_predict est), (has_score est); simpl.
  all: destruct scoring as [|name|s], loss as [lf|], score as [sf|]; simpl.
  all: split_and!;
         [split;
            [intros Hok;
             first [done
                   |split_and!;
                      [done|first [by left|by right]
                      |first [by left|by right; left|by right; right; left; eexists
                             |by right; right; right; eexists]]]
            |intros (Hf & [Hp|Hp] & [Hs|[Hs|[[? Hs]|[? Hs]]]]); done]
         |intros e [= <-]; eauto
         |intros self [= <-]; done].
Qed.

Lemma fit_search_only_attrs l pit w :
  exists a r,
    fit_search l pit w = (mkWorld (with_attrs (fun _ => a) (self_obj w)) (warned w), r).
Proof.
  rewrite fit_search_unfold. destruct w as [self ws]. simpl.
  destruct (result_mapM _ _) as [out|].
  2:{ exists (attrs self). eexists. by destruct self. }
  destruct pit.2.
  { exists (attrs self). eexists. by destruct self. }
  destruct (aggregate _ _ _) as [cv_scores|].
  2:{ exists (attrs self). eexists. by destruct self. }
  destruct (select_best _ _) as [best|]; [|by eexists _, _].
  destruct (refit self); [|by eexists _, _].
  destruct (set_params _ _) as [configured|]; [|by eexists _, _].
  destruct (est_fit _ _ _ _); by eexists _, _.
Qed.

(** X17. Whatever its outcome is, [_fit] changes nothing of the object
    but its fitted attributes (the estimator and the other constructor
    parameters are those of before the call) and keeps the warnings
    issued before it. *)
Theorem fit_sets_only_fitted_attributes Xv y pit extra w :
  exists a more r,
    _fit Xv y pit extra w
    = (mkWorld (with_attrs (fun _ => a) (self_obj w)) (warned w ++ more), r).
Proof.
  destruct w as [self ws]. simpl.
  destruct (resolve_scorer_warned self) as (more & rs & Hr).
  rewrite _fit_unfold, fit_setup_unfold. simpl.
  set (pre := if decide (extra = ∅) then []
              else [mkWarning UserWarning additional_parameters_message]).
  assert ((if decide (extra = ∅) then mkWorld self ws
           else mkWorld self
                  (ws ++ [mkWarning UserWarning additional_parameters_message]))
          = mkWorld self (ws ++ pre)) as ->.
  { unfold pre. destruct (decide (extra = ∅)); [by rewrite app_nil_r|done]. }
  rewrite Hr. simpl. rewrite <- (assoc_L (++)).
  destruct (check_arrays Xv y) as [Xy|e].
  2:{ exists (attrs self), pre, (Raise e). by destruct self. }
  destruct rs as [scorer|e].
  2:{ exists (attrs self), (pre ++ more), (Raise e). by destruct self. }
  assert (forall l, exists a r,
            fit_search l pit (mkWorld (with_attrs (set_scorer_ scorer) self)
                                (ws ++ pre ++ more))
            = (mkWorld (with_attrs (fun _ => a) self) (ws ++ pre ++ more), r)) as Hsearch.
  { intros l. destruct (fit_search_only_attrs l pit
                          (mkWorld (with_attrs (set_scorer_ scorer) self)
                             (ws ++ pre ++ more))) as (a & r & Hs).
    exists a, r. by rewrite Hs. }
  destruct Xy.2 as [yv|].
  - destruct (decide (len_targets yv = num_samples Xv)).
    + destruct (Hsearch (mkFitLocals Xy.1 (Some (asarray yv)) scorer
                           (check_cv (cv self) Xy.1 (Some (asarray yv))
                              (is_classifier (estimator self)))
                           (clone (estimator self)))) as (a & r & ->).
      by exists a, (pre ++ more), r.
    + by eexists _, (pre ++ more), _.
  - destruct (Hsearch (mkFitLocals Xy.1 None scorer
                         (check_cv (cv self) Xy.1 None (is_classifier (estimator self)))
                         (clone (estimator self)))) as (a & r & ->).
    by exists a, (pre ++ more), r.
Qed.
End search_outcome_facts.

(** ** More on [GridSearchCV] and [RandomizedSearchCV] *)

Section grid_iteration_facts.
Context {V : Type}.
Implicit Types (v : param_value V) (g : gmap string (param_value V)).
Implicit Types (d : grid_descriptor (param_value V)).

Lemma py_iter_valid v : valid_value v -> py_iter v = Ok (value_items v).
Proof. destruct v as [l|l|[|[|n]] l|o]; simpl; try done; by intros [? ?]. Qed.

(** Iterating a group of accepted values cannot fail. *)
Lemma sequences_of_valid g :
  map_Forall (fun _ v => valid_value v) g ->
  sequences_of g = Ok (value_items <$> g).
Proof.
  intros Hg. unfold sequences_of.
  assert (result_mapM (fun kv : string * param_value V => pair kv.1 <$> py_iter kv.2)
            (map_to_list g)
          = Ok (prod_map id value_items <$> map_to_list g)) as ->.
  { apply result_mapM_Ok, Forall2_fmap_r, Forall_Forall2_diag, Forall_forall.
    intros [k v] Hin%elem_of_map_to_list. simpl.
    by rewrite (py_iter_valid v (Hg k v Hin)). }
  simpl. by rewrite list_to_map_fmap, list_to_map_to_list.
Qed.

Lemma grid_iteration_valid (groups : list (gmap string (param_value V))) :
  Forall (map_Forall (fun _ v => valid_value v)) groups ->
  grid_iteration groups
  = (ParameterGrid_iter (fmap (M := gmap string) value_items <$> groups), None).
Proof.
  induction 1 as [|g groups Hg _ IH]; [done|].
  rewrite fmap_cons, ParameterGrid_iter_cons, <- ParameterGrid_iter_group.
  cbn [grid_iteration]. by rewrite (sequences_of_valid g Hg), IH.
Qed.

Lemma descriptor_values_groups d :
  Forall valid_value (descriptor_values d)
  <-> Forall (map_Forall (fun _ v => valid_value v))
        (match d with OneGroup g => [g] | Groups gs => gs end).
Proof.
  assert (forall g, Forall valid_value (map_to_list g).*2
                    <-> map_Forall (fun _ v => valid_value v) g) as Hg.
  { intros g. rewrite map_Forall_to_list, Forall_fmap. apply Forall_proper; [|done].
    by intros [k v]. }
  destruct d as [g|gs]; simpl.
  - rewrite Hg. split; [by constructor|by inversion 1].
  - induction gs as [|g gs IH]; [done|].
    by rewrite bind_cons, Forall_app, Forall_cons, IH, Hg.
Qed.

Lemma prod_list_positive (ns : list nat) :
  Forall (fun n => 0 < n) ns -> 0 < prod_list ns.
Proof. induction 1 as [|n ns Hn _ IH]; simpl; [lia|nia]. Qed.

Lemma group_size_positive (g : gmap string (list V)) :
  map_Forall (fun _ vs => vs <> []) g -> 0 < group_size g.
Proof.
  intros Hg. rewrite group_size_prod_list. apply prod_list_positive.
  rewrite !Forall_fmap. apply map_Forall_to_list in Hg.
  eapply Forall_impl; [exact Hg|]. intros [k [|v vs]] Hvs; simpl in *; [done|lia].
Qed.

Lemma value_items_nonempty v : valid_value v -> value_items v <> [].
Proof. destruct v as [l|l|n l|o]; simpl; try done. by intros [_ ?]. Qed.

(** X18. The iteration of a grid that [_check_param_grid] accepts cannot
    raise: it yields the configurations of [ParameterGrid] over the
    elements of the values, as many as the sizes of the groups add up
    to, and at least one for each group. *)
Theorem validated_grid_is_enumerated d :
  Forall valid_value (descriptor_values d) ->
  grid_iteration (match d with OneGroup g => [g] | Groups gs => gs end)
  = (ParameterGrid_iter (ParameterGrid_init (descriptor_sequences d)), None)
  /\ length (ParameterGrid_iter (ParameterGrid_init (descriptor_sequences d)))
     = grid_size (descriptor_sequences d)
  /\ length (match d with OneGroup g => [g] | Groups gs => gs end)
     <= length (ParameterGrid_iter (ParameterGrid_init (descriptor_sequences d))).
Proof.
  intros Hd%descriptor_values_groups.
  assert (ParameterGrid_init (descriptor_sequences d)
          = fmap (M := gmap string) value_items
              <$> (match d with OneGroup g => [g] | Groups gs => gs end)) as Hinit
    by (by destruct d).
  split_and!.
  - by rewrite grid_iteration_valid, Hinit.
  - rewrite length_ParameterGrid_iter. destruct d as [g|gs]; simpl; [lia|done].
  - rewrite Hinit, length_ParameterGrid_iter. clear Hinit. revert Hd.
    generalize (match d with OneGroup g => [g] | Groups gs => gs end).
    intros groups Hd. induction Hd as [|g gs Hg _ IH]; [done|].
    rewrite !fmap_cons. simpl.
    assert (0 < group_size (value_items <$> g)); [|lia].
    apply group_size_positive. apply map_Forall_fmap.
    intros k v Hk. simpl. apply value_items_nonempty, (Hg k v Hk).
Qed.
End grid_iteration_facts.

Section grid_search_facts.
Context {V num E X Y Fn FP CVA : Type} `{Number num}
        `{Collaborators V num E X Y Fn FP CVA}.

(** X19. After a [fit] that completes on a [GridSearchCV] object the
    constructor returned, [cv_scores_] holds one summary for each
    configuration of the grid, in the order in which [ParameterGrid]
    enumerates them, so as many as the grid has configurations; the
    deprecated [grid_scores_] returns the same list, and [param_grid] is
    unchanged. *)
Theorem grid_search_scores_follow_the_grid (est : E)
    (d : grid_descriptor (param_value V)) scoring loss score fp jobs iid refit
    (cva : CVA) verb pd self Xv y extra after ws :
  GridSearchCV_init est d scoring loss score fp jobs iid refit cva verb pd = Ok self ->
  GridSearchCV_fit self Xv y extra = (after, ws, Ok tt) ->
  exists cv_scores,
    cv_scores_ (attrs (grid_base after)) = Some cv_scores
    /\ (GridSearchCV_grid_scores_ after).2 = Ok cv_scores
    /\ parameters <$> cv_scores
       = ParameterGrid_iter (ParameterGrid_init (descriptor_sequences d))
    /\ length cv_scores = grid_size (descriptor_sequences d)
    /\ param_grid after = d.
Proof.
  unfold GridSearchCV_init.
  destruct (BaseSearchCV_init _ _ _ _ _ _ _ _ _ _ _) as [base|]; [|done]. simpl.
  destruct (_check_param_grid d) as [[]|] eqn:Hd; [|done]. simpl.
  intros [= <-]. apply _check_param_grid_valid in Hd.
  unfold GridSearchCV_fit. simpl.
  assert (grid_iteration (match d with OneGroup g => [g] | Groups gs => gs end)
          = (ParameterGrid_iter (ParameterGrid_init (descriptor_sequences d)), None))
    as ->.
  { assert (ParameterGrid_init (descriptor_sequences d)
            = fmap (M := gmap string) value_items
                <$> (match d with OneGroup g => [g] | Groups gs => gs end)) as ->
      by (by destruct d).
    by apply grid_iteration_valid, descriptor_values_groups. }
  destruct (_fit _ _ _ _ _) as [w r] eqn:Hfit. intros [= <- <- ->].
  apply completed_search_cv_scores in Hfit
    as (w1 & l & cv_scores & _ & Hcv & _ & Hparams & _).
  simpl in *. exists cv_scores. unfold GridSearchCV_grid_scores_. simpl.
  rewrite Hcv. split_and!; try done.
  rewrite <- (length_fmap parameters), Hparams, length_ParameterGrid_iter.
  destruct d as [g|gs]; simpl; [lia|done].
Qed.
End grid_search_facts.

Section randomized_search_facts.
Context {V num E X Y Fn FP CVA G : Type} `{Number num}
        `{Collaborators V num E X Y Fn FP CVA} `{RandomState G}.

End randomized_search_facts.

Section randomized_sample_facts.
Context {V num E X Y Fn FP CVA G : Type} `{Number num}
        `{Collaborators V num E X Y Fn FP CVA} `{RandomState G}.

(** A pass that ends without an exception has yielded the number of
    configurations asked for. *)
Lemma draws_complete (count : nat) (axes : list (string * distribution V G))
    (rnd : rnd_handle G) (w : rng_world G) :
  (draws count axes rnd w).1.2 = None -> length (draws count axes rnd w).1.1 = count.
Proof.
  revert rnd w. induction count as [|count IH]; intros rnd w; [done|].
  simpl. destruct (one_draw axes rnd w) as [[[c rnd'] w']|]; [|done].
  specialize (IH rnd' w'). destruct (draws count axes rnd' w') as [[more err] w''].
  simpl in *. intros Herr. by rewrite IH.
Qed.

(** X21. After a [RandomizedSearchCV.fit] that completes, the
    parameters of the summaries in [cv_scores_] are, in order, the
    configurations that the pass of the sampler yields, which ended
    without an exception and left the generators as [fit] leaves them;
    there are exactly [n_iter] summaries, and the parameters of each are
    over the names of [param_distributions]. *)
Theorem randomized_search_scores_follow_the_sample
    (self : @RandomizedSearchCV V num E Fn FP CVA G) (Xv : X) (y : option Y)
    (extra : gmap string V) (rw rw' : rng_world G) after ws :
  RandomizedSearchCV_fit self Xv y extra rw = (after, ws, Ok tt, rw') ->
  exists cv_scores,
    cv_scores_ (attrs (rand_base after)) = Some cv_scores
    /\ (parameters <$> cv_scores, None, rw')
       = ParameterSampler_iter
           (mkParameterSampler (rand_param_distributions self) (rand_n_iter self)
              (rand_random_state self)) rw
    /\ Z.of_nat (length cv_scores) = rand_n_iter self
    /\ Forall (fun t => dom (parameters t) = dom (rand_param_distributions self))
         cv_scores.
Proof.
  unfold RandomizedSearchCV_fit.
  rewrite ParameterSampler_iter_sorted. unfold sampled_configurations. simpl.
  pose proof (draws_complete (Z.to_nat (rand_n_iter self))
                (merge_sort name_le (map_to_list (rand_param_distributions self)))
                (check_random_state (rand_random_state self)) rw) as Hcount.
  pose proof (fun c => draws_names (Z.to_nat (rand_n_iter self))
                (merge_sort name_le (map_to_list (rand_param_distributions self)))
                (check_random_state (rand_random_state self)) rw c) as Hnames.
  destruct (draws _ _ _ rw) as [[yielded err] rw1]. simpl in *.
  destruct (_fit _ _ _ _ _) as [w r] eqn:Hfit. intros Heq. simplify_eq.
  apply completed_search_cv_scores in Hfit
    as (w1 & l & cv_scores & _ & Hcv & _ & Hparams & Hne & _ & Herr).
  simpl in *. subst err yielded. exists cv_scores. split_and!; [done|done| |].
  - specialize (Hcount eq_refl). rewrite length_fmap in Hcount.
    destruct cv_scores; [by destruct Hne|]. cbn [length] in *. lia.
  - apply Forall_forall. intros t Ht.
    rewrite (Hnames (parameters t)) by (by apply list_elem_of_fmap_2).
    apply set_eq. intros k.
    rewrite (dom_alt (rand_param_distributions self)), !elem_of_list_to_set.
    by rewrite merge_sort_Permutation.
Qed.
End randomized_sample_facts.

(** ** The further properties on concrete inputs *)

Lemma additional_parameters_only_warn_witness :
  ({[ "n_jobs" := 2%Z ]} : gmap string Z) <> ∅
  /\ exists self' more r,
       (forall ws,
          _fit toy_X (Some toy_y) (toy_configs, None) ∅
            (mkWorld (toy_search None None NoScoring true) ws)
          = (mkWorld self' (ws ++ more), r))
       /\ (forall ws,
             _fit toy_X (Some toy_y) (toy_configs, None) {[ "n_jobs" := 2%Z ]}
               (mkWorld (toy_search None None NoScoring true) ws)
             = (mkWorld self'
                  (ws ++ mkWarning UserWarning additional_parameters_message :: more),
                r)).
Proof.
  assert (({[ "n_jobs" := 2%Z ]} : gmap string Z) <> ∅) as Hne.
  { intros Heq. apply (f_equal (lookup "n_jobs")) in Heq. discriminate Heq. }
  split; [exact Hne|].
  exact (additional_parameters_only_warn toy_X (Some toy_y) (toy_configs, None) _
           (toy_search None None NoScoring true) Hne).
Defined.

Lemma completed_search_summaries_witness :
  _fit toy_X (Some toy_y) (toy_configs, None) ∅ (toy_world None None NoScoring)
  = (toy_fit_outcome.1, Ok tt)
  /\ exists cv_scores,
       cv_scores_ (attrs (self_obj toy_fit_outcome.1)) = Some cv_scores
       /\ parameters <$> cv_scores = toy_configs.
Proof.
  assert (_fit toy_X (Some toy_y) (toy_configs, None) ∅ (toy_world None None NoScoring)
          = (toy_fit_outcome.1, Ok tt)) as Hfit by (vm_compute; reflexivity).
  split; [exact Hfit|].
  destruct (completed_search_summaries _ _ _ _ _ _ Hfit)
    as (w1 & l & cv_scores & _ & Hcv & Hsum & _).
  exists cv_scores. split; [exact Hcv|].
  exact (summaries_parameters _ _ _ Hsum).
Defined.

Lemma empty_parameter_space_witness :
  fit_setup toy_X (Some toy_y) ∅ (toy_world None None NoScoring)
  = (toy_setup_outcome.1, Ok toy_locals)
  /\ local_cv toy_locals <> []
  /\ _fit toy_X (Some toy_y) ([], None) ∅ (toy_world None None NoScoring)
     = (mkWorld (with_attrs (set_cv_scores_ []) (self_obj toy_setup_outcome.1))
          (warned toy_setup_outcome.1),
        Raise (IndexError "list index out of range")).
Proof.
  assert (fit_setup toy_X (Some toy_y) ∅ (toy_world None None NoScoring)
          = (toy_setup_outcome.1, Ok toy_locals)) as Hsetup by (vm_compute; reflexivity).
  assert (local_cv toy_locals <> []) as Hfolds by discriminate.
  split_and!; [exact Hsetup|exact Hfolds|].
  exact (empty_parameter_space toy_X (Some toy_y) ∅ _ _ _ Hsetup Hfolds).
Defined.

Lemma cross_validation_without_folds_witness :
  fit_setup toy_X (Some toy_y) ∅ (mkWorld (toy_search_on true NoScoring true []) [])
  = (mkWorld (with_attrs (set_scorer_ None) (toy_search_on true NoScoring true [])) [],
     Ok (mkFitLocals toy_X (Some toy_y) None [] (mkToy 1 true None)))
  /\ exists msg,
       _fit toy_X (Some toy_y) (toy_configs, None) ∅
         (mkWorld (toy_search_on true NoScoring true []) [])
       = (mkWorld (with_attrs (set_scorer_ None) (toy_search_on true NoScoring true []))
            [],
          Raise (ValueError msg)).
Proof.
  assert (fit_setup toy_X (Some toy_y) ∅
            (mkWorld (toy_search_on true NoScoring true []) [])
          = (mkWorld (with_attrs (set_scorer_ None)
                        (toy_search_on true NoScoring true [])) [],
             Ok (mkFitLocals toy_X (Some toy_y) None [] (mkToy 1 true None)))) as Hsetup
    by (vm_compute; reflexivity).
  split; [exact Hsetup|].
  exact (cross_validation_without_folds toy_X (Some toy_y) toy_configs ∅ _ _ _
           Hsetup eq_refl).
Defined.

Lemma refit_fits_a_fresh_clone_witness :
  refit (self_obj (toy_world None None NoScoring)) = true
  /\ _fit toy_X (Some toy_y) (toy_configs, None) ∅ (toy_world None None NoScoring)
     = (toy_fit_outcome.1, Ok tt)
  /\ exists best configured fitted,
       best_params_ (attrs (self_obj toy_fit_outcome.1)) = Some best
       /\ set_params (clone (clone (mkToy 1 true None))) best = Ok configured
       /\ est_fit configured toy_X (Some toy_y) tt = Ok fitted
       /\ best_estimator_ (attrs (self_obj toy_fit_outcome.1)) = Some fitted.
Proof.
  assert (_fit toy_X (Some toy_y) (toy_configs, None) ∅ (toy_world None None NoScoring)
          = (toy_fit_outcome.1, Ok tt)) as Hfit by (vm_compute; reflexivity).
  split_and!; [reflexivity|exact Hfit|].
  destruct (refit_fits_a_fresh_clone toy_X (Some toy_y) (toy_configs, None) ∅
              (toy_world None None NoScoring) _ eq_refl Hfit)
    as (w1 & l & best & configured & fitted & Hsetup & Hb & Hc & Hf & He).
  assert (fit_setup toy_X (Some toy_y) ∅ (toy_world None None NoScoring)
          = (toy_setup_outcome.1, Ok toy_locals)) as Hs by (vm_compute; reflexivity).
  rewrite Hs in Hsetup. injection Hsetup as _ <-.
  exists best, configured, fitted. split_and!; [exact Hb|exact Hc|exact Hf|exact He].
Defined.

Lemma without_refit_no_best_estimator_witness :
  BaseSearchCV_init (mkToy 1 true None) NoScoring None None None 1%Z true false
    toy_folds 0%Z (DispatchExpr "2*n_jobs")
  = Ok (toy_search_on true NoScoring false toy_folds)
  /\ (_fit toy_X (Some toy_y) (toy_configs, None) ∅
        (mkWorld (toy_search_on true NoScoring false toy_folds) [])).2 = Ok tt
  /\ BaseSearchCV_score
       (self_obj (_fit toy_X (Some toy_y) (toy_configs, None) ∅
                    (mkWorld (toy_search_on true NoScoring false toy_folds) [])).1)
       toy_X (Some toy_y)
     = Raise (AttributeError "best_estimator_").
Proof.
  assert (BaseSearchCV_init (mkToy 1 true None) NoScoring None None None 1%Z true false
            toy_folds 0%Z (DispatchExpr "2*n_jobs")
          = Ok (toy_search_on true NoScoring false toy_folds)) as Hinit by reflexivity.
  assert ((_fit toy_X (Some toy_y) (toy_configs, None) ∅
             (mkWorld (toy_search_on true NoScoring false toy_folds) [])).2 = Ok tt)
    as Hok by (vm_compute; reflexivity).
  split_and!; [exact Hinit|exact Hok|].
  assert (_fit toy_X (Some toy_y) (toy_configs, None) ∅
            (mkWorld (toy_search_on true NoScoring false toy_folds) [])
          = ((_fit toy_X (Some toy_y) (toy_configs, None) ∅
                (mkWorld (toy_search_on true NoScoring false toy_folds) [])).1, Ok tt))
    as Hfit by (rewrite <- Hok; apply surjective_pairing).
  exact (proj1 (proj2 (without_refit_no_best_estimator _ _ _ _ _ _ _ _ _ _ _ _ _ _ _ _ _
                         Hinit Hfit)) toy_X (Some toy_y)).
Defined.

Lemma attributes_are_set_in_order_witness :
  attrs (self_obj (toy_world None None NoScoring)) = unfitted
  /\ (is_Some (best_params_
                 (attrs (self_obj
                    (_fit toy_X (Some toy_y) (toy_failing_configs, None) ∅
                       (toy_world None None NoScoring)).1)))
      -> is_Some (cv_scores_
                    (attrs (self_obj
                       (_fit toy_X (Some toy_y) (toy_failing_configs, None) ∅
                          (toy_world None None NoScoring)).1)))).
Proof.
  split; [reflexivity|].
  exact (proj1 (proj2 (proj2
    (attributes_are_set_in_order toy_X (Some toy_y) (toy_failing_configs, None) ∅
       (toy_world None None NoScoring) _ _ eq_refl
       (surjective_pairing
          (_fit toy_X (Some toy_y) (toy_failing_configs, None) ∅
             (toy_world None None NoScoring))))))).
Defined.

Lemma target_length_mismatch_witness :
  check_arrays toy_X (Some short_y) = Ok (toy_X, Some short_y)
  /\ len_targets short_y <> num_samples toy_X
  /\ exists w',
       (exists msg,
          _fit toy_X (Some short_y) (toy_configs, None) ∅ (toy_world None None NoScoring)
          = (w', Raise (ValueError msg))
          /\ is_Some (scorer_ (attrs (self_obj w'))))
       \/ (exists name,
             _fit toy_X (Some short_y) (toy_configs, None) ∅
               (toy_world None None NoScoring)
             = (w', Raise (KeyError name))
             /\ scoring (self_obj (toy_world None None NoScoring)) = ScoringName name
             /\ SCORERS (V := Z) (num := Q) (E := toy_estimator) (X := list Q)
                  (Y := list Q) (FP := unit) (CVA := list fold) !! name = None).
Proof.
  assert (len_targets short_y <> num_samples toy_X) as Hlen by discriminate.
  split_and!; [reflexivity|exact Hlen|].
  exact (target_length_mismatch toy_X (Some short_y) (toy_configs, None) ∅
           (toy_world None None NoScoring) toy_X short_y eq_refl Hlen).
Defined.

Lemma unknown_scoring_name_witness :
  has_fit (mkToy 1 true None) = true
  /\ has_predict (mkToy 1 true None) || has_score (mkToy 1 true None) = true
  /\ SCORERS (V := Z) (num := Q) (E := toy_estimator) (X := list Q) (Y := list Q)
       (FP := unit) (CVA := list fold) !! "accuracy" = None
  /\ check_arrays toy_X (Some toy_y) = Ok (toy_X, Some toy_y)
  /\ exists self,
       BaseSearchCV_init (mkToy 1 true None) (ScoringName "accuracy") None None None
         1%Z true true toy_folds 0%Z DispatchAll = Ok self
       /\ forall pit extra ws, exists ws',
            _fit toy_X (Some toy_y) pit extra (mkWorld self ws)
            = (mkWorld self ws', Raise (KeyError "accuracy")).
Proof.
  split_and!; [reflexivity|reflexivity|reflexivity|reflexivity|].
  exact (unknown_scoring_name (mkToy 1 true None) "accuracy" None 1%Z true true toy_folds
           0%Z DispatchAll toy_X (Some toy_y) (toy_X, Some toy_y)
           eq_refl eq_refl eq_refl eq_refl).
Defined.

Lemma fitted_search_can_score_witness :
  (forall e : toy_estimator, has_score (clone e) = has_score e)
  /\ BaseSearchCV_init (mkToy 1 false None)
       (ScoringObject (ScoringCallable "my_scoring" None)) None None None 1%Z true true
       toy_folds 0%Z (DispatchExpr "2*n_jobs")
     = Ok (toy_search_on false (ScoringObject (ScoringCallable "my_scoring" None)) true
             toy_folds)
  /\ (_fit toy_X (Some toy_y) (toy_configs, None) ∅
        (mkWorld (toy_search_on false (ScoringObject (ScoringCallable "my_scoring" None))
                    true toy_folds) [])).2 = Ok tt
  /\ exists best,
       best_estimator_
         (attrs (self_obj
            (_fit toy_X (Some toy_y) (toy_configs, None) ∅
               (mkWorld (toy_search_on false
                           (ScoringObject (ScoringCallable "my_scoring" None))
                           true toy_folds) [])).1)) = Some best
       /\ forall Xt yt,
            BaseSearchCV_score
              (self_obj
                 (_fit toy_X (Some toy_y) (toy_configs, None) ∅
                    (mkWorld (toy_search_on false
                                (ScoringObject (ScoringCallable "my_scoring" None))
                                true toy_folds) [])).1) Xt yt
            = est_score best Xt yt
            \/ exists scorer,
                 BaseSearchCV_score
                   (self_obj
                      (_fit toy_X (Some toy_y) (toy_configs, None) ∅
                         (mkWorld (toy_search_on false
                                     (ScoringObject (ScoringCallable "my_scoring" None))
                                     true toy_folds) [])).1) Xt yt
                 = call_scorer scorer best Xt yt.
Proof.
  assert (forall e : toy_estimator, has_score (clone e) = has_score e) as Hclone
    by (intros e; reflexivity).
  assert (forall (e e' : toy_estimator) (p : gmap string Z),
            set_params e p = Ok e' -> has_score e' = has_score e) as Hset.
  { intros e e' p. simpl. destruct (p !! "c"); [by intros [= <-]|].
    destruct (decide (p = ∅)); [by intros [= <-]|done]. }
  assert (forall (e e' : toy_estimator) (Xf : list Q) (yf : option (list Q)) (fpf : unit),
            est_fit e Xf yf fpf = Ok e' -> has_score e' = has_score e) as Hfitted.
  { intros e e' Xf yf fpf. simpl. destruct (toy_c e <? 0)%Z; [done|by intros [= <-]]. }
  assert (BaseSearchCV_init (mkToy 1 false None)
            (ScoringObject (ScoringCallable "my_scoring" None)) None None None 1%Z true
            true toy_folds 0%Z (DispatchExpr "2*n_jobs")
          = Ok (toy_search_on false (ScoringObject (ScoringCallable "my_scoring" None))
                  true toy_folds)) as Hinit by reflexivity.
  assert ((_fit toy_X (Some toy_y) (toy_configs, None) ∅
             (mkWorld (toy_search_on false
                         (ScoringObject (ScoringCallable "my_scoring" None))
                         true toy_folds) [])).2 = Ok tt) as Hok
    by (vm_compute; reflexivity).
  split_and!; [exact Hclone|exact Hinit|exact Hok|].
  assert (_fit toy_X (Some toy_y) (toy_configs, None) ∅
            (mkWorld (toy_search_on false
                        (ScoringObject (ScoringCallable "my_scoring" None))
                        true toy_folds) [])
          = ((_fit toy_X (Some toy_y) (toy_configs, None) ∅
                (mkWorld (toy_search_on false
                            (ScoringObject (ScoringCallable "my_scoring" None))
                            true toy_folds) [])).1, Ok tt))
    as Hfit by (rewrite <- Hok; apply surjective_pairing).
  exact (fitted_search_can_score _ _ _ _ _ _ _ _ _ _ _ _ _ _ _ _ _
           Hclone Hset Hfitted Hinit Hfit).
Defined.

Lemma validated_grid_is_enumerated_witness :
  Forall valid_value (descriptor_values toy_grid)
  /\ grid_iteration (match toy_grid with OneGroup g => [g] | Groups gs => gs end)
     = (ParameterGrid_iter (ParameterGrid_init (descriptor_sequences toy_grid)), None).
Proof.
  assert (Forall valid_value (descriptor_values toy_grid)) as Hv.
  { vm_compute. repeat constructor. discriminate. }
  split; [exact Hv|].
  exact (proj1 (validated_grid_is_enumerated toy_grid Hv)).
Defined.

Lemma grid_search_scores_follow_the_grid_witness :
  GridSearchCV_init (mkToy 1 true None) toy_grid NoScoring None None None 1%Z true true
    toy_folds 0%Z (DispatchExpr "2*n_jobs")
  = Ok (mkGridSearchCV (toy_search_on true NoScoring true toy_folds) toy_grid)
  /\ (GridSearchCV_fit
        (mkGridSearchCV (toy_search_on true NoScoring true toy_folds) toy_grid)
        toy_X (Some toy_y) ∅).2 = Ok tt
  /\ exists cv_scores,
       (GridSearchCV_grid_scores_
          (GridSearchCV_fit
             (mkGridSearchCV (toy_search_on true NoScoring true toy_folds) toy_grid)
             toy_X (Some toy_y) ∅).1.1).2 = Ok cv_scores
       /\ parameters <$> cv_scores = [toy_config 1; toy_config 3; toy_config 2].
Proof.
  assert (GridSearchCV_init (mkToy 1 true None) toy_grid NoScoring None None None 1%Z
            true true toy_folds 0%Z (DispatchExpr "2*n_jobs")
          = Ok (mkGridSearchCV (toy_search_on true NoScoring true toy_folds) toy_grid))
    as Hinit by (vm_compute; reflexivity).
  assert ((GridSearchCV_fit
             (mkGridSearchCV (toy_search_on true NoScoring true toy_folds) toy_grid)
             toy_X (Some toy_y) ∅).2 = Ok tt) as Hok by (vm_compute; reflexivity).
  split_and!; [exact Hinit|exact Hok|].
  assert (GridSearchCV_fit
            (mkGridSearchCV (toy_search_on true NoScoring true toy_folds) toy_grid)
            toy_X (Some toy_y) ∅
          = ((GridSearchCV_fit
                (mkGridSearchCV (toy_search_on true NoScoring true toy_folds) toy_grid)
                toy_X (Some toy_y) ∅).1.1,
             (GridSearchCV_fit
                (mkGridSearchCV (toy_search_on true NoScoring true toy_folds) toy_grid)
                toy_X (Some toy_y) ∅).1.2, Ok tt)) as Hfit.
  { rewrite <- Hok.
    by destruct (GridSearchCV_fit
                   (mkGridSearchCV (toy_search_on true NoScoring true toy_folds) toy_grid)
                   toy_X (Some toy_y) ∅) as [[? ?] ?]. }
  destruct (grid_search_scores_follow_the_grid _ _ _ _ _ _ _ _ _ _ _ _ _ _ _ _ _ _
              Hinit Hfit) as (cv_scores & _ & Hgs & Hparams & _).
  exists cv_scores. split; [exact Hgs|]. rewrite Hparams. vm_compute. reflexivity.
Defined.


Lemma randomized_search_scores_follow_the_sample_witness :
  (RandomizedSearchCV_fit toy_randomized toy_X (Some toy_y) ∅ (toy_rng 5)).1.2 = Ok tt
  /\ exists cv_scores,
       cv_scores_
         (attrs (rand_base
            (RandomizedSearchCV_fit toy_randomized toy_X (Some toy_y) ∅
               (toy_rng 5)).1.1.1)) = Some cv_scores
       /\ Z.of_nat (length cv_scores) = rand_n_iter toy_randomized.
Proof.
  assert ((RandomizedSearchCV_fit toy_randomized toy_X (Some toy_y) ∅ (toy_rng 5)).1.2
          = Ok tt) as Hok by (vm_compute; reflexivity).
  split; [exact Hok|].
  assert (RandomizedSearchCV_fit toy_randomized toy_X (Some toy_y) ∅ (toy_rng 5)
          = ((RandomizedSearchCV_fit toy_randomized toy_X (Some toy_y) ∅
                (toy_rng 5)).1.1.1,
             (RandomizedSearchCV_fit toy_randomized toy_X (Some toy_y) ∅
                (toy_rng 5)).1.1.2, Ok tt,
             (RandomizedSearchCV_fit toy_randomized toy_X (Some toy_y) ∅
                (toy_rng 5)).2)) as Hfit.
  { rewrite <- Hok.
    by destruct (RandomizedSearchCV_fit toy_randomized toy_X (Some toy_y) ∅ (toy_rng 5))
      as [[[? ?] ?] ?]. }
  destruct (randomized_search_scores_follow_the_sample _ _ _ _ _ _ _ _ Hfit)
    as (cv_scores & Hcv & _ & Hlen & _).
  exists cv_scores. split; [exact Hcv|exact Hlen].
Defined.

(** The toy searches run: without refit nothing can be predicted; a grid
    search scores the grid in enumeration order. *)
Example toy_grid_search_runs :
  (fmap (M := list) parameters
     <$> (GridSearchCV_grid_scores_
            (GridSearchCV_fit
               (mkGridSearchCV (toy_search_on true NoScoring true toy_folds) toy_grid)
               toy_X (Some toy_y) ∅).1.1).2)
  = Ok [toy_config 1; toy_config 3; toy_config 2]
  /\ best_params_
       (attrs (grid_base
          (GridSearchCV_fit
             (mkGridSearchCV (toy_search_on true NoScoring true toy_folds) toy_grid)
             toy_X (Some toy_y) ∅).1.1)) = Some (toy_config 3).
Proof. split; vm_compute; reflexivity. Qed.

(** The docstring example of [IterGrid]: the configurations of
    [ParameterGrid], after one deprecation warning. *)
Example IterGrid_doctest :
  ParameterGrid_iter (IterGrid_init doc_grid).2
  = [ {[ "a" := AInt 1; "b" := ABool true ]}; {[ "a" := AInt 1; "b" := ABool false ]};
      {[ "a" := AInt 2; "b" := ABool true ]}; {[ "a" := AInt 2; "b" := ABool false ]} ]
  /\ category <$> (IterGrid_init doc_grid).1 = [DeprecationWarning].
Proof. split; vm_compute; reflexivity. Qed.

(** ** The best parameters *)

Section best_params_facts.
Context {V num E X Y Fn FP CVA : Type} `{Number num}
        `{Collaborators V num E X Y Fn FP CVA}.
Implicit Types (w : world V num E Fn FP CVA) (l : fit_locals E X Y Fn).
Implicit Types (pit : list (gmap string V) * option exn).

(** The best parameters of a completed search are those of one of its
    summaries, and so one of the configurations it evaluated. *)
Lemma completed_search_best Xv y pit extra w w' :
  _fit Xv y pit extra w = (w', Ok tt) ->
  exists cv_scores best,
    cv_scores_ (attrs (self_obj w')) = Some cv_scores
    /\ best ∈ cv_scores
    /\ best_params_ (attrs (self_obj w')) = Some (parameters best)
    /\ best_score_ (attrs (self_obj w')) = Some (mean_validation_score best)
    /\ parameters best ∈ pit.1.
Proof.
  intros Hfit.
  pose proof (completed_search_cv_scores _ _ _ _ _ _ Hfit)
    as (w1 & l & cv_scores & _ & Hcv & _ & Hparams & _).
  rewrite _fit_unfold in Hfit.
  destruct (fit_setup Xv y extra w) as [w2 [l2|e]]; [|done].
  apply fit_search_ok in Hfit
    as (out & cv_scores' & best & _ & _ & _ & Hbest & Hcv' & Hp & Hs & _).
  assert (cv_scores' = cv_scores) as -> by congruence.
  assert (best ∈ cv_scores) as Hin.
  { unfold select_best in Hbest.
    destruct (py_sorted _ _ _ cv_scores) as [|b rest] eqn:Hsorted; [done|].
    injection Hbest as ->.
    rewrite <- (py_sorted_Permutation num_lt mean_validation_score
                  (scorer_greater_is_better (local_scorer l2)) cv_scores), Hsorted.
    left. }
  exists cv_scores, best. split_and!; try done.
  rewrite <- Hparams. by apply list_elem_of_fmap_2.
Qed.

(** X22. The best parameters of a grid search that completes are a
    configuration of the grid: for one of the groups of [param_grid],
    they give each parameter of the group, and no other name, one of the
    values listed for it; [best_score_] is the mean score of one of the
    summaries in [cv_scores_] that has these parameters. *)
Theorem grid_search_best_is_on_the_grid (est : E)
    (d : grid_descriptor (param_value V)) scoring loss score fp jobs iid refit
    (cva : CVA) verb pd self Xv y extra after ws :
  GridSearchCV_init est d scoring loss score fp jobs iid refit cva verb pd = Ok self ->
  GridSearchCV_fit self Xv y extra = (after, ws, Ok tt) ->
  exists cv_scores best,
    cv_scores_ (attrs (grid_base after)) = Some cv_scores
    /\ best ∈ cv_scores
    /\ best_params_ (attrs (grid_base after)) = Some (parameters best)
    /\ best_score_ (attrs (grid_base after)) = Some (mean_validation_score best)
    /\ parameters best ∈ ParameterGrid_iter (ParameterGrid_init (descriptor_sequences d))
    /\ exists g,
         g ∈ match d with OneGroup g => [g] | Groups gs => gs end
         /\ dom (parameters best) = dom g
         /\ forall k v, parameters best !! k = Some v ->
              exists values, g !! k = Some values /\ v ∈ value_items values.
Proof.
  unfold GridSearchCV_init.
  destruct (BaseSearchCV_init _ _ _ _ _ _ _ _ _ _ _) as [base|]; [|done]. simpl.
  destruct (_check_param_grid d) as [[]|] eqn:Hd; [|done]. simpl.
  intros [= <-]. apply _check_param_grid_valid in Hd.
  unfold GridSearchCV_fit. simpl.
  assert (ParameterGrid_init (descriptor_sequences d)
          = fmap (M := gmap string) value_items
              <$> (match d with OneGroup g => [g] | Groups gs => gs end)) as Hinit
    by (by destruct d).
  rewrite grid_iteration_valid by (by apply descriptor_values_groups).
  destruct (_fit _ _ _ _ _) as [w r] eqn:Hfit. intros [= <- <- ->].
  apply completed_search_best in Hfit
    as (cv_scores & best & Hcv & Hin & Hp & Hs & Hgrid).
  simpl in *. exists cv_scores, best. rewrite Hinit.
  split_and!; try done.
  rewrite ParameterGrid_iter_groups in Hgrid.
  apply list_elem_of_bind in Hgrid as (g' & Hbest & Hg').
  apply list_elem_of_fmap in Hg' as (g & -> & Hg).
  apply elem_of_group_configurations in Hbest as [Hdom Hval].
  exists g. split_and!; [done|by rewrite Hdom, dom_fmap_L|].
  intros k v Hk. destruct (Hval k v Hk) as (vs & Hvs & Hv).
  apply lookup_fmap_Some in Hvs as (values & <- & Hvalues). eauto.
Qed.
End best_params_facts.

Section randomized_best_facts.
Context {V num E X Y Fn FP CVA G : Type} `{Number num}
        `{Collaborators V num E X Y Fn FP CVA} `{RandomState G}.

(** X23. The best parameters of a randomized search that completes are
    one of the configurations the sampler yielded: they give each
    parameter that has a list of candidates one of these candidates, and
    a value to every other parameter. *)
Theorem randomized_search_best_is_a_sample
    (self : @RandomizedSearchCV V num E Fn FP CVA G) (Xv : X) (y : option Y)
    (extra : gmap string V) (rw rw' : rng_world G) after ws :
  RandomizedSearchCV_fit self Xv y extra rw = (after, ws, Ok tt, rw') ->
  exists best,
    best_params_ (attrs (rand_base after)) = Some best
    /\ best ∈ (ParameterSampler_iter
                 (mkParameterSampler (rand_param_distributions self) (rand_n_iter self)
                    (rand_random_state self)) rw).1.1
    /\ map_Forall (fun k d =>
                     match d with
                     | Candidates values => exists v, best !! k = Some v /\ v ∈ values
                     | HasRvs _ => is_Some (best !! k)
                     end) (rand_param_distributions self).
Proof.
  unfold RandomizedSearchCV_fit.
  pose proof (ParameterSampler_iter_candidates
                (mkParameterSampler (rand_param_distributions self) (rand_n_iter self)
                   (rand_random_state self)) rw) as Hcand.
  destruct (ParameterSampler_iter _ rw) as [[yielded err] rw1]. simpl in *.
  destruct (_fit _ _ _ _ _) as [w r] eqn:Hfit. intros Heq. simplify_eq.
  apply completed_search_best in Hfit as (cv_scores & best & _ & _ & Hp & _ & Hin).
  simpl in *. exists (parameters best). split_and!; [done|done|].
  eapply Forall_forall in Hcand; [exact Hcand|done].
Qed.
End randomized_best_facts.

Lemma grid_search_best_is_on_the_grid_witness :
  GridSearchCV_init (mkToy 1 true None) toy_grid NoScoring None None None 1%Z true true
    toy_folds 0%Z (DispatchExpr "2*n_jobs")
  = Ok (mkGridSearchCV (toy_search_on true NoScoring true toy_folds) toy_grid)
  /\ (GridSearchCV_fit
        (mkGridSearchCV (toy_search_on true NoScoring true toy_folds) toy_grid)
        toy_X (Some toy_y) ∅).2 = Ok tt
  /\ exists best,
       best_params_
         (attrs (grid_base
            (GridSearchCV_fit
               (mkGridSearchCV (toy_search_on true NoScoring true toy_folds) toy_grid)
               toy_X (Some toy_y) ∅).1.1)) = Some best
       /\ best ∈ ParameterGrid_iter (ParameterGrid_init (descriptor_sequences toy_grid)).
Proof.
  assert (GridSearchCV_init (mkToy 1 true None) toy_grid NoScoring None None None 1%Z
            true true toy_folds 0%Z (DispatchExpr "2*n_jobs")
          = Ok (mkGridSearchCV (toy_search_on true NoScoring true toy_folds) toy_grid))
    as Hinit by (vm_compute; reflexivity).
  assert ((GridSearchCV_fit
             (mkGridSearchCV (toy_search_on true NoScoring true toy_folds) toy_grid)
             toy_X (Some toy_y) ∅).2 = Ok tt) as Hok by (vm_compute; reflexivity).
  split_and!; [exact Hinit|exact Hok|].
  assert (GridSearchCV_fit
            (mkGridSearchCV (toy_search_on true NoScoring true toy_folds) toy_grid)
            toy_X (Some toy_y) ∅
          = ((GridSearchCV_fit
                (mkGridSearchCV (toy_search_on true NoScoring true toy_folds) toy_grid)
                toy_X (Some toy_y) ∅).1.1,
             (GridSearchCV_fit
                (mkGridSearchCV (toy_search_on true NoScoring true toy_folds) toy_grid)
                toy_X (Some toy_y) ∅).1.2, Ok tt)) as Hfit.
  { rewrite <- Hok.
    by destruct (GridSearchCV_fit
                   (mkGridSearchCV (toy_search_on true NoScoring true toy_folds) toy_grid)
                   toy_X (Some toy_y) ∅) as [[? ?] ?]. }
  destruct (grid_search_best_is_on_the_grid _ _ _ _ _ _ _ _ _ _ _ _ _ _ _ _ _ _
              Hinit Hfit) as (cv_scores & best & _ & _ & Hp & _ & Hgrid & _).
  exists (parameters best). split; [exact Hp|exact Hgrid].
Defined.

Lemma randomized_search_best_is_a_sample_witness :
  (RandomizedSearchCV_fit toy_randomized toy_X (Some toy_y) ∅ (toy_rng 5)).1.2 = Ok tt
  /\ exists best,
       best_params_
         (attrs (rand_base
            (RandomizedSearchCV_fit toy_randomized toy_X (Some toy_y) ∅
               (toy_rng 5)).1.1.1)) = Some best
       /\ map_Forall (fun k d =>
                        match d with
                        | Candidates values => exists v, best !! k = Some v /\ v ∈ values
                        | HasRvs _ => is_Some (best !! k)
                        end) (rand_param_distributions toy_randomized).
Proof.
  assert ((RandomizedSearchCV_fit toy_randomized toy_X (Some toy_y) ∅ (toy_rng 5)).1.2
          = Ok tt) as Hok by (vm_compute; reflexivity).
  split; [exact Hok|].
  assert (RandomizedSearchCV_fit toy_randomized toy_X (Some toy_y) ∅ (toy_rng 5)
          = ((RandomizedSearchCV_fit toy_randomized toy_X (Some toy_y) ∅
                (toy_rng 5)).1.1.1,
             (RandomizedSearchCV_fit toy_randomized toy_X (Some toy_y) ∅
                (toy_rng 5)).1.1.2, Ok tt,
             (RandomizedSearchCV_fit toy_randomized toy_X (Some toy_y) ∅
                (toy_rng 5)).2)) as Hfit.
  { rewrite <- Hok.
    by destruct (RandomizedSearchCV_fit toy_randomized toy_X (Some toy_y) ∅ (toy_rng 5))
      as [[[? ?] ?] ?]. }
  destruct (randomized_search_best_is_a_sample _ _ _ _ _ _ _ _ Hfit)
    as (best & Hp & _ & Hcand).
  exists best. split; [exact Hp|exact Hcand].
Defined.

(** ** The length of a pass *)

Section sampler_count_facts.
Context {V G : Type} `{RandomState G}.
Implicit Types (w : rng_world G) (rnd : rnd_handle G) (self : ParameterSampler V G).

Lemma draws_length (count : nat) (axes : list (string * distribution V G)) rnd w :
  length (draws count axes rnd w).1.1 <= count
  /\ ((draws count axes rnd w).1.2 = None ->
      length (draws count axes rnd w).1.1 = count).
Proof.
  revert rnd w. induction count as [|count IH]; intros rnd w; [done|].
  simpl. destruct (one_draw axes rnd w) as [[[c rnd'] w']|]; [|simpl; split; [lia|done]].
  specialize (IH rnd' w'). destruct (draws count axes rnd' w') as [[more err] w''].
  simpl in *. destruct IH as [Hle Heq]. split; [lia|]. intros Herr. by rewrite Heq.
Qed.

(** X24. A pass of [ParameterSampler] never yields more than [n_iter]
    configurations, and yields fewer only when an exception ends it; with
    [n_iter] zero or negative it yields nothing, raises nothing and
    leaves the generators as they are. *)
Theorem sampler_pass_length self w :
  (Z.of_nat (length (ParameterSampler_iter self w).1.1) <= Z.max 0 (n_iter self))%Z
  /\ ((ParameterSampler_iter self w).1.2 = None ->
      Z.of_nat (length (ParameterSampler_iter self w).1.1) = Z.max 0 (n_iter self))
  /\ ((n_iter self <= 0)%Z -> ParameterSampler_iter self w = ([], None, w)).
Proof.
  split_and!.
  - rewrite ParameterSampler_iter_sorted. unfold sampled_configurations.
    pose proof (proj1 (draws_length (Z.to_nat (n_iter self))
                         (merge_sort name_le (map_to_list (param_distributions self)))
                         (check_random_state (random_state self)) w)). lia.
  - rewrite ParameterSampler_iter_sorted. unfold sampled_configurations.
    intros Herr.
    pose proof (proj2 (draws_length (Z.to_nat (n_iter self))
                         (merge_sort name_le (map_to_list (param_distributions self)))
                         (check_random_state (random_state self)) w) Herr). lia.
  - intros Hn. unfold ParameterSampler_iter.
    by replace (Z.to_nat (n_iter self)) with 0 by lia.
Qed.
End sampler_count_facts.
